(** * The virtual-root controller of dde-file-manager: addresses, visibility,
      enumeration, rename and the root watch session.

    Shallow embedding of
    - [filemanager/models/durl.cpp] (the address type [DUrl]), and
    - [src/dde-file-manager-lib/controllers/dfmrootcontroller.cpp]
      ([ignoreBlkDevice], [DFMRootController], [DFMRootFileWatcherPrivate]).

    Strings are byte strings ([string] of the standard library: a [QString]
    or [QByteArray] in its UTF-8 form).  Records of snapshots stand for the
    objects the backends hand out (UDisks2 block devices and drives, GIO
    mounts and volumes); calls that reach a backend, the settings store or a
    signal are written to an explicit log so that the order and the absence
    of effects can be stated. *)

From Stdlib Require Import ZArith String Ascii List Bool Lia.
From stdpp Require Import base strings list gmap.

Local Open Scope string_scope.
Local Open Scope Z_scope.
Local Open Scope list_scope.

(** ** QString operations used by the sources *)

(** [QString::startsWith]. *)
Definition startsWith (s p : string) : bool := String.prefix p s.

(** [QString::mid(n)]: the string from position [n] on. *)
Fixpoint mid (s : string) (n : nat) : string :=
  match n, s with
  | O, _ => s
  | S n', String _ s' => mid s' n'
  | S _, EmptyString => EmptyString
  end.

(** [QString::contains(sub)]. *)
Fixpoint contains (s sub : string) : bool :=
  String.prefix sub s ||
  match s with
  | EmptyString => false
  | String _ s' => contains s' sub
  end.

(** [QString::endsWith]. *)
Definition endsWith (s p : string) : bool :=
  (String.length p <=? String.length s)%nat &&
  String.eqb (mid s (String.length s - String.length p)) p.

(** The number of UTF-16 code units that the character starting with the
    byte [c] takes in a [QString]: none for a continuation byte, two for the
    first byte of a four-byte sequence (a surrogate pair), one otherwise. *)
Definition utf16Units (c : ascii) : Z :=
  let n := nat_of_ascii c in
  if (n <? 128)%nat then 1
  else if (n <? 192)%nat then 0
  else if (n <? 240)%nat then 1
  else 2.

(** [QString::size] as the [int] the source computes with: the number of
    UTF-16 code units of the text. *)
Fixpoint size (s : string) : Z :=
  match s with
  | EmptyString => 0
  | String c s' => utf16Units c + size s'
  end.

(** [QStringList::join]. *)
Fixpoint join (l : list string) (sep : string) : string :=
  match l with
  | [] => ""
  | [x] => x
  | x :: l' => x +:+ sep +:+ join l' sep
  end.

(** [QString::remove(const QString &)]: every occurrence of [pat] is taken
    out, scanning from the left and resuming right after each removed
    occurrence; an empty pattern removes nothing.  [skip] counts the
    characters of the occurrence being removed that are still ahead. *)
Fixpoint remove_from (pat : string) (skip : nat) (s : string) : string :=
  match s with
  | EmptyString => EmptyString
  | String c s' =>
      match skip with
      | S k => remove_from pat k s'
      | O =>
          if String.prefix pat s
          then remove_from pat (String.length pat - 1) s'
          else String c (remove_from pat O s')
      end
  end.

Definition remove (s pat : string) : string :=
  match pat with
  | EmptyString => s
  | _ => remove_from pat O s
  end.

(** [QChar::isSpace] on the ASCII range: tab, line feed, vertical tab, form
    feed, carriage return and space. *)
Definition isSpace (c : ascii) : bool :=
  let n := nat_of_ascii c in
  ((9 <=? n)%nat && (n <=? 13)%nat) || (n =? 32)%nat.

(** The number of bytes of the white-space character that [s] starts with,
    and 0 when it starts with none.  White space is what [QChar::isSpace]
    accepts: the six ASCII characters, U+0085 and U+00A0 (C2 85, C2 A0),
    and the separators of the categories Zs, Zl and Zp of Unicode 6.3 and
    later, which are U+1680
    (E1 9A 80), U+2000 to U+200A, U+2028, U+2029 and U+202F (E2 80 80 to
    E2 80 8A, E2 80 A8, E2 80 A9, E2 80 AF), U+205F (E2 81 9F) and U+3000
    (E3 80 80). *)
Definition spaceWidth (s : string) : nat :=
  match s with
  | EmptyString => 0
  | String c rest =>
      if isSpace c then 1
      else
        match rest with
        | String d rest' =>
            let c := nat_of_ascii c in
            let d := nat_of_ascii d in
            if (c =? 194)%nat then
              if (d =? 133)%nat || (d =? 160)%nat then 2 else 0
            else
              match rest' with
              | String e _ =>
                  let e := nat_of_ascii e in
                  if (c =? 225)%nat && (d =? 154)%nat && (e =? 128)%nat
                  then 3
                  else if (c =? 226)%nat && (d =? 128)%nat &&
                          ((128 <=? e)%nat && (e <=? 138)%nat ||
                           (e =? 168)%nat || (e =? 169)%nat || (e =? 175)%nat)
                  then 3
                  else if (c =? 226)%nat && (d =? 129)%nat && (e =? 159)%nat
                  then 3
                  else if (c =? 227)%nat && (d =? 128)%nat && (e =? 128)%nat
                  then 3
                  else 0
              | EmptyString => 0
              end
        | EmptyString => 0
        end
  end.

(** Drops leading white space; [skip] counts the bytes of the white-space
    character being dropped that are still ahead. *)
Fixpoint trimLeft_from (skip : nat) (s : string) : string :=
  match s with
  | EmptyString => EmptyString
  | String c s' =>
      match skip with
      | S k => trimLeft_from k s'
      | O =>
          match spaceWidth s with
          | O => s
          | S k => trimLeft_from k s'
          end
      end
  end.

Definition trimLeft (s : string) : string := trimLeft_from 0 s.

(** Drops trailing white space: a byte is kept when the text from it on is
    not white space only. *)
Fixpoint trimRight (s : string) : string :=
  match s with
  | EmptyString => EmptyString
  | String c s' =>
      match trimLeft s with
      | EmptyString => EmptyString
      | _ => String c (trimRight s')
      end
  end.

(** [QString::trimmed]. *)
Definition trimmed (s : string) : string := trimRight (trimLeft s).

Definition isEmpty (s : string) : bool :=
  match s with EmptyString => true | _ => false end.

(** [QUrl::toPercentEncoding] with no exclusions: the unreserved characters
    (letters, digits, [-], [.], [_], [~]) are kept, every other byte becomes
    [%XX] with upper-case hexadecimal digits. *)
Definition isUnreserved (c : ascii) : bool :=
  let n := nat_of_ascii c in
  ((65 <=? n) && (n <=? 90) || (97 <=? n) && (n <=? 122) ||
   (48 <=? n) && (n <=? 57) ||
   (n =? 45) || (n =? 46) || (n =? 95) || (n =? 126))%nat.

Definition hexDigit (n : nat) : ascii :=
  if (n <? 10)%nat then ascii_of_nat (48 + n) else ascii_of_nat (55 + n).

Definition encodeByte (c : ascii) : string :=
  if isUnreserved c then String c EmptyString
  else
    let n := nat_of_ascii c in
    String "%"%char
      (String (hexDigit (n / 16)) (String (hexDigit (n mod 16)) EmptyString)).

Fixpoint toPercentEncoding (s : string) : string :=
  match s with
  | EmptyString => EmptyString
  | String c s' => encodeByte c +:+ toPercentEncoding s'
  end.

(** ** durl.cpp: the address type *)

Definition TRASH_SCHEME := "trash".
Definition RECENT_SCHEME := "recent".
Definition BOOKMARK_SCHEME := "bookmark".
Definition FILE_SCHEME := "file".
Definition COMPUTER_SCHEME := "computer".
Definition SEARCH_SCHEME := "search".

(** The [QSet<QString> schemeList] of durl.cpp. *)
Definition schemeList : list string :=
  [TRASH_SCHEME; RECENT_SCHEME; BOOKMARK_SCHEME; FILE_SCHEME;
   COMPUTER_SCHEME; SEARCH_SCHEME].

Definition schemeList_contains (s : string) : bool :=
  existsb (String.eqb s) schemeList.

(** A [QUrl] value: the components Qt compares and renders.  [authority],
    [query] and [fragment] are [None] when the section is absent, which Qt
    distinguishes from present and empty ([computer:/a] against
    [computer:///a]).  Component text is kept as plain text. *)
Record QUrl : Type := mkQUrl {
  scheme : string;
  authority : option string;
  path : string;
  query : option string;
  fragment : option string
}.

(** A [DUrl] is a [QUrl] (public inheritance, no extra members). *)
Abbreviation DUrl := QUrl.


(** [QUrl::isLocalFile]. *)
Definition isLocalFile (u : QUrl) : bool := String.eqb (scheme u) FILE_SCHEME.


(** [QUrl::toString()]: scheme and colon, then [//] and the authority when
    one is present, or a bare [//] for a local file with an absolute path,
    then the path, [?query] and [#fragment]. *)
Definition QUrl_toString (u : QUrl) : string :=
  (if isEmpty (scheme u) then "" else scheme u +:+ ":") +:+
  (match authority u with
   | Some a => "//" +:+ a
   | None => if isLocalFile u && startsWith (path u) "/" then "//" else ""
   end) +:+
  path u +:+
  (match query u with Some q => "?" +:+ q | None => "" end) +:+
  (match fragment u with Some f => "#" +:+ f | None => "" end).

(** [QUrl::setScheme] and [QUrl::setPath]. *)
Definition QUrl_setScheme (u : QUrl) (s : string) : QUrl :=
  mkQUrl s (authority u) (path u) (query u) (fragment u).

Definition QUrl_setPath (u : QUrl) (p : string) : QUrl :=
  mkQUrl (scheme u) (authority u) p (query u) (fragment u).

(** The default-constructed (empty) URL. *)
Definition QUrl_empty : QUrl := mkQUrl "" None "" None None.

(** [QString::replace(0, 4, after)]. *)
Definition replace_0_4 (s after : string) : string := after +:+ mid s 4.

(** [DUrl::toString]: a local file or a scheme outside [schemeList] is
    rendered by Qt; any other address is rendered as a [file] URL whose
    first four characters are then replaced by the real scheme. *)
Definition DUrl_toString (u : DUrl) : string :=
  if isLocalFile u || negb (schemeList_contains (scheme u))
  then QUrl_toString u
  else replace_0_4 (QUrl_toString (QUrl_setScheme u FILE_SCHEME)) (scheme u).


(** [QUrl::fromPercentEncoding]: every [%XX] with two hexadecimal digits is
    replaced by the byte it names; anything else is kept. *)
Definition hexValue (c : ascii) : option nat :=
  let n := nat_of_ascii c in
  if ((48 <=? n) && (n <=? 57))%nat then Some (n - 48)%nat
  else if ((65 <=? n) && (n <=? 70))%nat then Some (n - 55)%nat
  else if ((97 <=? n) && (n <=? 102))%nat then Some (n - 87)%nat
  else None.

Fixpoint fromPercentEncoding (s : string) : string :=
  match s with
  | EmptyString => EmptyString
  | String c s' =>
      match s' with
      | String h (String l rest) =>
          match Ascii.eqb c "%"%char, hexValue h, hexValue l with
          | true, Some x, Some y =>
              String (ascii_of_nat (16 * x + y)) (fromPercentEncoding rest)
          | _, _, _ => String c (fromPercentEncoding s')
          end
      | _ => String c (fromPercentEncoding s')
      end
  end.

(** Splits [s] before the first character that satisfies [stop]. *)
Fixpoint breakOn (stop : ascii -> bool) (s : string) : string * string :=
  match s with
  | EmptyString => (EmptyString, EmptyString)
  | String c s' =>
      if stop c then (EmptyString, s)
      else let '(a, b) := breakOn stop s' in (String c a, b)
  end.

Definition isOneOf (cs : string) (c : ascii) : bool :=
  existsb (Ascii.eqb c) (list_ascii_of_string cs).

Definition isSchemeChar (c : ascii) : bool :=
  let n := nat_of_ascii c in
  ((65 <=? n) && (n <=? 90) || (97 <=? n) && (n <=? 122) ||
   (48 <=? n) && (n <=? 57) ||
   (n =? 43) || (n =? 45) || (n =? 46))%nat.

Definition toLowerChar (c : ascii) : ascii :=
  let n := nat_of_ascii c in
  if ((65 <=? n) && (n <=? 90))%nat then ascii_of_nat (n + 32) else c.

Fixpoint toLower (s : string) : string :=
  match s with
  | EmptyString => EmptyString
  | String c s' => String (toLowerChar c) (toLower s')
  end.

(** [QUrl(const QString &)]: the generic URL syntax
    [scheme ":" ["//" authority] path ["?" query] ["#" fragment]]; the scheme
    is lower-cased and the path is held decoded, as [QUrl::path()] returns
    it. *)
Definition QUrl_fromString (s : string) : QUrl :=
  let '(sch, afterScheme) :=
    let '(a, b) := breakOn (isOneOf ":/?#") s in
    if startsWith b ":" && negb (isEmpty a) &&
       forallb isSchemeChar (list_ascii_of_string a)
    then (toLower a, mid b 1) else ("", s) in
  let '(auth, afterAuth) :=
    if startsWith afterScheme "//"
    then let '(a, b) := breakOn (isOneOf "/?#") (mid afterScheme 2) in
         (Some a, b)
    else (None, afterScheme) in
  let '(p, afterPath) := breakOn (isOneOf "?#") afterAuth in
  let '(q, afterQuery) :=
    if startsWith afterPath "?"
    then let '(a, b) := breakOn (isOneOf "#") (mid afterPath 1) in (Some a, b)
    else (None, afterPath) in
  let f := if startsWith afterQuery "#" then Some (mid afterQuery 1) else None in
  mkQUrl sch auth (fromPercentEncoding p) q f.

(** What the address type asks of the file system: [QDir::homePath()] and
    [QFileInfo(path).absoluteFilePath()]. *)
Record QtEnv : Type := mkQtEnv {
  homePath : string;
  absoluteFilePath : string -> string
}.

(** [DUrl::makeAbsolute]. *)
Definition makeAbsolute (env : QtEnv) (u : DUrl) : DUrl :=
  if negb (schemeList_contains (scheme u)) then u
  else if isLocalFile u then
    if startsWith (path u) "~"
    then QUrl_setPath u (homePath env +:+ mid (path u) 1)
    else QUrl_setPath u (absoluteFilePath env (path u))
  else if schemeList_contains (scheme u) then
    if startsWith (path u) "/"
    then QUrl_setPath u (absoluteFilePath env (path u))
    else u
  else u.

(** [DUrl::DUrl(const QString &url)]. *)
Definition DUrl_ofString (env : QtEnv) (url : string) : DUrl :=
  makeAbsolute env (QUrl_fromString url).

(** [DUrl::setPath(path)] and [DUrl::setScheme(scheme)] with their default
    [makeAbsolute = true]. *)
Definition DUrl_setPath (env : QtEnv) (u : DUrl) (p : string) : DUrl :=
  makeAbsolute env (QUrl_setPath u p).

Definition DUrl_setScheme (env : QtEnv) (u : DUrl) (s : string) : DUrl :=
  makeAbsolute env (QUrl_setScheme u s).

(** [DUrl::fromComputerFile]: the scheme is set without normalising, then
    the path is set and normalised. *)
Definition fromComputerFile (env : QtEnv) (filePath : string) : DUrl :=
  DUrl_setPath env (QUrl_setScheme QUrl_empty COMPUTER_SCHEME) filePath.

(** ** dfmrootcontroller.cpp: what the controller sees of its collaborators *)

(** The string and feature macros the controller is compiled with.  Their
    definitions live in headers outside the two sources ([durl.h],
    [dfmrootfileinfo.h], [app/define.h], [dfmsettings.h]), so the controller
    is embedded for any values of them. *)
Record Macros : Type := mkMacros {
  macro_DFMROOT_SCHEME : string;
  macro_DFMROOT_ROOT : string;
  macro_BURN_SCHEME : string;
  macro_SUFFIX_USRDIR : string;
  macro_SUFFIX_GVFSMP : string;
  macro_SUFFIX_UDISKS : string;
  macro_SUFFIX_STASHED_REMOTE : string;
  macro_REMOTE_KEY : string;
  macro_REMOTE_PROTOCOL : string;
  macro_REMOTE_HOST : string;
  macro_REMOTE_SHARE : string;
  macro_DISKALIAS_ITEM_UUID : string;
  macro_DISKALIAS_ITEM_NAME : string;
  macro_DISKALIAS_ITEM_ALIAS : string;
  macro_DTK_POLICY_SUPPORT : bool
}.

(** [DBlockPartition::Type]: the five extended or container types the
    controller names, and every other MBR or GPT type. *)
Inductive PartitionType : Type :=
| Win95_Extended_LBA
| Linux_extended
| DRDOS_sec_extend
| Multiuser_DOS_extend
| Extended
| OtherPartitionType (code : Z).

(** The properties of a UDisks2 block device the controller reads. *)
Record DBlockDevice : Type := mkDBlockDevice {
  hintIgnore : bool;
  hintSystem : bool;
  isEncrypted : bool;
  hasPartition : bool;
  hasFileSystem : bool;
  isLoopDevice : bool;
  hasPartitionTable : bool;
  cryptoBackingDevice : string;
  cleartextDevice : string;
  blk_size : Z;
  drive : string;
  device : string;
  idUUID : string;
  mountPoints : list string
}.

(** The properties of a UDisks2 drive the controller reads. *)
Record DDiskDevice : Type := mkDDiskDevice {
  mediaCompatibility : list string;
  removable : bool
}.

(** A GIO file (the root of a mount), a GIO mount and a GIO volume. *)
Record DGioFile : Type := mkDGioFile {
  uri : string;
  gio_path : string
}.

Record DGioMount : Type := mkDGioMount {
  getVolume : option string;   (* the volume's [volumeMonitorName()] *)
  mountClass : string;
  getRootFile : option DGioFile
}.

Record DGioVolume : Type := mkDGioVolume {
  volumeMonitorName : string;
  getMount : bool              (* whether the volume has a mount *)
}.

(** [QDBusError::ErrorType], as far as the controller tells them apart. *)
Inductive QDBusErrorType : Type :=
| NoError
| DBusFailure (name : string).

Definition isNoError (e : QDBusErrorType) : bool :=
  match e with NoError => true | DBusFailure _ => false end.

(** A [QVariantMap] whose values are read with [toString()]. *)
Abbreviation QVariantMap := (gmap string string).

(** [map.value(key).toString()]: the empty string for a missing key. *)
Definition value (m : QVariantMap) (key : string) : string :=
  default "" (m !! key).

Definition map_contains (m : QVariantMap) (key : string) : bool :=
  match m !! key with Some _ => true | None => false end.

(** [QStringList::contains]. *)
Definition list_contains (l : list string) (s : string) : bool :=
  existsb (String.eqb s) l.

(** The entries the controller creates, one constructor for each place
    where the source builds a [DFMRootFileInfo], with the data the address
    is computed from. *)
Inductive RootEntry : Type :=
| UserDirEntry (d : string)
| UDisksEntry (dev : string)
| GvfsMountEntry (rootPath : string)
| StashedRemoteEntry (mount : QVariantMap).

(** What a [DFMRootFileInfo] built for an address answers to the rename
    code. *)
Record DFMRootFileInfo : Type := mkDFMRootFileInfo {
  fileUrl : DUrl;
  canRename : bool;
  canSetAlias : bool;
  getUUID : string;
  udisksDisplayName : string;
  udisksblk : string           (* [extraProperties()["udisksblk"]] *)
}.

(** The state of the collaborators at the time of a call: the settings
    store, the group policy, the UDisks2 and GIO backends, the stash of
    remote mounts, and the answers of the drivers to unmount and set-label. *)
Record World : Type := mkWorld {
  qt : QtEnv;
  GA_HideLoopPartitions : bool;
  GA_HiddenSystemPartition : bool;
  GA_AlwaysShowOfflineRemoteConnections : bool;
  diskAliasItems : list QVariantMap;
  policy_containKey_DISK_HIDDEN : bool;
  policy_getValue_DISK_HIDDEN : list string;
  blockDevices : list string;
  createBlockDevice : string -> DBlockDevice;
  createDiskDevice : string -> DDiskDevice;
  createBlockPartition : string -> option PartitionType;
  getVolumes : list DGioVolume;
  getMounts : list DGioMount;
  isFromNativeBlockDev : string -> bool;
  remoteMounts : list QVariantMap;
  isIntegrationMode : bool;
  exists_ : RootEntry -> bool;
  rootFileInfo : DUrl -> DFMRootFileInfo;
  unmountReply : string -> QDBusErrorType;
  setLabelReply : string -> string -> QDBusErrorType
}.

(** The signals of [DAbstractFileWatcher] with one address argument
    ([SignalType1]). *)
Inductive SignalType1 : Type :=
| fileAttributeChanged
| fileDeleted
| subfileCreated
| fileModified
| fileClosed.

(** The generic attributes the controller reads or writes. *)
Inductive GenericAttribute : Type :=
| HideLoopPartitions
| HiddenSystemPartition
| AlwaysShowOfflineRemoteConnections.

(** The signals of a block device a watch session listens to. *)
Inductive DeviceSignal : Type :=
| idLabelChanged
| mountPointsChanged
| sizeChanged
| idTypeChanged
| cleartextDeviceChanged.

(** A connection made by the watch session: the five manager signals, and
    a device signal whose slot emits [fileAttributeChanged(url)]. *)
Inductive Connection : Type :=
| mountAdded
| mountRemoved
| volumeAdded
| blockDeviceAdded
| blockDeviceRemoved
| deviceSignal (dev : string) (sig : DeviceSignal) (url : DUrl).

(** What a call does to the outside, in the order it does it. *)
Inductive Effect : Type :=
| QueryExists (e : RootEntry)
| QueryGroupPolicy
| QueryBlockDevices
| InspectBlockDevice (blks : string)
| ReloadBlkName (blks : string)
| ReadAttribute (a : GenericAttribute)
| WriteAttribute (a : GenericAttribute) (v : bool)
| QueryVolumes
| MountVolume (v : DGioVolume)
| QueryMounts
| QueryNativeBlockDev (p : string)
| QueryRemoteMounts
| QueryIntegrationMode
| ReadDiskAlias
| WriteDiskAlias (items : list QVariantMap)
| GhostSignal (target : DUrl) (sig : SignalType1) (url : DUrl)
| Emit (sig : SignalType1) (url : DUrl)
| Unmount (blk : string)
| SetLabel (blk : string) (label : string)
| SetWatchChanges (on : bool)
| WatchDevice (dev : string)
| AppendHiddenDirs (dir : string)
| Connect (c : Connection)
| Disconnect (c : Connection).

(** *** ignoreBlkDevice *)

(** The return statements of [ignoreBlkDevice], in source order; the ones
    named [By...] and [DependsOnHideLoop] are those that write an
    "Ignored ..." line before they return. *)
Inductive IgnoreExit : Type :=
| ByHintIgnore
| OpticalDrive
| EncryptedShell
| ByPartitionType (t : PartitionType)
| DependsOnHideLoop (hideLoop : bool)
| ByClearTextDevice
| ByHasPartitionTable
| ByUnremovable
| BySizeBelow1024
| NotIgnored.

(** The value each return statement returns. *)
Definition exitValue (e : IgnoreExit) : bool :=
  match e with
  | ByHintIgnore => true
  | OpticalDrive => false
  | EncryptedShell => false
  | ByPartitionType _ => true
  | DependsOnHideLoop hideLoop => hideLoop
  | ByClearTextDevice => true
  | ByHasPartitionTable => true
  | ByUnremovable => true
  | BySizeBelow1024 => true
  | NotIgnored => false
  end.

(** The [switch] on the partition type. *)
Definition isExtendedType (t : PartitionType) : bool :=
  match t with
  | Win95_Extended_LBA | Linux_extended | DRDOS_sec_extend
  | Multiuser_DOS_extend | Extended => true
  | OtherPartitionType _ => false
  end.

(** The [if (blk->hasPartition())] block: [Some t] when it returns. *)
Definition hiddenPartitionType (w : World) (blkPath : string)
    (blk : DBlockDevice) : option PartitionType :=
  if hasPartition blk then
    match createBlockPartition w blkPath with
    | Some t => if isExtendedType t then Some t else None
    | None => None
    end
  else None.

(** [ignoreBlkDevice], as the return statement it leaves by. *)
Definition ignoreBlkDevice_exit (w : World) (blkPath : string)
    (blk : DBlockDevice) (drv : DDiskDevice) : IgnoreExit :=
  if hintIgnore blk then ByHintIgnore
  else if contains (join (mediaCompatibility drv) ",") "optical" then OpticalDrive
  else if isEncrypted blk then EncryptedShell
  else
    match hiddenPartitionType w blkPath blk with
    | Some t => ByPartitionType t
    | None =>
        if hasFileSystem blk then
          if isLoopDevice blk then DependsOnHideLoop (GA_HideLoopPartitions w)
          else if (1 <? size (cryptoBackingDevice blk)) then ByClearTextDevice
          else NotIgnored
        else
          if hasPartitionTable blk then ByHasPartitionTable
          else if negb (removable drv) then ByUnremovable
          else if blk_size blk <? 1024 then BySizeBelow1024
          else NotIgnored
    end.

(** [ignoreBlkDevice]: [true] when the device is to be left out. *)
Definition ignoreBlkDevice (w : World) (blkPath : string)
    (blk : DBlockDevice) (drv : DDiskDevice) : bool :=
  exitValue (ignoreBlkDevice_exit w blkPath blk drv).

Section RootController.

Variable M : Macros.

Local Abbreviation DFMROOT_SCHEME := (macro_DFMROOT_SCHEME M).
Local Abbreviation DFMROOT_ROOT := (macro_DFMROOT_ROOT M).
Local Abbreviation BURN_SCHEME := (macro_BURN_SCHEME M).
Local Abbreviation SUFFIX_USRDIR := (macro_SUFFIX_USRDIR M).
Local Abbreviation SUFFIX_GVFSMP := (macro_SUFFIX_GVFSMP M).
Local Abbreviation SUFFIX_UDISKS := (macro_SUFFIX_UDISKS M).
Local Abbreviation REMOTE_KEY := (macro_REMOTE_KEY M).
Local Abbreviation REMOTE_PROTOCOL := (macro_REMOTE_PROTOCOL M).
Local Abbreviation REMOTE_HOST := (macro_REMOTE_HOST M).
Local Abbreviation REMOTE_SHARE := (macro_REMOTE_SHARE M).
Local Abbreviation DISKALIAS_ITEM_UUID := (macro_DISKALIAS_ITEM_UUID M).
Local Abbreviation DISKALIAS_ITEM_NAME := (macro_DISKALIAS_ITEM_NAME M).
Local Abbreviation DISKALIAS_ITEM_ALIAS := (macro_DISKALIAS_ITEM_ALIAS M).
Local Abbreviation DTK_POLICY_SUPPORT := (macro_DTK_POLICY_SUPPORT M).

(** The test both [getChildren] and the virtual root's own address pass:
    the scheme is [DFMROOT_SCHEME] and the path is ["/"]. *)
Definition isVirtualRoot (u : DUrl) : bool :=
  String.eqb (scheme u) DFMROOT_SCHEME && String.eqb (path u) "/".

(** *** DFMRootController::setLocalDiskAlias *)

(** The [for] loop over the alias list: the first record whose uuid is
    [uuid] is removed when the alias is empty and overwritten otherwise;
    the flag is [exists]. *)
Fixpoint aliasLoop (uuid dispalyAlias displayName : string)
    (items : list QVariantMap) : list QVariantMap * bool :=
  match items with
  | [] => ([], false)
  | map :: rest =>
      if String.eqb (value map DISKALIAS_ITEM_UUID) uuid then
        if isEmpty dispalyAlias then (rest, true)
        else (<[DISKALIAS_ITEM_ALIAS := dispalyAlias]>
                (<[DISKALIAS_ITEM_NAME := displayName]> map) :: rest, true)
      else
        let '(rest', found) := aliasLoop uuid dispalyAlias displayName rest in
        (map :: rest', found)
  end.

(** The record appended in case [c]. *)
Definition newAliasRecord (uuid dispalyAlias displayName : string) : QVariantMap :=
  <[DISKALIAS_ITEM_ALIAS := dispalyAlias]>
    (<[DISKALIAS_ITEM_NAME := displayName]>
       (<[DISKALIAS_ITEM_UUID := uuid]> ∅)).

(** [setLocalDiskAlias(fi, alias)]; [None] is the null pointer. *)
Definition setLocalDiskAlias (w : World) (fi : option DFMRootFileInfo)
    (alias : string) : bool * list Effect :=
  match fi with
  | None => (false, [])
  | Some fi =>
      if negb (canRename fi) || isEmpty (getUUID fi) then (false, [])
      else
        let uuid := getUUID fi in
        let dispalyAlias := trimmed alias in
        let displayName := udisksDisplayName fi in
        let items := diskAliasItems w in
        let '(items, found) := aliasLoop uuid dispalyAlias displayName items in
        let items :=
          if negb found && negb (isEmpty dispalyAlias) && negb (isEmpty uuid)
          then items ++ [newAliasRecord uuid dispalyAlias displayName]
          else items in
        (true,
         [ReadDiskAlias; WriteDiskAlias items;
          GhostSignal (DUrl_ofString (qt w) DFMROOT_ROOT) fileAttributeChanged
            (fileUrl fi)])
  end.

(** *** DFMRootController::renameFile *)

Record DFMRenameEvent : Type := mkDFMRenameEvent {
  fromUrl : DUrl;
  toUrl : DUrl
}.

(** [renameFile(event)].  The device is addressed by its UDisks2 object
    path; [lastError()] after a call is the driver's answer to that call.
    The [Q_ASSERT] on the device is a debug check and has no counterpart. *)
Definition renameFile (w : World) (event : DFMRenameEvent) : bool * list Effect :=
  let fi := rootFileInfo w (fromUrl event) in
  if negb (canRename fi) then (false, [])
  else if canSetAlias fi then setLocalDiskAlias w (Some fi) (path (toUrl event))
  else
    let udiskspath := udisksblk fi in
    let blk := createBlockDevice w udiskspath in
    let curName := udisksDisplayName fi in
    let destName := path (toUrl event) in
    if String.eqb curName destName then (true, [])
    else if (0 <? Z.of_nat (length (mountPoints blk))) then
      if negb (isNoError (unmountReply w udiskspath))
      then (false, [Unmount udiskspath])
      else (isNoError (setLabelReply w udiskspath destName),
            [Unmount udiskspath; SetLabel udiskspath destName])
    else (isNoError (setLabelReply w udiskspath destName),
          [SetLabel udiskspath destName]).

(** *** DFMRootController::getChildren *)

Record DFMGetChildrensEvent : Type := mkDFMGetChildrensEvent {
  url : DUrl;
  canconst : bool
}.

Definition udir : list string :=
  ["desktop"; "videos"; "music"; "pictures"; "documents"; "downloads"].

(** The loop over the user directories. *)
Definition userDirStep (w : World) (acc : list RootEntry * list Effect)
    (d : string) : list RootEntry * list Effect :=
  let '(ret, log) := acc in
  let fp := UserDirEntry d in
  (if exists_ w fp then ret ++ [fp] else ret, log ++ [QueryExists fp]).

(** The state of the loop over the block devices. *)
Record BlockAcc : Type := mkBlockAcc {
  blk_ret : list RootEntry;
  hintSystemDisks : list string;
  blk_log : list Effect
}.

(** The body of the loop over the block devices. *)
Definition blockStep (w : World) (hasSetDiskPolicy : bool)
    (diskPolicyList : list string) (acc : BlockAcc) (blks : string) : BlockAcc :=
  let blk := createBlockDevice w blks in
  let drv := createDiskDevice w (drive blk) in
  let log := blk_log acc ++ [InspectBlockDevice blks] in
  if ignoreBlkDevice w blks blk drv
  then mkBlockAcc (blk_ret acc) (hintSystemDisks acc) log
  else
    let log := log ++ [ReloadBlkName blks] in
    let fp := UDisksEntry (mid (device blk) (String.length "/dev/")) in
    if DTK_POLICY_SUPPORT then
      if hasSetDiskPolicy && hintSystem blk &&
         list_contains diskPolicyList (idUUID blk)
      then mkBlockAcc (blk_ret acc) (hintSystemDisks acc) log
      else
        let disks :=
          if hintSystem blk then hintSystemDisks acc ++ [idUUID blk]
          else hintSystemDisks acc in
        if hasSetDiskPolicy then mkBlockAcc (blk_ret acc ++ [fp]) disks log
        else
          let log := log ++ [ReadAttribute HiddenSystemPartition] in
          if GA_HiddenSystemPartition w && hintSystem blk
          then mkBlockAcc (blk_ret acc) disks log
          else mkBlockAcc (blk_ret acc ++ [fp]) disks log
    else
      let log := log ++ [ReadAttribute HiddenSystemPartition] in
      if GA_HiddenSystemPartition w && hintSystem blk
      then mkBlockAcc (blk_ret acc) (hintSystemDisks acc) log
      else mkBlockAcc (blk_ret acc ++ [fp]) (hintSystemDisks acc) log.

(** [name.contains(QRegularExpression("(MTP|GPhoto2|Afc)$"))]: one of the
    three names at the end of the subject, or before its final line feed. *)
Definition newline : string := String (ascii_of_nat 10) EmptyString.

Definition isAutoMountMonitor (name : string) : bool :=
  existsb (fun x => endsWith name x || endsWith name (x +:+ newline))
    ["MTP"; "GPhoto2"; "Afc"].

(** The loop over the volumes. *)
Definition volumeStep (log : list Effect) (gvfsvol : DGioVolume) : list Effect :=
  if isAutoMountMonitor (volumeMonitorName gvfsvol) && negb (getMount gvfsvol)
  then log ++ [MountVolume gvfsvol] else log.

(** The state of the loop over the mounts: the entries, [urllist] and the
    log. *)
Record MountAcc : Type := mkMountAcc {
  mnt_ret : list RootEntry;
  urllist : list string;
  mnt_log : list Effect
}.

(** The key a mount is remembered by in [urllist]. *)
Definition gvfsKey (rootPath : string) : string :=
  "/" +:+ toPercentEncoding rootPath +:+ "." +:+ SUFFIX_GVFSMP.

(** The body of the loop over the mounts. *)
Definition mountStep (w : World) (acc : MountAcc) (gvfsmp : DGioMount) : MountAcc :=
  if match getVolume gvfsmp with
     | Some name => endsWith name "UDisks2"
     | None => false
     end
  then acc
  else if String.eqb (mountClass gvfsmp) "GUnixMount" then acc
  else
    match getRootFile gvfsmp with
    | None => acc
    | Some rootFile =>
        if String.eqb (scheme (DUrl_ofString (qt w) (uri rootFile))) BURN_SCHEME
        then acc
        else
          let fromMedia := startsWith (uri rootFile) "file:///media/" in
          let log :=
            if fromMedia
            then mnt_log acc ++ [QueryNativeBlockDev (gio_path rootFile)]
            else mnt_log acc in
          if fromMedia && isFromNativeBlockDev w (gio_path rootFile)
          then mkMountAcc (mnt_ret acc) (urllist acc) log
          else
            let key := gvfsKey (gio_path rootFile) in
            if list_contains (urllist acc) key
            then mkMountAcc (mnt_ret acc) (urllist acc) log
            else
              let fp := GvfsMountEntry (gio_path rootFile) in
              mkMountAcc
                (if exists_ w fp then mnt_ret acc ++ [fp] else mnt_ret acc)
                (urllist acc ++ [key])
                (log ++ [QueryExists fp])
    end.

(** The key a stashed mount is looked up by in [urllist]. *)
Definition stashedKey (mount : QVariantMap) : string :=
  "/" +:+ toPercentEncoding (value mount REMOTE_KEY +:+ "." +:+ SUFFIX_GVFSMP).

(** The body of the loop over the stashed mounts. *)
Definition stashedStep (w : World) (urllist : list string)
    (acc : list RootEntry * list Effect) (mount : QVariantMap)
    : list RootEntry * list Effect :=
  let '(ret, log) := acc in
  if negb (map_contains mount REMOTE_KEY) then acc
  else if list_contains urllist (stashedKey mount) then acc
  else if negb (map_contains mount REMOTE_PROTOCOL &&
                map_contains mount REMOTE_HOST) then acc
  else
    let protocol := value mount REMOTE_PROTOCOL in
    let host := value mount REMOTE_HOST in
    if isEmpty protocol || isEmpty host then acc
    else
      let log := log ++ [QueryIntegrationMode] in
      if negb (isIntegrationMode w)
      then (ret ++ [StashedRemoteEntry mount], log)
      else (ret, log).

(** The end of [getChildren]: the group policy is written back to the old
    switch. *)
Definition syncPolicy (hasSetDiskPolicy : bool) (diskPolicyList : list string)
    (disks : list string) : list Effect :=
  if DTK_POLICY_SUPPORT && hasSetDiskPolicy then
    if match diskPolicyList with [] => true | _ => false end
    then [WriteAttribute HiddenSystemPartition false]
    else
      let allSet := forallb (list_contains diskPolicyList) disks in
      [WriteAttribute HiddenSystemPartition allSet]
  else [].

(** [getChildren(event)]: the entries and what was done to obtain them. *)
Definition getChildren (w : World) (event : DFMGetChildrensEvent)
    : list RootEntry * list Effect :=
  if negb (String.eqb (scheme (url event)) DFMROOT_SCHEME) ||
     negb (String.eqb (path (url event)) "/")
  then ([], [])
  else
    let '(ret, log) := fold_left (userDirStep w) udir ([], []) in
    let hasSetDiskPolicy :=
      DTK_POLICY_SUPPORT && policy_containKey_DISK_HIDDEN w in
    let diskPolicyList :=
      if hasSetDiskPolicy then policy_getValue_DISK_HIDDEN w else [] in
    let log := if DTK_POLICY_SUPPORT then log ++ [QueryGroupPolicy] else log in
    let log := log ++ [QueryBlockDevices] in
    let b := fold_left (blockStep w hasSetDiskPolicy diskPolicyList)
               (blockDevices w) (mkBlockAcc ret [] log) in
    let log := fold_left volumeStep (getVolumes w) (blk_log b ++ [QueryVolumes]) in
    if canconst event then (blk_ret b, log)
    else
      let m := fold_left (mountStep w) (getMounts w)
                 (mkMountAcc (blk_ret b) [] (log ++ [QueryMounts])) in
      let log := mnt_log m ++ [ReadAttribute AlwaysShowOfflineRemoteConnections] in
      let '(ret, log) :=
        if GA_AlwaysShowOfflineRemoteConnections w
        then fold_left (stashedStep w (urllist m)) (remoteMounts w)
               (mnt_ret m, log ++ [QueryRemoteMounts])
        else (mnt_ret m, log) in
      (ret, log ++ syncPolicy hasSetDiskPolicy diskPolicyList (hintSystemDisks b)).

(** *** DFMRootFileWatcherPrivate *)

(** The members of the watch session; [target] is [q->fileUrl()], the
    managers are [true] when allocated, devices are held by object path. *)
Record DFMRootFileWatcherPrivate : Type := mkWatcher {
  target : DUrl;
  started : bool;
  vfsmgr : bool;
  udisksmgr : bool;
  connections : list Connection;
  blkdevs : list string;
  connectionsurl : list string
}.

(** A freshly constructed session on [u]. *)
Definition newWatcher (u : DUrl) : DFMRootFileWatcherPrivate :=
  mkWatcher u false false false [] [] [].

Definition udisksPrefix : string := "/org/freedesktop/UDisks2/block_devices/".

(** [initBlockDevConnections(blk, devs)]. *)
Definition initBlockDevConnections (w : World)
    (st : DFMRootFileWatcherPrivate * list Effect)
    (blk : DBlockDevice) (devs : string)
    : DFMRootFileWatcherPrivate * list Effect :=
  let '(d, log) := st in
  let blkdevs1 := blkdevs d ++ [devs] in
  let log := log ++ [WatchDevice devs] in
  let urlstr :=
    DFMROOT_ROOT +:+ mid devs (String.length udisksPrefix) +:+ "." +:+ SUFFIX_UDISKS in
  let url := DUrl_ofString (qt w) urlstr in
  if isEncrypted blk then
    let ctblk := cleartextDevice blk in
    let blkdevs2 := blkdevs1 ++ [ctblk] in
    let log := log ++ [WatchDevice ctblk] in
    if list_contains (connectionsurl d) (urlstr +:+ "_en")
    then (mkWatcher (target d) (started d) (vfsmgr d) (udisksmgr d)
            (connections d) blkdevs2 (connectionsurl d), log)
    else
      let cs := [deviceSignal devs cleartextDeviceChanged url;
                 deviceSignal ctblk idLabelChanged url;
                 deviceSignal ctblk mountPointsChanged url] in
      (mkWatcher (target d) (started d) (vfsmgr d) (udisksmgr d)
         (connections d ++ cs) blkdevs2
         (connectionsurl d ++ [urlstr +:+ "_en"]),
       log ++ map Connect cs)
  else
    if list_contains (connectionsurl d) urlstr
    then (mkWatcher (target d) (started d) (vfsmgr d) (udisksmgr d)
            (connections d) blkdevs1 (connectionsurl d), log)
    else
      let cs := [deviceSignal devs idLabelChanged url;
                 deviceSignal devs mountPointsChanged url;
                 deviceSignal devs sizeChanged url;
                 deviceSignal devs idTypeChanged url;
                 deviceSignal devs cleartextDeviceChanged url] in
      (mkWatcher (target d) (started d) (vfsmgr d) (udisksmgr d)
         (connections d ++ cs) blkdevs1 (connectionsurl d ++ [urlstr]),
       log ++ map Connect cs).

(** The body of the loop of [start] over the block devices present. *)
Definition startStep (w : World)
    (st : DFMRootFileWatcherPrivate * list Effect) (devs : string)
    : DFMRootFileWatcherPrivate * list Effect :=
  let '(d, log) := st in
  let blk := createBlockDevice w devs in
  let drv := createDiskDevice w (drive blk) in
  let log := log ++ [InspectBlockDevice devs] in
  let log :=
    match mountPoints blk with
    | mountPoint :: _ =>
        if negb (removable drv) then
          let mountPoint :=
            if endsWith mountPoint "/" then mountPoint else mountPoint +:+ "/" in
          log ++ [AppendHiddenDirs (mountPoint +:+ "root");
                  AppendHiddenDirs (mountPoint +:+ "lost+found")]
        else log
    | [] => log
    end in
  if ignoreBlkDevice w devs blk drv then (d, log)
  else initBlockDevConnections w (d, log) blk devs.

(** [start()]: the result, the session afterwards, and the effects. *)
Definition start (w : World) (d : DFMRootFileWatcherPrivate)
    : bool * DFMRootFileWatcherPrivate * list Effect :=
  if negb (String.eqb (path (target d)) "/") || started d then (false, d, [])
  else
    let cs := [mountAdded; mountRemoved; volumeAdded;
               blockDeviceAdded; blockDeviceRemoved] in
    let d1 := mkWatcher (target d) (started d) true true
                (connections d ++ cs) (blkdevs d) (connectionsurl d) in
    let '(d2, log) :=
      fold_left (startStep w) (blockDevices w)
        (d1, [SetWatchChanges true] ++ map Connect cs ++ [QueryBlockDevices]) in
    (true,
     mkWatcher (target d2) true (vfsmgr d2) (udisksmgr d2)
       (connections d2) (blkdevs d2) (connectionsurl d2),
     log).

(** [stop()]. *)
Definition stop (d : DFMRootFileWatcherPrivate)
    : bool * DFMRootFileWatcherPrivate * list Effect :=
  if negb (started d) then (false, d, [])
  else
    (true,
     mkWatcher (target d) false false false [] [] [],
     [SetWatchChanges false] ++ map Disconnect (connections d)).

(** [handleGhostSignal(target, signal, url)]: the result and the signals
    emitted. *)
Definition handleGhostSignal (w : World) (target : DUrl)
    (signal : SignalType1) (url : DUrl) : bool * list Effect :=
  let path := path url in
  if startsWith path "/dev/loop" then
    match signal with
    | fileDeleted =>
        (true,
         [Emit fileDeleted
            (DUrl_ofString (qt w)
               (DFMROOT_ROOT +:+ mid path (String.length "/dev/") +:+ "." +:+
                SUFFIX_UDISKS))])
    | subfileCreated => (true, [])
    | _ => (false, [])
    end
  else (false, []).

End RootController.

(** ** The visibility policy in the words of the specification *)

(** What a rule decides. *)
Inductive Verdict : Type := Hidden | Visible.

Definition verdictVisible (d : Verdict) : bool :=
  match d with Visible => true | Hidden => false end.

(** First match wins; [Visible] when no rule applies. *)
Fixpoint firstMatch (rules : list (bool * Verdict)) : Verdict :=
  match rules with
  | [] => Visible
  | (true, d) :: _ => d
  | (false, _) :: rest => firstMatch rest
  end.

(** The position of the rule that decides, [None] when no rule applies. *)
Fixpoint firstMatchIndex (rules : list (bool * Verdict)) : option nat :=
  match rules with
  | [] => None
  | (true, _) :: _ => Some O
  | (false, _) :: rest => option_map S (firstMatchIndex rest)
  end.

(** The drive reports optical media capability. *)
Definition optical (drv : DDiskDevice) : bool :=
  contains (join (mediaCompatibility drv) ",") "optical".

(** The device carries a partition of an extended or container type;
    [partition] is the type read for the device, if one could be read. *)
Definition carriesExtendedPartition (partition : option PartitionType)
    (blk : DBlockDevice) : bool :=
  hasPartition blk &&
  match partition with Some t => isExtendedType t | None => false end.

(** The device is the cleartext counterpart of an encrypted shell. *)
Definition isCleartextCounterpart (blk : DBlockDevice) : bool :=
  1 <? size (cryptoBackingDevice blk).

(** Rules 1 to 6 of the visibility policy, in their order of precedence,
    over the device snapshot, the drive snapshot and the "hide loop
    partitions" switch. *)
Definition visibilityRules (hideLoop : bool) (partition : option PartitionType)
    (dev : DBlockDevice) (drive : DDiskDevice) : list (bool * Verdict) :=
  [ (hintIgnore dev, Hidden);
    (optical drive, Visible);
    (isEncrypted dev, Visible);
    (carriesExtendedPartition partition dev, Hidden);
    (hasFileSystem dev && isLoopDevice dev, if hideLoop then Hidden else Visible);
    (hasFileSystem dev && isCleartextCounterpart dev, Hidden);
    (hasFileSystem dev, Visible);
    (hasPartitionTable dev, Hidden);
    (negb (removable drive), Hidden);
    (blk_size dev <? 1024, Hidden) ].

Definition visible (hideLoop : bool) (partition : option PartitionType)
    (dev : DBlockDevice) (drive : DDiskDevice) : bool :=
  verdictVisible (firstMatch (visibilityRules hideLoop partition dev drive)).

(** The position in [visibilityRules] of the rule a return statement of
    [ignoreBlkDevice] belongs to; the final [return false] serves both the
    rule "any other device with a file system" and the case that no rule
    applies. *)
Definition exitRule (e : IgnoreExit) (withFileSystem : bool) : option nat :=
  match e with
  | ByHintIgnore => Some 0%nat
  | OpticalDrive => Some 1%nat
  | EncryptedShell => Some 2%nat
  | ByPartitionType _ => Some 3%nat
  | DependsOnHideLoop _ => Some 4%nat
  | ByClearTextDevice => Some 5%nat
  | ByHasPartitionTable => Some 7%nat
  | ByUnremovable => Some 8%nat
  | BySizeBelow1024 => Some 9%nat
  | NotIgnored => if withFileSystem then Some 6%nat else None
  end.

(** ** Address equality in the words of the specification *)





(** ** Network mounts in the words of the specification *)

(** The key under which an entry stands for a network mount: the key of
    the mount for a live entry, the key of the record for a stashed one. *)
Definition entryKey (M : Macros) (e : RootEntry) : option string :=
  match e with
  | GvfsMountEntry rootPath => Some (gvfsKey M rootPath)
  | StashedRemoteEntry mount =>
      if map_contains mount (macro_REMOTE_KEY M)
      then Some (stashedKey M mount) else None
  | UserDirEntry _ | UDisksEntry _ => None
  end.

Definition representsKey (M : Macros) (key : string) (e : RootEntry) : bool :=
  match entryKey M e with
  | Some k => String.eqb k key
  | None => false
  end.

(** The mounts the loop of [getChildren] does not skip, with the path of
    their root: not a projection of a UDisks2 volume, not a [GUnixMount],
    with a root file, not a burn mount, and not a native block device
    mounted under /media. *)
Definition listedMount (M : Macros) (w : World) (gvfsmp : DGioMount)
    : option string :=
  if match getVolume gvfsmp with
     | Some name => endsWith name "UDisks2"
     | None => false
     end
  then None
  else if String.eqb (mountClass gvfsmp) "GUnixMount" then None
  else
    match getRootFile gvfsmp with
    | None => None
    | Some rootFile =>
        if String.eqb (scheme (DUrl_ofString (qt w) (uri rootFile)))
             (macro_BURN_SCHEME M)
        then None
        else if startsWith (uri rootFile) "file:///media/" &&
                isFromNativeBlockDev w (gio_path rootFile)
        then None
        else Some (gio_path rootFile)
    end.

(** The two states of the loop over the mounts with respect to one key:
    the key is not yet in [urllist] and no entry stands for it, or it is in
    [urllist] and exactly the live entry stands for it. *)
Definition unseen (M : Macros) (key : string) (acc : MountAcc) : Prop :=
  list_contains (urllist acc) key = false /\
  List.filter (representsKey M key) (mnt_ret acc) = [].

Definition seen (M : Macros) (rootPath : string) (acc : MountAcc) : Prop :=
  list_contains (urllist acc) (gvfsKey M rootPath) = true /\
  List.filter (representsKey M (gvfsKey M rootPath)) (mnt_ret acc) =
    [GvfsMountEntry rootPath].

(** ** Example inputs *)

(** The macro values of the upstream headers. *)
Definition upstream : Macros :=
  mkMacros "dfmroot" "dfmroot:///" "burn" "userdir" "gvfsmp" "localdisk"
    "remote" "key" "protocol" "host" "share" "uuid" "name" "alias" true.

(** Addresses: two device paths, the virtual root, the trash root, and the
    entry of /dev/sdb1. *)
Definition loop5 : DUrl := mkQUrl "" None "/dev/loop5" None None.
Definition sda1 : DUrl := mkQUrl "" None "/dev/sda1" None None.
Definition rootUrl : DUrl := mkQUrl "dfmroot" (Some "") "/" None None.
Definition trashUrl : DUrl := mkQUrl "trash" (Some "") "/" None None.
Definition sdb1Url : DUrl := mkQUrl "dfmroot" (Some "") "/sdb1.localdisk" None None.

(** A world with no devices, no mounts, no stash and every switch off. *)
Definition quietEnv : QtEnv := mkQtEnv "/home/user" (fun p => p).

Definition plainBlock : DBlockDevice :=
  mkDBlockDevice false false false false false false false "/" "/" 0
    "/org/freedesktop/UDisks2/drives/d0" "/dev/sdb1" "" [].

Definition fixedDrive : DDiskDevice := mkDDiskDevice [] false.

Definition plainInfo (u : DUrl) : DFMRootFileInfo :=
  mkDFMRootFileInfo u false false "" "" "".

Definition quietWorld : World :=
  mkWorld quietEnv false false false [] false [] []
    (fun _ => plainBlock) (fun _ => fixedDrive) (fun _ => None)
    [] [] (fun _ => false) [] false (fun _ => true) plainInfo
    (fun _ => NoError) (fun _ _ => NoError).

(** A world in which every partition read is an extended one. *)
Definition extendedWorld : World :=
  mkWorld quietEnv false false false [] false [] []
    (fun _ => plainBlock) (fun _ => fixedDrive) (fun _ => Some Extended)
    [] [] (fun _ => false) [] false (fun _ => true) plainInfo
    (fun _ => NoError) (fun _ _ => NoError).

(** A 512-byte partition without a file system on a non-removable drive. *)
Definition tinyBlock : DBlockDevice :=
  mkDBlockDevice false false false true false false false "/" "/" 512
    "/org/freedesktop/UDisks2/drives/d0" "/dev/sda3" "" [].

(** A world in which /dev/sdb1 is mounted, its entry can be renamed for
    real, and the driver refuses to unmount. *)
Definition labelInfo (u : DUrl) : DFMRootFileInfo :=
  mkDFMRootFileInfo u true false "U1" "OldLabel"
    "/org/freedesktop/UDisks2/block_devices/sdb1".

Definition mountedBlock : DBlockDevice :=
  mkDBlockDevice false false false true true false false "/" "/" 1048576
    "/org/freedesktop/UDisks2/drives/d0" "/dev/sdb1" "U1" ["/media/user/disk"].

Definition busyWorld : World :=
  mkWorld quietEnv false false false [] false [] []
    (fun _ => mountedBlock) (fun _ => fixedDrive) (fun _ => None)
    [] [] (fun _ => false) [] false (fun _ => true) labelInfo
    (fun _ => DBusFailure "org.freedesktop.UDisks2.Error.DeviceBusy")
    (fun _ _ => NoError).

Definition renameToNew : DFMRenameEvent :=
  mkDFMRenameEvent sdb1Url (mkQUrl "" None "NewLabel" None None).

(** The same device where its entry does not pass the [canRename] test and
    the driver would unmount. *)
Definition fixedInfo (u : DUrl) : DFMRootFileInfo :=
  mkDFMRootFileInfo u false false "U1" "OldLabel"
    "/org/freedesktop/UDisks2/block_devices/sdb1".

Definition fixedWorld : World :=
  mkWorld quietEnv false false false [] false [] []
    (fun _ => mountedBlock) (fun _ => fixedDrive) (fun _ => None)
    [] [] (fun _ => false) [] false (fun _ => true) fixedInfo
    (fun _ => NoError) (fun _ _ => NoError).

(** An alias store that holds one record, for the disk with uuid U1, an
    entry for that disk that is renameable and alias-capable, and two rename
    requests for it. *)
Definition aliasInfo (u : DUrl) : DFMRootFileInfo :=
  mkDFMRootFileInfo u true true "U1" "Data"
    "/org/freedesktop/UDisks2/block_devices/sdb1".

(** The same entry when it does not pass the [canRename] test. *)
Definition lockedInfo (u : DUrl) : DFMRootFileInfo :=
  mkDFMRootFileInfo u false true "U1" "Data"
    "/org/freedesktop/UDisks2/block_devices/sdb1".

Definition oldRecord : QVariantMap :=
  <["alias" := "Films"]> (<["name" := "Data"]> (<["uuid" := "U1"]> ∅)).

Definition aliasWorld : World :=
  mkWorld quietEnv false false false [oldRecord] false [] []
    (fun _ => mountedBlock) (fun _ => fixedDrive) (fun _ => None)
    [] [] (fun _ => false) [] false (fun _ => true) aliasInfo
    (fun _ => NoError) (fun _ _ => NoError).

Definition renameToBlank : DFMRenameEvent :=
  mkDFMRenameEvent sdb1Url (mkQUrl "" None " " None None).

Definition renameToMusic : DFMRenameEvent :=
  mkDFMRenameEvent sdb1Url (mkQUrl "" None " Music " None None).

(** The ideographic space U+3000 and the no-break space U+00A0, in UTF-8. *)
Definition ideographicSpace : string :=
  String (ascii_of_nat 227) (String (ascii_of_nat 128)
    (String (ascii_of_nat 128) EmptyString)).

Definition noBreakSpace : string :=
  String (ascii_of_nat 194) (String (ascii_of_nat 160) EmptyString).


(** A world with one SMB share that is mounted and also stashed, offline
    connections always shown, and none of the user directories present. *)
Definition sharePath : string :=
  "/run/user/1000/gvfs/smb-share:server=nas,share=films".

Definition shareMount : DGioMount :=
  mkDGioMount None "GDaemonMount"
    (Some (mkDGioFile "smb://nas/films/" sharePath)).

Definition shareRecord : QVariantMap :=
  <["key" := sharePath]>
    (<["protocol" := "smb"]> (<["host" := "nas"]> (<["share" := "films"]> ∅))).

Definition shareWorld : World :=
  mkWorld quietEnv false false true [] false [] []
    (fun _ => plainBlock) (fun _ => fixedDrive) (fun _ => None)
    [] [shareMount] (fun _ => false) [shareRecord] false
    (fun e => match e with UserDirEntry _ => false | _ => true end) plainInfo
    (fun _ => NoError) (fun _ _ => NoError).

(** The same world when the entry built for the mount does not exist. *)
Definition staleShareWorld : World :=
  mkWorld quietEnv false false true [] false [] []
    (fun _ => plainBlock) (fun _ => fixedDrive) (fun _ => None)
    [] [shareMount] (fun _ => false) [shareRecord] false
    (fun _ => false) plainInfo
    (fun _ => NoError) (fun _ _ => NoError).

(** ** Further code of durl.cpp *)

(** [DUrl::isTrashFile] and its four siblings. *)
Definition isTrashFile (u : DUrl) : bool := String.eqb (scheme u) TRASH_SCHEME.
Definition isRecentFile (u : DUrl) : bool := String.eqb (scheme u) RECENT_SCHEME.
Definition isBookMarkFile (u : DUrl) : bool := String.eqb (scheme u) BOOKMARK_SCHEME.
Definition isSearchFile (u : DUrl) : bool := String.eqb (scheme u) SEARCH_SCHEME.
Definition isComputerFile (u : DUrl) : bool := String.eqb (scheme u) COMPUTER_SCHEME.

(** [DUrl::fromTrashFile] and its siblings ([fromComputerFile] is above):
    the scheme is set without normalising, then the path is set and
    normalised. *)
Definition fromTrashFile (env : QtEnv) (filePath : string) : DUrl :=
  DUrl_setPath env (QUrl_setScheme QUrl_empty TRASH_SCHEME) filePath.

Definition fromRecentFile (env : QtEnv) (filePath : string) : DUrl :=
  DUrl_setPath env (QUrl_setScheme QUrl_empty RECENT_SCHEME) filePath.

Definition fromBookMarkFile (env : QtEnv) (filePath : string) : DUrl :=
  DUrl_setPath env (QUrl_setScheme QUrl_empty BOOKMARK_SCHEME) filePath.

Definition fromSearchFile (env : QtEnv) (filePath : string) : DUrl :=
  DUrl_setPath env (QUrl_setScheme QUrl_empty SEARCH_SCHEME) filePath.


(** ** Further code of dfmrootcontroller.cpp *)

(** The body of the loop of [systemDiskList]. *)
Definition systemDiskStep (w : World) (tempList : list string) (blks : string)
    : list string :=
  let blk := createBlockDevice w blks in
  let drv := createDiskDevice w (drive blk) in
  if ignoreBlkDevice w blks blk drv then tempList
  else if hintSystem blk then tempList ++ [idUUID blk] else tempList.

(** [DFMRootController::systemDiskList]. *)
Definition systemDiskList (w : World) : list string :=
  fold_left (systemDiskStep w) (blockDevices w) [].

(** The system disks among [devices], as [systemDiskList] collects them. *)
Definition systemDisksOf (w : World) (devices : list string) : list string :=
  map (fun blks => idUUID (createBlockDevice w blks))
    (List.filter
       (fun blks =>
          let blk := createBlockDevice w blks in
          negb (ignoreBlkDevice w blks blk (createDiskDevice w (drive blk))) &&
          hintSystem blk)
       devices).

(** [diskPolicyList.isEmpty()]. *)
Definition isEmptyList (l : list string) : bool :=
  match l with [] => true | _ => false end.

(** The list that a call hands to [setValue(DISKALIAS_GROUP,
    DISKALIAS_ITEMS, list)], if it does so. *)
Fixpoint writtenDiskAlias (log : list Effect) : option (list QVariantMap) :=
  match log with
  | [] => None
  | WriteDiskAlias items :: _ => Some items
  | _ :: log => writtenDiskAlias log
  end.

(** The test of the loop of [setLocalDiskAlias]:
    [map.value(DISKALIAS_ITEM_UUID).toString() == uuid]. *)
Definition hasUuid (M : Macros) (uuid : string) (m : QVariantMap) : bool :=
  String.eqb (value m (macro_DISKALIAS_ITEM_UUID M)) uuid.

(** *** DFMRootController::loadDiskInfo and reloadBlkName *)

(** A JSON value as [QJsonValue] has it; an object maps its keys to
    values. *)
#[warnings="-register-all"]
Inductive QJsonValue : Type :=
| JNull
| JBool (b : bool)
| JNumber (text : string)
| JString (s : string)
| JArray (jsonArray : list QJsonValue)
| JObject (jsonObject : gmap string QJsonValue).

(** [DiskInfoStr]: the fields [uuid], [driver] and [label]. *)
Record DiskInfoStr : Type := mkDiskInfoStr {
  disk_uuid : string;
  disk_driver : string;
  disk_label : string
}.

(** [DFMRootFileInfo::DiskInfoMap]. *)
Abbreviation DiskInfoMap := (gmap string DiskInfoStr).

(** [jsonObject.value(key).toString()]: the text of a string value, the
    empty string for any other value and for a missing key. *)
Definition jsonString (jsonObject : gmap string QJsonValue) (key : string)
    : string :=
  match jsonObject !! key with
  | Some (JString s) => s
  | _ => ""
  end.

Definition jsonContains (jsonObject : gmap string QJsonValue) (key : string)
    : bool :=
  match jsonObject !! key with Some _ => true | None => false end.

(** The [DiskInfoStr] filled from one element of the array. *)
Definition diskInfoOf (jsonObjectInfo : gmap string QJsonValue) : DiskInfoStr :=
  mkDiskInfoStr
    (if jsonContains jsonObjectInfo "uuid"
     then jsonString jsonObjectInfo "uuid" else "")
    (if jsonContains jsonObjectInfo "drive"
     then jsonString jsonObjectInfo "drive" else "")
    (if jsonContains jsonObjectInfo "label"
     then jsonString jsonObjectInfo "label" else "").

(** The body of the loop over the array. *)
Definition loadDiskInfoStep (map : DiskInfoMap) (item : QJsonValue) : DiskInfoMap :=
  match item with
  | JObject jsonObjectInfo =>
      let str := diskInfoOf jsonObjectInfo in
      <[disk_uuid str := str]> map
  | _ => map
  end.

(** What the two functions ask of the file system: the document read from
    a file ([None] when the file cannot be opened, or its content is not a
    JSON document), whether a directory exists, and its absolute path. *)
Record FileSystem : Type := mkFileSystem {
  readJson : string -> option QJsonValue;
  dirExists : string -> bool;
  dirAbsolutePath : string -> string
}.

(** [loadDiskInfo(jsonPath)], on the [DiskInfoMap] it updates. *)
Definition loadDiskInfo (fs : FileSystem) (jsonPath : string)
    (map : DiskInfoMap) : DiskInfoMap :=
  if isEmpty jsonPath then map
  else
    match readJson fs (jsonPath +:+ "/diskinfo.json") with
    | Some (JObject jsonObject) =>
        match jsonObject !! "DISKINFO" with
        | Some (JArray jsonArray) => fold_left loadDiskInfoStep jsonArray map
        | _ => map
        end
    | _ => map
    end.

(** [QString::lastIndexOf] for one character: its last position, counted
    in UTF-16 code units as [size] is; -1 when there is none. *)
Fixpoint lastIndexOf (c : ascii) (s : string) : Z :=
  match s with
  | EmptyString => -1
  | String x s' =>
      let r := lastIndexOf c s' in
      if r =? -1 then (if Ascii.eqb x c then 0 else -1) else r + utf16Units x
  end.

(** [reloadBlkName(blkPath, blk)], on the [DiskInfoMap]. *)
Definition reloadBlkName (fs : FileSystem) (blk : DBlockDevice)
    (map : DiskInfoMap) : DiskInfoMap :=
  match mountPoints blk with
  | [] => map
  | front :: _ =>
      let mpPath :=
        if negb (lastIndexOf "/" front =? size front - 1)
        then front +:+ "/" else front in
      if dirExists fs (mpPath +:+ "UOSICON")
      then loadDiskInfo fs (dirAbsolutePath fs (mpPath +:+ "UOSICON")) map
      else map
  end.

(** The record that the loop leaves for a uuid: that of the last element
    of the array that is an object with this uuid. *)
Fixpoint lastRecord (uuid : string) (jsonArray : list QJsonValue)
    : option DiskInfoStr :=
  match jsonArray with
  | [] => None
  | item :: rest =>
      match lastRecord uuid rest with
      | Some str => Some str
      | None =>
          match item with
          | JObject jsonObjectInfo =>
              if String.eqb (disk_uuid (diskInfoOf jsonObjectInfo)) uuid
              then Some (diskInfoOf jsonObjectInfo) else None
          | _ => None
          end
      end
  end.

(** *** The slots of the block-device signals

    The lambdas that [start] connects to [DDiskManager::blockDeviceAdded]
    and [DDiskManager::blockDeviceRemoved]. *)

(** The text of the address of a block device:
    [DFMROOT_ROOT + name + "." SUFFIX_UDISKS]. *)
Definition udisksAddress (M : Macros) (name : string) : string :=
  macro_DFMROOT_ROOT M +:+ name +:+ "." +:+ macro_SUFFIX_UDISKS M.

(** The slot of [blockDeviceAdded]: the session afterwards and the
    effects. *)
Definition onBlockDeviceAdded (M : Macros) (w : World)
    (d : DFMRootFileWatcherPrivate) (blks : string)
    : DFMRootFileWatcherPrivate * list Effect :=
  let blk := createBlockDevice w blks in
  let drv := createDiskDevice w (drive blk) in
  if ignoreBlkDevice w blks blk drv then (d, [InspectBlockDevice blks])
  else
    let '(d', log) :=
      initBlockDevConnections M w (d, [InspectBlockDevice blks]) blk blks in
    (d',
     log ++
     [Emit subfileCreated
        (DUrl_ofString (qt w)
           (udisksAddress M (mid blks (String.length udisksPrefix))))]).

(** The slot of [blockDeviceRemoved]. *)
Definition onBlockDeviceRemoved (M : Macros) (w : World) (blks : string)
    : list Effect :=
  [Emit fileDeleted
     (DUrl_ofString (qt w)
        (udisksAddress M (mid blks (String.length udisksPrefix))))].

(** The connections made and undone in a log. *)
Definition connectsOf (log : list Effect) : list Connection :=
  flat_map (fun e => match e with Connect c => [c] | _ => [] end) log.

Definition disconnectsOf (log : list Effect) : list Connection :=
  flat_map (fun e => match e with Disconnect c => [c] | _ => [] end) log.

(** The text under which [initBlockDevConnections] remembers the
    connections of a device in [connectionsurl]. *)
Definition watchKey (M : Macros) (w : World) (devs : string) : string :=
  let urlstr := udisksAddress M (mid devs (String.length udisksPrefix)) in
  if isEncrypted (createBlockDevice w devs) then urlstr +:+ "_en" else urlstr.

(** The devices that [start] and the slot of [blockDeviceAdded] connect. *)
Definition watchedDevice (w : World) (devs : string) : bool :=
  let blk := createBlockDevice w devs in
  negb (ignoreBlkDevice w devs blk (createDiskDevice w (drive blk))).

(** *** The slots of the mount signals

    The lambdas that [start] connects to [DGioVolumeManager::mountAdded]
    and [mountRemoved]. *)

(** [QString::split(sep)] for a separator of one character; empty parts
    are kept. *)
Fixpoint split (sep : ascii) (s : string) : list string :=
  match s with
  | EmptyString => [EmptyString]
  | String c s' =>
      if Ascii.eqb c sep then EmptyString :: split sep s'
      else
        match split sep s' with
        | part :: parts => String c part :: parts
        | [] => [String c EmptyString]
        end
  end.

(** [QStringList::at]. *)
Definition at_ (l : list string) (i : nat) : string := nth i l "".

(** [QString::left(n)]. *)
Fixpoint left (s : string) (n : nat) : string :=
  match n, s with
  | S n', String c s' => String c (left s' n')
  | _, _ => EmptyString
  end.

(** What the two slots ask beside the collaborators of the controller:
    [FileUtils::isSmbPath], [QString::number(getuid())], the device
    listener's [isBatchedRemovingSmbMount()] and, as a function of the URI
    of the mount, its [getCountOfMountedSmb(DUrl(uri).host())], and the
    keys of [NetworkManager::NetworkNodes]. *)
Record SlotEnv : Type := mkSlotEnv {
  isSmbPath : string -> bool;
  uid : string;
  isBatchedRemovingSmbMount : bool;
  getCountOfMountedSmb : string -> Z;
  networkNodesKeys : list DUrl
}.

(** What a slot does: an effect of the kinds the controller has, a signal
    of the file signal manager, a property set on the watcher, the flag of
    the device listener, the network-node cache, and [mnt->unmount()]. *)
Inductive SlotEffect : Type :=
| Controller (e : Effect)
| requestFreshAllFileView
| requestFreshAllDesktop
| requestShowNewWindows
| requestRemoveRecentFile (path : string)
| SetIsBathUnmuntSmb (v : bool)
| SetRemainUnmuntSmb (v : Z)
| SetBatchedRemovingSmbMount (v : bool)
| RemoveNetworkNode (key : DUrl)
| UnmountAgain.

(** The address both slots and [getChildren] build for a mount:
    [url.setScheme(DFMROOT_SCHEME)], then [url.setPath] with the key. *)
Definition gvfsUrl (M : Macros) (w : World) (rootPath : string) : DUrl :=
  DUrl_setPath (qt w)
    (DUrl_setScheme (qt w) QUrl_empty (macro_DFMROOT_SCHEME M))
    (gvfsKey M rootPath).

Definition isUDisks2Volume (mnt : DGioMount) : bool :=
  match getVolume mnt with
  | Some name => endsWith name "UDisks2"
  | None => false
  end.

(** The slot of [mountAdded]; [None] when it reads the URI of a null root
    file. *)
Definition onMountAdded (M : Macros) (w : World) (env : SlotEnv)
    (mnt : DGioMount) : option (list SlotEffect) :=
  if isUDisks2Volume mnt then Some []
  else
    match getRootFile mnt with
    | None => None
    | Some rootFile =>
        if String.eqb (scheme (DUrl_ofString (qt w) (uri rootFile)))
             (macro_BURN_SCHEME M)
        then Some []
        else if String.eqb (mountClass mnt) "GUnixMount" then Some []
        else if (String.length (gio_path rootFile) =? 0)%nat then Some []
        else
          let fromMedia := startsWith (uri rootFile) "file:///media/" in
          let log :=
            if fromMedia
            then [Controller (QueryNativeBlockDev (gio_path rootFile))]
            else [] in
          if fromMedia && isFromNativeBlockDev w (gio_path rootFile)
          then Some log
          else
            let mountPointPath := gio_path rootFile in
            Some (log ++
                  [Controller
                     (Emit subfileCreated (gvfsUrl M w (gio_path rootFile)))] ++
                  (if isSmbPath env mountPointPath
                   then [requestFreshAllFileView; requestFreshAllDesktop;
                         requestShowNewWindows]
                   else []))
    end.

(** The path that the slot of [mountRemoved] puts together from the URI
    when the root file has none. *)
Definition reconstructedPath (env : SlotEnv) (uri : string) : string :=
  let qq := split ":" (remove uri "/") in
  if (3 <=? length qq)%nat then
    "/run/user/" +:+ uid env +:+ "/gvfs/" +:+ at_ qq 0 +:+
    (":host=" +:+ at_ qq 1 +:+ ",port=" +:+ at_ qq 2)
  else if (length qq =? 2)%nat then
    if startsWith (at_ qq 0) "smb" then
      let smblist := split "/" (remove uri ":/") in
      if (3 <=? length smblist)%nat then
        "/run/user/" +:+ uid env +:+ "/gvfs/" +:+ at_ smblist 0 +:+
        ("-share:server=" +:+ at_ smblist 1 +:+ ",share=" +:+ at_ smblist 2)
      else ""
    else
      "/run/user/" +:+ uid env +:+ "/gvfs/" +:+ at_ qq 0 +:+
      (":host=" +:+ at_ qq 1)
  else "".

(** The end of the slot of [mountRemoved]: the cache of network nodes. *)
Definition forgetNetworkNodes (w : World) (env : SlotEnv) (uri : string)
    : list SlotEffect :=
  if contains uri "smb-share://" || contains uri "smb://" ||
     contains uri "ftp://" || contains uri "sftp://"
  then
    let smbUri := fromPercentEncoding uri in
    let smbUri :=
      if endsWith smbUri "/" then left smbUri (String.length smbUri - 1)
      else smbUri in
    let smbUrl := DUrl_ofString (qt w) smbUri in
    map RemoveNetworkNode
      (List.filter
         (fun networkNodesKey =>
            startsWith (toLower (DUrl_toString networkNodesKey))
              (toLower (DUrl_toString smbUrl)))
         (networkNodesKeys env)) ++
    [RemoveNetworkNode smbUrl;
     RemoveNetworkNode (DUrl_setPath (qt w) smbUrl "");
     UnmountAgain]
  else [].

(** The slot of [mountRemoved]; [None] when it reads the path of a null
    root file. *)
Definition onMountRemoved (M : Macros) (w : World) (env : SlotEnv)
    (mnt : DGioMount) : option (list SlotEffect) :=
  if isUDisks2Volume mnt then Some []
  else
    match getRootFile mnt with
    | None => None
    | Some rootFile =>
        let path :=
          if isEmpty (gio_path rootFile)
          then reconstructedPath env (uri rootFile)
          else gio_path rootFile in
        let url := gvfsUrl M w path in
        let uri := uri rootFile in
        Some ((Controller QueryIntegrationMode ::
               if isIntegrationMode w
               then [SetIsBathUnmuntSmb (isBatchedRemovingSmbMount env);
                     SetRemainUnmuntSmb (getCountOfMountedSmb env uri)]
               else []) ++
              [Controller (Emit fileDeleted url);
               requestRemoveRecentFile path] ++
              (if isSmbPath env path then
                 let remainCountOfSmbMount := getCountOfMountedSmb env uri in
                 if negb (isBatchedRemovingSmbMount env &&
                          (remainCountOfSmbMount >? 0))
                 then [SetBatchedRemovingSmbMount false;
                       requestFreshAllFileView; requestFreshAllDesktop]
                 else []
               else []) ++
              forgetNetworkNodes w env uri)
    end.

(** The string holds none of the characters of [cs]. *)
Definition lacks (cs : string) (s : string) : bool :=
  forallb (fun c => negb (isOneOf cs c)) (list_ascii_of_string s).

(** ** Enumeration, declaratively *)

(** A system disk that the policy layer hides: by the managed list when the
    group policy holds one, by the boolean switch otherwise. *)
Definition hiddenSystemDisk (M : Macros) (w : World) (blk : DBlockDevice) : bool :=
  hintSystem blk &&
  (if macro_DTK_POLICY_SUPPORT M && policy_containKey_DISK_HIDDEN w
   then list_contains (policy_getValue_DISK_HIDDEN w) (idUUID blk)
   else GA_HiddenSystemPartition w).

(** The block devices that get an entry. *)
Definition listedDevice (M : Macros) (w : World) (blks : string) : bool :=
  let blk := createBlockDevice w blks in
  negb (ignoreBlkDevice w blks blk (createDiskDevice w (drive blk))) &&
  negb (hiddenSystemDisk M w blk).

(** The entry of a block device. *)
Definition diskEntry (w : World) (blks : string) : RootEntry :=
  UDisksEntry (mid (device (createBlockDevice w blks)) 5).

(** The key is the key of a mount that the loop over the mounts does not
    skip. *)
Definition mountedKey (M : Macros) (w : World) (key : string) : bool :=
  existsb (fun gvfsmp =>
             match listedMount M w gvfsmp with
             | Some rootPath => String.eqb (gvfsKey M rootPath) key
             | None => false
             end) (getMounts w).

(** The stashed records that get an entry, given the keys of the mounts. *)
Definition shownStashed (M : Macros) (w : World) (keys : list string)
    (mount : QVariantMap) : bool :=
  map_contains mount (macro_REMOTE_KEY M) &&
  negb (list_contains keys (stashedKey M mount)) &&
  map_contains mount (macro_REMOTE_PROTOCOL M) &&
  map_contains mount (macro_REMOTE_HOST M) &&
  negb (isEmpty (value mount (macro_REMOTE_PROTOCOL M))) &&
  negb (isEmpty (value mount (macro_REMOTE_HOST M))) &&
  negb (isIntegrationMode w).

(** The kinds of entries. *)
Definition isUserDirEntry (e : RootEntry) : bool :=
  match e with UserDirEntry _ => true | _ => false end.

Definition isUDisksEntry (e : RootEntry) : bool :=
  match e with UDisksEntry _ => true | _ => false end.

Definition isGvfsMountEntry (e : RootEntry) : bool :=
  match e with GvfsMountEntry _ => true | _ => false end.

Definition isStashedRemoteEntry (e : RootEntry) : bool :=
  match e with StashedRemoteEntry _ => true | _ => false end.

(** The effects that only read: queries of the backends and of the
    settings, and the inspection of a device. *)
Definition isQuery (e : Effect) : bool :=
  match e with
  | QueryExists _ | QueryGroupPolicy | QueryBlockDevices
  | InspectBlockDevice _ | ReloadBlkName _ | ReadAttribute _ | QueryVolumes
  | QueryMounts | QueryNativeBlockDev _ | QueryRemoteMounts
  | QueryIntegrationMode | ReadDiskAlias => true
  | _ => false
  end.

(** The volumes that the loop of [getChildren] over the volumes mounts. *)
Definition autoMounted (gvfsvol : DGioVolume) : bool :=
  isAutoMountMonitor (volumeMonitorName gvfsvol) && negb (getMount gvfsvol).

Definition isMountVolume (e : Effect) : bool :=
  match e with MountVolume _ => true | _ => false end.

(** The calls that act on a block device. *)
Definition isDeviceCall (e : Effect) : bool :=
  match e with Unmount _ | SetLabel _ _ => true | _ => false end.

(** The effects that write to the settings store. *)
Definition isSettingsWrite (e : Effect) : bool :=
  match e with
  | WriteAttribute _ _ | WriteDiskAlias _ => true
  | _ => false
  end.

(** The live entries and the keys that belong to the mounts processed so
    far: one entry for each root path of a mount that is not skipped and
    whose entry exists, and the key of every mount that is not skipped. *)
Definition liveEntriesOf (M : Macros) (w : World) (processed : list DGioMount)
    (added : list RootEntry) : Prop :=
  List.NoDup added /\
  forall e : RootEntry,
    In e added <->
    exists rootPath : string,
      e = GvfsMountEntry rootPath /\
      exists_ w (GvfsMountEntry rootPath) = true /\
      exists gvfsmp : DGioMount,
        In gvfsmp processed /\ listedMount M w gvfsmp = Some rootPath.

Definition liveKeysOf (M : Macros) (w : World) (processed : list DGioMount)
    (keys : list string) : Prop :=
  forall key : string,
    list_contains keys key = true <->
    exists (gvfsmp : DGioMount) (rootPath : string),
      In gvfsmp processed /\ listedMount M w gvfsmp = Some rootPath /\
      gvfsKey M rootPath = key.

(** The stashed records that get an entry: with a key that is not the key
    of a mount, with protocol and host, outside the aggregation mode. *)
Definition offlineShown (M : Macros) (w : World) (mount : QVariantMap) : bool :=
  map_contains mount (macro_REMOTE_KEY M) &&
  negb (mountedKey M w (stashedKey M mount)) &&
  map_contains mount (macro_REMOTE_PROTOCOL M) &&
  map_contains mount (macro_REMOTE_HOST M) &&
  negb (isEmpty (value mount (macro_REMOTE_PROTOCOL M))) &&
  negb (isEmpty (value mount (macro_REMOTE_HOST M))) &&
  negb (isIntegrationMode w).

(** The four groups of an enumeration. *)
Definition userDirEntries (w : World) : list RootEntry :=
  List.filter (exists_ w) (map UserDirEntry udir).

Definition diskEntries (M : Macros) (w : World) : list RootEntry :=
  map (diskEntry w) (List.filter (listedDevice M w) (blockDevices w)).

Definition offlineEntries (M : Macros) (w : World) : list RootEntry :=
  map StashedRemoteEntry (List.filter (offlineShown M w) (remoteMounts w)).

(** ** Further example inputs *)

(** Alias stores with a record for a second disk: beside the record of the
    disk U1, beside that record with the alias Music, and alone. *)
Definition otherRecord : QVariantMap :=
  <["alias" := "Backup"]> (<["name" := "Disk"]> (<["uuid" := "U2"]> ∅)).

Definition musicRecord : QVariantMap :=
  <["alias" := "Music"]> (<["name" := "Data"]> (<["uuid" := "U1"]> ∅)).

Definition twoAliasWorld : World :=
  mkWorld quietEnv false false false [otherRecord; oldRecord] false [] []
    (fun _ => mountedBlock) (fun _ => fixedDrive) (fun _ => None)
    [] [] (fun _ => false) [] false (fun _ => true) aliasInfo
    (fun _ => NoError) (fun _ _ => NoError).

Definition musicAliasWorld : World :=
  mkWorld quietEnv false false false [otherRecord; musicRecord] false [] []
    (fun _ => mountedBlock) (fun _ => fixedDrive) (fun _ => None)
    [] [] (fun _ => false) [] false (fun _ => true) aliasInfo
    (fun _ => NoError) (fun _ _ => NoError).

Definition otherAliasWorld : World :=
  mkWorld quietEnv false false false [otherRecord] false [] []
    (fun _ => mountedBlock) (fun _ => fixedDrive) (fun _ => None)
    [] [] (fun _ => false) [] false (fun _ => true) aliasInfo
    (fun _ => NoError) (fun _ _ => NoError).


(** A desk with two of the user directories, a system disk on the managed
    list, a data disk, a loop device with an ignore hint, the SMB share
    mounted twice and stashed, and a stashed FTP site that is not mounted. *)
Definition systemBlock : DBlockDevice :=
  mkDBlockDevice false true false true true false false "/" "/" 1048576
    "/org/freedesktop/UDisks2/drives/d0" "/dev/sda1" "SYS" ["/"].

Definition ignoredLoop : DBlockDevice :=
  mkDBlockDevice true false false false true true false "/" "/" 1048576
    "/" "/dev/loop0" "L0" [].

Definition deskDevice (blks : string) : DBlockDevice :=
  if String.eqb blks "/org/freedesktop/UDisks2/block_devices/sda1" then systemBlock
  else if String.eqb blks "/org/freedesktop/UDisks2/block_devices/loop0"
  then ignoredLoop
  else mountedBlock.

Definition ftpRecord : QVariantMap :=
  <["key" := "/run/user/1000/gvfs/ftp:host=ftp.example.org"]>
    (<["protocol" := "ftp"]> (<["host" := "ftp.example.org"]> ∅)).

Definition deskWorld : World :=
  mkWorld quietEnv false false true [] true ["SYS"]
    ["/org/freedesktop/UDisks2/block_devices/sda1";
     "/org/freedesktop/UDisks2/block_devices/sdb1";
     "/org/freedesktop/UDisks2/block_devices/loop0"]
    deskDevice (fun _ => fixedDrive) (fun _ => None)
    [] [shareMount; shareMount] (fun _ => false) [shareRecord; ftpRecord] false
    (fun e => match e with
              | UserDirEntry d => String.eqb d "desktop" || String.eqb d "music"
              | _ => true
              end)
    plainInfo (fun _ => NoError) (fun _ _ => NoError).

Definition rootRequest : DFMGetChildrensEvent := mkDFMGetChildrensEvent rootUrl false.

(** What the slots ask, for the user 1000 with no SMB mount left and an
    empty cache of network nodes. *)
Definition deskSlots : SlotEnv :=
  mkSlotEnv (fun p => contains p "smb-share:") "1000" false (fun _ => 0) [].

(** A disk-info file with two records for one uuid, a record without
    uuid and an element that is not an object. *)
Definition diskInfoDocument : QJsonValue :=
  JObject
    (<["DISKINFO" :=
        JArray
          [JObject (<["uuid" := JString "U1"]> (<["label" := JString "old"]> ∅));
           JString "noise";
           JObject (<["label" := JString "anonymous"]> ∅);
           JObject (<["uuid" := JString "U1"]>
                      (<["drive" := JString "sdb"]>
                         (<["label" := JString "new"]> ∅)))]]> ∅).

Definition diskInfoFiles : FileSystem :=
  mkFileSystem
    (fun file =>
       if String.eqb file "/media/usb/UOSICON/diskinfo.json"
       then Some diskInfoDocument else None)
    (fun dir => String.eqb dir "/media/usb/UOSICON")
    (fun dir => dir).

Definition knownDisks : DiskInfoMap :=
  <["U9" := mkDiskInfoStr "U9" "sdz" "kept"]> ∅.

Definition usbBlock : DBlockDevice :=
  mkDBlockDevice false false false true true false false "/" "/" 1048576
    "/org/freedesktop/UDisks2/drives/d1" "/dev/sdc1" "U1" ["/media/usb"].

Definition usbBlockSlash : DBlockDevice :=
  mkDBlockDevice false false false true true false false "/" "/" 1048576
    "/org/freedesktop/UDisks2/drives/d1" "/dev/sdc1" "U1" ["/media/usb/"].

(** The object path of a loop device. *)
Definition loop5Path : string := "/org/freedesktop/UDisks2/block_devices/loop5".

(** * Properties *)

(** Case analysis on every condition of an [if] in the goal. *)
Ltac break_if :=
  repeat match goal with
         | |- context [if ?c then _ else _] => destruct c
         end.

(** ** Visibility policy *)

(** C1.  The visibility decision of [ignoreBlkDevice] is the first-match
    evaluation of rules 1 to 6 over the device snapshot (with the type of
    the partition it carries), the drive snapshot and the "hide loop
    partitions" switch: ignore hint, optical drive, encrypted shell, extended
    partition type, then for a device with a file system loop device
    (negation of the switch), cleartext counterpart, any other; then for a
    device without one partition table, non-removable drive, size below the
    threshold, any other.  The return statement taken is the one of the
    first rule that applies, and the decision depends on the world through
    the switch and the partition type only. *)
Theorem ignoreBlkDevice_first_match :
  forall (w : World) (blkPath : string) (blk : DBlockDevice) (drv : DDiskDevice),
    let rules :=
      visibilityRules (GA_HideLoopPartitions w) (createBlockPartition w blkPath)
        blk drv in
    negb (ignoreBlkDevice w blkPath blk drv) =
      visible (GA_HideLoopPartitions w) (createBlockPartition w blkPath) blk drv
    /\ exitRule (ignoreBlkDevice_exit w blkPath blk drv) (hasFileSystem blk) =
       firstMatchIndex rules
    /\ forall (w' : World) (blkPath' : string),
         GA_HideLoopPartitions w' = GA_HideLoopPartitions w ->
         createBlockPartition w' blkPath' = createBlockPartition w blkPath ->
         ignoreBlkDevice w' blkPath' blk drv = ignoreBlkDevice w blkPath blk drv.
Proof.
  intros w blkPath blk drv rules.
  assert (Heq : forall w0 p0,
             negb (ignoreBlkDevice w0 p0 blk drv) =
               visible (GA_HideLoopPartitions w0) (createBlockPartition w0 p0)
                 blk drv /\
             exitRule (ignoreBlkDevice_exit w0 p0 blk drv) (hasFileSystem blk) =
               firstMatchIndex
                 (visibilityRules (GA_HideLoopPartitions w0)
                    (createBlockPartition w0 p0) blk drv)).
  { intros w0 p0.
    unfold ignoreBlkDevice, ignoreBlkDevice_exit, hiddenPartitionType, visible,
      visibilityRules, carriesExtendedPartition, optical, isCleartextCounterpart.
    destruct (hintIgnore blk); [split; reflexivity|].
    destruct (contains _ "optical"); [split; reflexivity|].
    destruct (isEncrypted blk); [split; reflexivity|].
    destruct (hasPartition blk), (createBlockPartition w0 p0) as [t|];
      try destruct (isExtendedType t);
      cbn [andb firstMatch firstMatchIndex exitValue exitRule negb option_map];
      try (split; reflexivity);
      destruct (hasFileSystem blk), (isLoopDevice blk),
        (1 <? size (cryptoBackingDevice blk)), (GA_HideLoopPartitions w0),
        (hasPartitionTable blk), (removable drv), (blk_size blk <? 1024);
      split; reflexivity. }
  split; [apply Heq|]. split; [apply Heq|].
  intros w' blkPath' Hloop Hpart.
  assert (Hn : negb (ignoreBlkDevice w' blkPath' blk drv) =
               negb (ignoreBlkDevice w blkPath blk drv)).
  { rewrite (proj1 (Heq w' blkPath')), (proj1 (Heq w blkPath)), Hloop, Hpart.
    reflexivity. }
  destruct (ignoreBlkDevice w' blkPath' blk drv),
    (ignoreBlkDevice w blkPath blk drv); simpl in Hn; congruence.
Qed.

Lemma ignoreBlkDevice_first_match_witness :
  negb (ignoreBlkDevice quietWorld "/dev/sdb1" plainBlock fixedDrive) =
    visible false None plainBlock fixedDrive
  /\ ignoreBlkDevice quietWorld "/dev/sdc1" plainBlock fixedDrive =
     ignoreBlkDevice quietWorld "/dev/sdb1" plainBlock fixedDrive.
Proof.
  destruct (ignoreBlkDevice_first_match quietWorld "/dev/sdb1" plainBlock fixedDrive)
    as (H1 & _ & H2).
  split; [exact H1|].
  apply H2; reflexivity.
Defined.

(** C8, as stated, fails: for the 512-byte partition on a non-removable
    drive the device is hidden, but the return statement taken is the one of
    the non-removable drive, or the one of the partition type when the
    partition is an extended one, not the one of the size threshold. *)
Lemma tiny_partition_not_hidden_by_size :
  removable fixedDrive = false /\ hasFileSystem tinyBlock = false /\
  hasPartitionTable tinyBlock = false /\ hintIgnore tinyBlock = false /\
  optical fixedDrive = false /\ isEncrypted tinyBlock = false /\
  blk_size tinyBlock = 512 /\
  ignoreBlkDevice quietWorld "/dev/sda3" tinyBlock fixedDrive = true /\
  ignoreBlkDevice_exit quietWorld "/dev/sda3" tinyBlock fixedDrive = ByUnremovable /\
  ignoreBlkDevice_exit quietWorld "/dev/sda3" tinyBlock fixedDrive <> BySizeBelow1024 /\
  ignoreBlkDevice_exit extendedWorld "/dev/sda3" tinyBlock fixedDrive =
    ByPartitionType Extended.
Proof. repeat split; try reflexivity. discriminate. Qed.

(** C8, amended.  A block device on a non-removable drive, without file
    system, partition table, ignore hint, optical drive or encryption, of
    512 bytes, is hidden; the rule that decides is the extended-partition
    rule when it carries such a partition and the non-removable-drive rule
    otherwise, never the size threshold. *)
Theorem tiny_partition_hidden_as_unremovable :
  forall (w : World) (blkPath : string) (blk : DBlockDevice) (drv : DDiskDevice),
    removable drv = false ->
    hasFileSystem blk = false ->
    hasPartitionTable blk = false ->
    hintIgnore blk = false ->
    optical drv = false ->
    isEncrypted blk = false ->
    blk_size blk = 512 ->
    ignoreBlkDevice w blkPath blk drv = true /\
    ignoreBlkDevice_exit w blkPath blk drv =
      match hiddenPartitionType w blkPath blk with
      | Some t => ByPartitionType t
      | None => ByUnremovable
      end /\
    ignoreBlkDevice_exit w blkPath blk drv <> BySizeBelow1024.
Proof.
  intros w blkPath blk drv Hrem Hfs Hpt Hign Hopt Henc Hsize.
  unfold ignoreBlkDevice, ignoreBlkDevice_exit.
  unfold optical in Hopt. rewrite Hign, Hopt, Henc, Hfs, Hpt, Hrem.
  destruct (hiddenPartitionType w blkPath blk);
    cbn [negb exitValue]; repeat split; discriminate.
Qed.

Lemma tiny_partition_hidden_as_unremovable_witness :
  ignoreBlkDevice quietWorld "/dev/sda3" tinyBlock fixedDrive = true /\
  ignoreBlkDevice_exit quietWorld "/dev/sda3" tinyBlock fixedDrive = ByUnremovable.
Proof.
  destruct (tiny_partition_hidden_as_unremovable quietWorld "/dev/sda3"
              tinyBlock fixedDrive) as (H1 & H2 & _);
    try reflexivity.
  split; [exact H1 | exact H2].
Defined.

(** ** Ghost signals *)

(** C4.  For a path that begins with /dev/loop a deleted signal emits
    [fileDeleted] for the address built from the device name and succeeds,
    a created signal succeeds and emits nothing, any other signal is
    rejected without an event; a path that does not begin with /dev/loop is
    rejected without an event whatever the signal.  With the upstream macros
    /dev/loop5 gives the address dfmroot:///loop5.localdisk and /dev/sda1 is
    rejected. *)
Theorem handleGhostSignal_loop_device :
  forall (M : Macros) (w : World) (target url : DUrl),
    (startsWith (path url) "/dev/loop" = true ->
       handleGhostSignal M w target fileDeleted url =
         (true,
          [Emit fileDeleted
             (DUrl_ofString (qt w)
                (macro_DFMROOT_ROOT M +:+ mid (path url) 5 +:+ "." +:+
                 macro_SUFFIX_UDISKS M))]) /\
       handleGhostSignal M w target subfileCreated url = (true, []) /\
       forall signal : SignalType1,
         signal <> fileDeleted -> signal <> subfileCreated ->
         handleGhostSignal M w target signal url = (false, [])) /\
    (startsWith (path url) "/dev/loop" = false ->
       forall signal : SignalType1,
         handleGhostSignal M w target signal url = (false, [])) /\
    handleGhostSignal upstream quietWorld target fileDeleted loop5 =
      (true,
       [Emit fileDeleted (mkQUrl "dfmroot" (Some "") "/loop5.localdisk" None None)]) /\
    handleGhostSignal upstream quietWorld target fileDeleted sda1 = (false, []).
Proof.
  intros M w target url. unfold handleGhostSignal.
  split; [|split; [|split; reflexivity]].
  - intros ->. split; [reflexivity|]. split; [reflexivity|].
    intros [] H1 H2; congruence.
  - intros ->. reflexivity.
Qed.

Lemma handleGhostSignal_loop_device_witness :
  handleGhostSignal upstream quietWorld rootUrl subfileCreated loop5 = (true, []) /\
  handleGhostSignal upstream quietWorld rootUrl fileModified loop5 = (false, []) /\
  handleGhostSignal upstream quietWorld rootUrl subfileCreated sda1 = (false, []).
Proof.
  split; [|split].
  - apply (proj1 (handleGhostSignal_loop_device upstream quietWorld rootUrl loop5)).
    reflexivity.
  - apply (proj1 (handleGhostSignal_loop_device upstream quietWorld rootUrl loop5));
      [reflexivity | discriminate | discriminate].
  - apply (proj1 (proj2
             (handleGhostSignal_loop_device upstream quietWorld rootUrl sda1))).
    reflexivity.
Defined.

(** C9.  The result and the events of [handleGhostSignal] do not depend on
    the target address: two calls with the same signal and path agree
    whatever their targets, and a target that is not the virtual root is
    served like the virtual root (a deleted signal for /dev/loop5 with the
    trash root as target succeeds). *)
Theorem handleGhostSignal_ignores_target :
  forall (M : Macros) (w : World) (target1 target2 : DUrl)
         (signal : SignalType1) (url : DUrl),
    handleGhostSignal M w target1 signal url =
      handleGhostSignal M w target2 signal url
    /\ isVirtualRoot upstream trashUrl = false
    /\ fst (handleGhostSignal upstream quietWorld trashUrl fileDeleted loop5) = true.
Proof. intros. repeat split; reflexivity. Qed.

(** ** Enumeration *)

(** C10.  A request whose address is not exactly the virtual root (its
    scheme is not the root scheme or its path is not "/") gets the empty
    list, and nothing is asked of a backend or written to the settings. *)
Theorem getChildren_not_root :
  forall (M : Macros) (w : World) (event : DFMGetChildrensEvent),
    scheme (url event) <> macro_DFMROOT_SCHEME M \/ path (url event) <> "/" ->
    getChildren M w event = ([], []).
Proof.
  intros M w event H. unfold getChildren.
  destruct (String.eqb_spec (scheme (url event)) (macro_DFMROOT_SCHEME M));
    [|reflexivity].
  destruct (String.eqb_spec (path (url event)) "/"); [|reflexivity].
  destruct H; contradiction.
Qed.

Lemma getChildren_not_root_witness :
  getChildren upstream quietWorld (mkDFMGetChildrensEvent trashUrl false) = ([], []) /\
  getChildren upstream quietWorld
    (mkDFMGetChildrensEvent (mkQUrl "dfmroot" (Some "") "/sda1.localdisk" None None)
       false) = ([], []).
Proof.
  split; apply getChildren_not_root; [left | right]; discriminate.
Defined.

(** ** Rename *)

(** C6, as stated, fails for an entry that does not pass the [canRename]
    test: the device is mounted, the entry is not alias-capable and the new
    name differs from the current one, yet nothing is unmounted and the
    call returns [false] without any backend error. *)
Lemma rename_refused_without_unmount :
  canSetAlias (rootFileInfo fixedWorld (fromUrl renameToNew)) = false /\
  udisksDisplayName (rootFileInfo fixedWorld (fromUrl renameToNew)) <>
    path (toUrl renameToNew) /\
  mountPoints
    (createBlockDevice fixedWorld
       (udisksblk (rootFileInfo fixedWorld (fromUrl renameToNew)))) <> [] /\
  unmountReply fixedWorld
    (udisksblk (rootFileInfo fixedWorld (fromUrl renameToNew))) = NoError /\
  renameFile upstream fixedWorld renameToNew = (false, []).
Proof. repeat split; try discriminate; reflexivity. Qed.

(** C6, amended.  Renaming an entry that is not alias-capable to a name
    other than its current one.  When the entry passes the [canRename]
    test: a device with mount points is unmounted first; an unmount error
    ends the call with [false] before any attempt to set the label; after
    an unmount that succeeded, or when nothing was mounted, the label is
    set, and nothing else is done; the result is [true] exactly when the
    label was set and setting it reported no error.  When the entry does
    not pass the test the call returns [false] and neither unmounts nor
    sets a label. *)
Theorem renameFile_label :
  forall (M : Macros) (w : World) (event : DFMRenameEvent),
    let fi := rootFileInfo w (fromUrl event) in
    let blk := udisksblk fi in
    let destName := path (toUrl event) in
    let mounted := mountPoints (createBlockDevice w blk) in
    let ok := fst (renameFile M w event) in
    let log := snd (renameFile M w event) in
    canSetAlias fi = false ->
    udisksDisplayName fi <> destName ->
    (canRename fi = true ->
       (mounted <> [] -> unmountReply w blk <> NoError ->
          ok = false /\ log = [Unmount blk]) /\
       (mounted <> [] -> unmountReply w blk = NoError ->
          log = [Unmount blk; SetLabel blk destName]) /\
       (mounted = [] -> log = [SetLabel blk destName]) /\
       (ok = true <->
          In (SetLabel blk destName) log /\
          setLabelReply w blk destName = NoError)) /\
    (canRename fi = false -> ok = false /\ log = []).
Proof.
  intros M w event fi blk destName mounted ok log Halias Hname.
  subst ok log. unfold renameFile. fold fi. rewrite Halias.
  fold blk destName.
  destruct (String.eqb_spec (udisksDisplayName fi) destName) as [|_];
    [contradiction|].
  fold mounted.
  destruct (canRename fi); cbn [negb fst snd].
  2: { split; [discriminate | intros _; split; reflexivity]. }
  split; [intros _ | discriminate].
  destruct mounted as [|mp mps].
  - replace (0 <? Z.of_nat (length (@nil string))) with false by reflexivity.
    cbn [fst snd].
    split; [intros []; reflexivity|]. split; [intros []; reflexivity|].
    split; [reflexivity|].
    destruct (setLabelReply w blk destName); cbn [isNoError];
      split; try (intros [_ ?]); try discriminate; intros;
      split; auto with datatypes.
  - replace (0 <? Z.of_nat (length (mp :: mps))) with true
      by (symmetry; apply Z.ltb_lt; cbn [length]; lia).
    destruct (unmountReply w blk) as [|name]; cbn [isNoError negb fst snd].
    + split; [intros _ []; reflexivity|]. split; [reflexivity|].
      split; [discriminate|].
      destruct (setLabelReply w blk destName); cbn [isNoError];
        split; try (intros [_ ?]); try discriminate; intros;
        split; auto with datatypes.
    + split; [intros _ _; split; reflexivity|].
      split; [discriminate|]. split; [discriminate|].
      split; [discriminate | intros [[H|[]] _]; discriminate H].
Qed.

Lemma renameFile_label_witness :
  fst (renameFile upstream busyWorld renameToNew) = false /\
  snd (renameFile upstream busyWorld renameToNew) =
    [Unmount "/org/freedesktop/UDisks2/block_devices/sdb1"].
Proof.
  destruct (renameFile_label upstream busyWorld renameToNew) as [H _];
    [reflexivity | discriminate |].
  destruct (H eq_refl) as (Hfail & _).
  apply Hfail; discriminate.
Defined.

(** ** Watch session *)

Lemma initBlockDevConnections_keeps (M : Macros) (w : World)
    (st : DFMRootFileWatcherPrivate * list Effect) (blk : DBlockDevice)
    (devs : string) :
  target (fst (initBlockDevConnections M w st blk devs)) = target (fst st) /\
  started (fst (initBlockDevConnections M w st blk devs)) = started (fst st).
Proof.
  destruct st as [d log]. unfold initBlockDevConnections.
  break_if; split; reflexivity.
Qed.

Lemma startStep_keeps (M : Macros) (w : World)
    (st : DFMRootFileWatcherPrivate * list Effect) (devs : string) :
  target (fst (startStep M w st devs)) = target (fst st) /\
  started (fst (startStep M w st devs)) = started (fst st).
Proof.
  destruct st as [d log]. unfold startStep.
  destruct (ignoreBlkDevice w devs _ _); [split; reflexivity|].
  match goal with
  | |- context [initBlockDevConnections M w ?st ?blk devs] =>
      exact (initBlockDevConnections_keeps M w st blk devs)
  end.
Qed.

Lemma startLoop_keeps (M : Macros) (w : World) (devices : list string) :
  forall st : DFMRootFileWatcherPrivate * list Effect,
    target (fst (fold_left (startStep M w) devices st)) = target (fst st) /\
    started (fst (fold_left (startStep M w) devices st)) = started (fst st).
Proof.
  induction devices as [|devs devices IH]; intros st; [split; reflexivity|].
  cbn [fold_left]. destruct (IH (startStep M w st devs)) as [Ht Hs].
  destruct (startStep_keeps M w st devs) as [Ht' Hs'].
  split; congruence.
Qed.

(** C3, as stated, fails: an idle session whose target is the trash root,
    which is not the virtual root, is started all the same, because [start]
    looks at the path of the target only. *)
Lemma start_accepts_other_root :
  isVirtualRoot upstream trashUrl = false /\
  started (newWatcher trashUrl) = false /\
  fst (fst (start upstream quietWorld (newWatcher trashUrl))) = true /\
  started (snd (fst (start upstream quietWorld (newWatcher trashUrl)))) = true.
Proof. repeat split; reflexivity. Qed.

(** C3, amended.  [start] returns [false] and changes nothing whenever the
    path of the target address is not "/" or the session is already started.
    Starting an idle session whose target has the path "/" (the virtual root
    in particular) returns [true] and marks it started, so that a second
    [start] returns [false]; after that [stop] succeeds once, disconnects
    every registered connection and clears the listeners, and a second
    [stop] returns [false]. *)
Theorem start_stop_lifecycle :
  forall (M : Macros) (w : World) (d : DFMRootFileWatcherPrivate),
    (path (target d) <> "/" \/ started d = true ->
       start M w d = (false, d, [])) /\
    (isVirtualRoot M (target d) = true -> path (target d) = "/") /\
    (path (target d) = "/" -> started d = false ->
       exists (d1 : DFMRootFileWatcherPrivate) (log1 : list Effect),
         start M w d = (true, d1, log1) /\
         started d1 = true /\
         start M w d1 = (false, d1, []) /\
         exists d2 : DFMRootFileWatcherPrivate,
           stop d1 =
             (true, d2, SetWatchChanges false :: map Disconnect (connections d1)) /\
           connections d2 = [] /\ connectionsurl d2 = [] /\ blkdevs d2 = [] /\
           started d2 = false /\
           stop d2 = (false, d2, [])).
Proof.
  intros M w d. split; [|split].
  - intros H. unfold start.
    destruct (String.eqb_spec (path (target d)) "/") as [Hp|Hp];
      [|reflexivity].
    destruct H as [H|H]; [contradiction|]. rewrite H. reflexivity.
  - unfold isVirtualRoot. intros H.
    apply andb_prop in H as [_ H]. apply String.eqb_eq in H. exact H.
  - intros Hp Hs. unfold start at 1.
    rewrite Hp, Hs. cbn [String.eqb Ascii.eqb Bool.eqb negb orb].
    match goal with
    | |- context [fold_left (startStep M w) ?l ?st] =>
        pose proof (startLoop_keeps M w l st) as [Ht Hst];
        destruct (fold_left (startStep M w) l st) as [d2 log] eqn:Hfold
    end.
    cbn [fst target started] in Ht, Hst.
    eexists _, _. split; [reflexivity|]. split; [reflexivity|].
    split.
    + unfold start. cbn [target started]. rewrite orb_true_r. reflexivity.
    + unfold stop. cbn [started negb connections connectionsurl blkdevs].
      eexists. repeat split; reflexivity.
Qed.

Lemma start_stop_lifecycle_witness :
  start upstream quietWorld (newWatcher (mkQUrl "dfmroot" (Some "") "/x" None None)) =
    (false, newWatcher (mkQUrl "dfmroot" (Some "") "/x" None None), []) /\
  exists (d1 : DFMRootFileWatcherPrivate) (log1 : list Effect),
    start upstream quietWorld (newWatcher rootUrl) = (true, d1, log1) /\
    started d1 = true.
Proof.
  split.
  - apply (proj1 (start_stop_lifecycle upstream quietWorld
                    (newWatcher (mkQUrl "dfmroot" (Some "") "/x" None None)))).
    left. discriminate.
  - destruct (proj2 (proj2 (start_stop_lifecycle upstream quietWorld
                              (newWatcher rootUrl))))
      as (d1 & log1 & H1 & H2 & _); [reflexivity | reflexivity |].
    exists d1, log1. split; [exact H1 | exact H2].
Defined.

(** ** Alias store *)

Lemma aliasLoop_absent (M : Macros) (uuid alias name : string)
    (items : list QVariantMap) :
  (forall m, In m items -> value m (macro_DISKALIAS_ITEM_UUID M) <> uuid) ->
  aliasLoop M uuid alias name items = (items, false).
Proof.
  induction items as [|m items IH]; intros H; [reflexivity|].
  cbn [aliasLoop].
  destruct (String.eqb_spec (value m (macro_DISKALIAS_ITEM_UUID M)) uuid) as [E|_].
  - exfalso. apply (H m); [left; reflexivity | exact E].
  - rewrite IH; [reflexivity|]. intros m' Hin. apply H. right. exact Hin.
Qed.

Lemma aliasLoop_first (M : Macros) (uuid alias name : string)
    (before after : list QVariantMap) (m : QVariantMap) :
  (forall m', In m' before -> value m' (macro_DISKALIAS_ITEM_UUID M) <> uuid) ->
  value m (macro_DISKALIAS_ITEM_UUID M) = uuid ->
  aliasLoop M uuid alias name (before ++ m :: after) =
    (if isEmpty alias then before ++ after
     else before ++
          <[macro_DISKALIAS_ITEM_ALIAS M := alias]>
            (<[macro_DISKALIAS_ITEM_NAME M := name]> m) :: after,
     true).
Proof.
  intros Hb Hm. induction before as [|b before IH]; cbn [app aliasLoop].
  - rewrite Hm, String.eqb_refl. destruct (isEmpty alias); reflexivity.
  - destruct (String.eqb_spec (value b (macro_DISKALIAS_ITEM_UUID M)) uuid) as [E|_].
    + exfalso. apply (Hb b); [left; reflexivity | exact E].
    + rewrite IH by (intros m' Hin; apply Hb; right; exact Hin).
      destruct (isEmpty alias); reflexivity.
Qed.

Lemma isEmpty_true (s : string) : isEmpty s = true <-> s = "".
Proof. destruct s; cbn; split; congruence. Qed.

Lemma isEmpty_false (s : string) : isEmpty s = false <-> s <> "".
Proof. destruct s; cbn; split; congruence. Qed.

Lemma first_with_uuid_split (M : Macros) (uuid : string)
    (items : list QVariantMap) (i : nat) (m : QVariantMap) :
  items !! i = Some m ->
  (forall j m', (j < i)%nat -> items !! j = Some m' ->
                value m' (macro_DISKALIAS_ITEM_UUID M) <> uuid) ->
  items = take i items ++ m :: drop (S i) items /\
  forall m', In m' (take i items) ->
             value m' (macro_DISKALIAS_ITEM_UUID M) <> uuid.
Proof.
  intros Hi Hfirst. split.
  - symmetry. apply take_drop_middle. exact Hi.
  - intros m' Hin. apply list_elem_of_In in Hin.
    apply list_elem_of_lookup in Hin as [j Hj].
    apply lookup_take_Some in Hj as [Hj Hlt].
    exact (Hfirst j m' Hlt Hj).
Qed.

(** C5, as stated, fails.  The new name " " is not empty and a record for
    the uuid exists, yet the record is not overwritten in place but removed,
    because the new name is trimmed before it is looked at; and for an
    alias-capable entry with a uuid that does not pass the [canRename] test
    the call returns [false] and nothing is written. *)
Lemma blank_alias_removes_record :
  (canSetAlias (aliasInfo sdb1Url) = true /\
   getUUID (aliasInfo sdb1Url) <> "" /\
   " " <> "" /\
   diskAliasItems aliasWorld = [oldRecord] /\
   value oldRecord "uuid" = getUUID (aliasInfo sdb1Url) /\
   setLocalDiskAlias upstream aliasWorld (Some (aliasInfo sdb1Url)) " " =
     (true,
      [ReadDiskAlias; WriteDiskAlias [];
       GhostSignal rootUrl fileAttributeChanged sdb1Url])) /\
  (canSetAlias (lockedInfo sdb1Url) = true /\
   getUUID (lockedInfo sdb1Url) <> "" /\
   setLocalDiskAlias upstream aliasWorld (Some (lockedInfo sdb1Url)) "Music" =
     (false, [])).
Proof. repeat split; try discriminate; vm_compute; reflexivity. Qed.

(** C5, amended.  For a renameable, alias-capable entry with a non-empty
    uuid a rename request is handed to [setLocalDiskAlias], which changes
    the alias list as follows, the new name being taken with surrounding
    white space trimmed: when the trimmed name is empty the first record for
    that uuid is removed; otherwise, when a record for that uuid exists, the
    first one is overwritten in place (display name and trimmed alias) at
    its position, and when none exists a new record is appended; in every
    case the whole list is written back to the settings, an attribute-change
    ghost signal for the root is raised, and the call returns [true]. *)
Theorem setLocalDiskAlias_store :
  forall (M : Macros) (w : World) (fi : DFMRootFileInfo) (newName : string),
    let uuid := getUUID fi in
    let alias := trimmed newName in
    let items := diskAliasItems w in
    canRename fi = true ->
    uuid <> "" ->
    (canSetAlias fi = true ->
       forall event : DFMRenameEvent,
         rootFileInfo w (fromUrl event) = fi -> path (toUrl event) = newName ->
         renameFile M w event = setLocalDiskAlias M w (Some fi) newName) /\
    exists items' : list QVariantMap,
      setLocalDiskAlias M w (Some fi) newName =
        (true,
         [ReadDiskAlias; WriteDiskAlias items';
          GhostSignal (DUrl_ofString (qt w) (macro_DFMROOT_ROOT M))
            fileAttributeChanged (fileUrl fi)]) /\
      (forall (i : nat) (m : QVariantMap),
          items !! i = Some m ->
          value m (macro_DISKALIAS_ITEM_UUID M) = uuid ->
          (forall j m', (j < i)%nat -> items !! j = Some m' ->
                        value m' (macro_DISKALIAS_ITEM_UUID M) <> uuid) ->
          (alias = "" -> items' = delete i items) /\
          (alias <> "" ->
             items' =
               <[i := <[macro_DISKALIAS_ITEM_ALIAS M := alias]>
                        (<[macro_DISKALIAS_ITEM_NAME M := udisksDisplayName fi]> m)]>
               items)) /\
      ((forall m, In m items -> value m (macro_DISKALIAS_ITEM_UUID M) <> uuid) ->
          (alias = "" -> items' = items) /\
          (alias <> "" ->
             items' = items ++ [newAliasRecord M uuid alias (udisksDisplayName fi)])).
Proof.
  intros M w fi newName uuid alias items Hren Huuid. split.
  { intros Halias event Hfi Hname. unfold renameFile.
    rewrite Hfi, Hname, Hren, Halias. reflexivity. }
  unfold setLocalDiskAlias. rewrite Hren.
  fold uuid alias items. cbn [negb orb].
  apply isEmpty_false in Huuid. rewrite Huuid. cbn [negb andb].
  destruct (aliasLoop M uuid alias (udisksDisplayName fi) items)
    as [items1 found] eqn:Hloop.
  eexists. split; [reflexivity|]. split.
  - intros i m Hi Hm Hfirst.
    destruct (first_with_uuid_split M uuid items i m Hi Hfirst) as [Hsplit Hbefore].
    rewrite Hsplit in Hloop.
    rewrite (aliasLoop_first M uuid alias _ _ _ m Hbefore Hm) in Hloop.
    injection Hloop as <- <-. cbn [negb andb].
    split; intros Ha.
    + apply isEmpty_true in Ha. rewrite Ha.
      rewrite delete_take_drop. reflexivity.
    + apply isEmpty_false in Ha. rewrite Ha.
      rewrite insert_take_drop by (apply lookup_lt_Some in Hi; exact Hi).
      reflexivity.
  - intros Hnone. rewrite (aliasLoop_absent M uuid alias _ items Hnone) in Hloop.
    injection Hloop as <- <-. cbn [negb andb].
    split; intros Ha.
    + apply isEmpty_true in Ha. rewrite Ha. reflexivity.
    + apply isEmpty_false in Ha. rewrite Ha. reflexivity.
Qed.

Lemma setLocalDiskAlias_store_witness :
  renameFile upstream aliasWorld renameToMusic =
    setLocalDiskAlias upstream aliasWorld (Some (aliasInfo sdb1Url)) " Music " /\
  exists items' : list QVariantMap,
    setLocalDiskAlias upstream aliasWorld (Some (aliasInfo sdb1Url)) " Music " =
      (true,
       [ReadDiskAlias; WriteDiskAlias items';
        GhostSignal rootUrl fileAttributeChanged sdb1Url]) /\
    items' = [<["alias" := "Music"]> (<["name" := "Data"]> oldRecord)].
Proof.
  destruct (setLocalDiskAlias_store upstream aliasWorld (aliasInfo sdb1Url) " Music ")
    as (Hrename & items' & Hcall & Hfound & _);
    [reflexivity | discriminate |].
  split; [apply Hrename; reflexivity|].
  exists items'. split; [exact Hcall|].
  destruct (Hfound O oldRecord) as [_ Hover];
    [reflexivity | reflexivity | intros j m' Hj; inversion Hj |].
  apply Hover. discriminate.
Defined.

(** The white space that is trimmed is that of [QChar::isSpace], not the
    ASCII one only: a new name that ends in the ideographic space is stored
    without it, and a new name made of an ideographic and a no-break space
    removes the record as a blank one does. *)
Lemma setLocalDiskAlias_wide_space :
  setLocalDiskAlias upstream aliasWorld (Some (aliasInfo sdb1Url))
    ("Music" +:+ ideographicSpace) =
    (true,
     [ReadDiskAlias;
      WriteDiskAlias [<["alias" := "Music"]> (<["name" := "Data"]> oldRecord)];
      GhostSignal rootUrl fileAttributeChanged sdb1Url]) /\
  setLocalDiskAlias upstream aliasWorld (Some (aliasInfo sdb1Url))
    (ideographicSpace +:+ noBreakSpace) =
    (true,
     [ReadDiskAlias; WriteDiskAlias [];
      GhostSignal rootUrl fileAttributeChanged sdb1Url]).
Proof. split; vm_compute; reflexivity. Qed.

(** ** Address equality *)

Lemma append_nil (t : string) : "" +:+ t = t.
Proof. reflexivity. Qed.

Lemma append_cons (c : ascii) (s t : string) :
  String c s +:+ t = String c (s +:+ t).
Proof. reflexivity. Qed.

Lemma append_assoc (s t u : string) : (s +:+ t) +:+ u = s +:+ (t +:+ u).
Proof.
  induction s as [|c s IH]; [reflexivity|].
  rewrite !append_cons, IH. reflexivity.
Qed.

Lemma size_append (s t : string) : size (s +:+ t) = size s + size t.
Proof.
  induction s as [|c s IH].
  - rewrite append_nil. cbn [size]. lia.
  - rewrite append_cons. cbn [size]. rewrite IH. lia.
Qed.

Lemma length_append (s t : string) :
  String.length (s +:+ t) = (String.length s + String.length t)%nat.
Proof.
  induction s as [|c s IH]; [reflexivity|].
  rewrite append_cons. cbn [String.length]. rewrite IH. reflexivity.
Qed.

Lemma append_nil_r (s : string) : s +:+ "" = s.
Proof.
  induction s as [|c s IH]; [reflexivity|]. rewrite append_cons, IH. reflexivity.
Qed.

Lemma utf16Units_nonneg (c : ascii) : 0 <= utf16Units c.
Proof. unfold utf16Units. repeat destruct (_ <? _)%nat; lia. Qed.

Lemma size_nonneg (s : string) : 0 <= size s.
Proof.
  induction s as [|c s IH]; cbn [size]; [lia|].
  pose proof (utf16Units_nonneg c). lia.
Qed.




Lemma mid_append (s t : string) : mid (s +:+ t) (String.length s) = t.
Proof.
  induction s as [|c s IH].
  - destruct t; reflexivity.
  - rewrite append_cons. cbn [String.length mid]. exact IH.
Qed.





(** *** What [remove] leaves *)













(** ** Enumeration of network mounts *)

Lemma append_inv_tail (a b c : string) : a +:+ c = b +:+ c -> a = b.
Proof.
  revert b. induction a as [|x a IH]; intros b H.
  - apply (f_equal String.length) in H. rewrite !length_append in H.
    destruct b; [reflexivity | cbn [String.length] in H; lia].
  - destruct b as [|y b].
    + apply (f_equal String.length) in H. rewrite !length_append in H.
      cbn [String.length] in H. lia.
    + rewrite !append_cons in H. injection H as -> H.
      rewrite (IH b H). reflexivity.
Qed.

Lemma fromPercentEncoding_encodeByte (c : ascii) (t : string) :
  fromPercentEncoding (encodeByte c +:+ t) = String c (fromPercentEncoding t).
Proof.
  destruct c as [[] [] [] [] [] [] [] []];
    first [ reflexivity | destruct t as [|h [|l rest]]; reflexivity ].
Qed.

(** Decoding undoes encoding, so equal encodings come from equal texts. *)
Lemma fromPercentEncoding_toPercentEncoding (s : string) :
  fromPercentEncoding (toPercentEncoding s) = s.
Proof.
  induction s as [|c s IH]; [reflexivity|].
  cbn [toPercentEncoding]. rewrite fromPercentEncoding_encodeByte, IH.
  reflexivity.
Qed.

Lemma gvfsKey_inj (M : Macros) (p q : string) :
  gvfsKey M p = gvfsKey M q -> p = q.
Proof.
  unfold gvfsKey. intros H.
  rewrite !append_cons, !append_nil in H. injection H as H.
  apply (append_inv_tail _ _ ("." +:+ macro_SUFFIX_GVFSMP M)) in H.
  rewrite <- (fromPercentEncoding_toPercentEncoding p),
          <- (fromPercentEncoding_toPercentEncoding q), H.
  reflexivity.
Qed.

Lemma list_contains_snoc (l : list string) (x y : string) :
  list_contains (l ++ [x]) y = list_contains l y || String.eqb y x.
Proof.
  unfold list_contains. rewrite existsb_app. cbn [existsb].
  rewrite orb_false_r. reflexivity.
Qed.

Section LiveMount.

Variable M : Macros.
Variable w : World.

Lemma filter_snoc_out (key : string) (l : list RootEntry)
    (e : RootEntry) :
  representsKey M key e = false ->
  List.filter (representsKey M key) (l ++ [e]) = List.filter (representsKey M key) l.
Proof.
  intros H. rewrite List.filter_app. cbn [List.filter]. rewrite H.
  apply app_nil_r.
Qed.

(** The loops over the user directories and over the block devices add no
    entry that stands for a network mount. *)
Lemma userDirLoop_no_mount (key : string)
    (dirs : list string) :
  forall acc : list RootEntry * list Effect,
    List.filter (representsKey M key) (fst acc) = [] ->
    List.filter (representsKey M key) (fst (fold_left (userDirStep w) dirs acc)) = [].
Proof.
  induction dirs as [|d dirs IH]; intros [ret log] H; [exact H|].
  cbn [fold_left]. apply IH. unfold userDirStep. cbn [fst] in *.
  destruct (exists_ w (UserDirEntry d)); [|exact H].
  rewrite filter_snoc_out; [exact H | reflexivity].
Qed.

Lemma blockStep_ret (hasSetDiskPolicy : bool)
    (diskPolicyList : list string) (acc : BlockAcc) (blks : string) :
  blk_ret (blockStep M w hasSetDiskPolicy diskPolicyList acc blks) = blk_ret acc \/
  exists dev : string,
    blk_ret (blockStep M w hasSetDiskPolicy diskPolicyList acc blks) =
      blk_ret acc ++ [UDisksEntry dev].
Proof.
  unfold blockStep.
  break_if; cbn [blk_ret]; eauto.
Qed.

Lemma blockLoop_no_mount (key : string)
    (hasSetDiskPolicy : bool) (diskPolicyList : list string)
    (devices : list string) :
  forall acc : BlockAcc,
    List.filter (representsKey M key) (blk_ret acc) = [] ->
    List.filter (representsKey M key)
      (blk_ret (fold_left (blockStep M w hasSetDiskPolicy diskPolicyList)
                  devices acc)) = [].
Proof.
  induction devices as [|blks devices IH]; intros acc H; [exact H|].
  cbn [fold_left]. apply IH.
  destruct (blockStep_ret hasSetDiskPolicy diskPolicyList acc blks)
    as [-> | [dev ->]]; [exact H|].
  rewrite filter_snoc_out; [exact H | reflexivity].
Qed.

(** What one round of the loop over the mounts does to the entries and to
    [urllist]. *)
Lemma mountStep_ret_urllist (acc : MountAcc)
    (gvfsmp : DGioMount) :
  (mnt_ret (mountStep M w acc gvfsmp), urllist (mountStep M w acc gvfsmp)) =
  match listedMount M w gvfsmp with
  | None => (mnt_ret acc, urllist acc)
  | Some rootPath =>
      if list_contains (urllist acc) (gvfsKey M rootPath)
      then (mnt_ret acc, urllist acc)
      else (if exists_ w (GvfsMountEntry rootPath)
            then mnt_ret acc ++ [GvfsMountEntry rootPath] else mnt_ret acc,
            urllist acc ++ [gvfsKey M rootPath])
  end.
Proof.
  unfold mountStep, listedMount.
  destruct (match getVolume gvfsmp with
            | Some name => endsWith name "UDisks2"
            | None => false
            end); [reflexivity|].
  destruct (String.eqb (mountClass gvfsmp) "GUnixMount"); [reflexivity|].
  destruct (getRootFile gvfsmp) as [rootFile|]; [|reflexivity].
  destruct (String.eqb (scheme (DUrl_ofString (qt w) (uri rootFile)))
              (macro_BURN_SCHEME M)); [reflexivity|].
  destruct (startsWith (uri rootFile) "file:///media/"),
    (isFromNativeBlockDev w (gio_path rootFile)); cbn [andb];
    try reflexivity;
    destruct (list_contains (urllist acc) (gvfsKey M (gio_path rootFile)));
    reflexivity.
Qed.

Lemma mountStep_seen (rootPath : string)
    (acc : MountAcc) (gvfsmp : DGioMount) :
  seen M rootPath acc -> seen M rootPath (mountStep M w acc gvfsmp).
Proof.
  intros [Hin Hret]. unfold seen.
  pose proof (mountStep_ret_urllist acc gvfsmp) as Hstep.
  destruct (listedMount M w gvfsmp) as [p|].
  - destruct (list_contains (urllist acc) (gvfsKey M p)) eqn:Hp;
      injection Hstep as -> ->; [split; assumption|].
    assert (Hne : String.eqb (gvfsKey M p) (gvfsKey M rootPath) = false).
    { apply String.eqb_neq. intros E. rewrite E in Hp. congruence. }
    split.
    + rewrite list_contains_snoc, Hin. reflexivity.
    + destruct (exists_ w (GvfsMountEntry p)); [|exact Hret].
      rewrite filter_snoc_out; [exact Hret | exact Hne].
  - injection Hstep as -> ->. split; assumption.
Qed.

Lemma mountStep_unseen (rootPath : string)
    (acc : MountAcc) (gvfsmp : DGioMount) :
  exists_ w (GvfsMountEntry rootPath) = true ->
  unseen M (gvfsKey M rootPath) acc ->
  (listedMount M w gvfsmp = Some rootPath ->
     seen M rootPath (mountStep M w acc gvfsmp)) /\
  (unseen M (gvfsKey M rootPath) (mountStep M w acc gvfsmp) \/
   seen M rootPath (mountStep M w acc gvfsmp)).
Proof.
  intros Hex [Hout Hret]. unfold seen, unseen.
  pose proof (mountStep_ret_urllist acc gvfsmp) as Hstep.
  destruct (listedMount M w gvfsmp) as [p|].
  - destruct (String.eqb_spec (gvfsKey M p) (gvfsKey M rootPath)) as [E|E].
    + apply gvfsKey_inj in E. subst p. rewrite Hout, Hex in Hstep.
      injection Hstep as -> ->.
      assert (Hs : list_contains (urllist acc ++ [gvfsKey M rootPath])
                     (gvfsKey M rootPath) = true /\
                   List.filter (representsKey M (gvfsKey M rootPath))
                     (mnt_ret acc ++ [GvfsMountEntry rootPath]) =
                   [GvfsMountEntry rootPath]).
      { split.
        - rewrite list_contains_snoc, String.eqb_refl. apply orb_true_r.
        - rewrite List.filter_app, Hret. cbn [List.filter app].
          unfold representsKey. cbn [entryKey]. rewrite String.eqb_refl.
          reflexivity. }
      split; [intros _; exact Hs | right; exact Hs].
    + split; [intros H; injection H as ->; contradiction|]. left.
      assert (Hne : String.eqb (gvfsKey M rootPath) (gvfsKey M p) = false)
        by (apply String.eqb_neq; congruence).
      destruct (list_contains (urllist acc) (gvfsKey M p));
        injection Hstep as -> ->; [split; assumption|].
      split.
      * rewrite list_contains_snoc, Hout, Hne. reflexivity.
      * destruct (exists_ w (GvfsMountEntry p)); [|exact Hret].
        rewrite filter_snoc_out; [exact Hret|].
        unfold representsKey. cbn [entryKey].
        apply String.eqb_neq. exact E.
  - injection Hstep as -> ->.
    split; [discriminate | left; split; assumption].
Qed.

Lemma mountLoop_seen (rootPath : string)
    (mounts : list DGioMount) :
  exists_ w (GvfsMountEntry rootPath) = true ->
  forall acc : MountAcc,
    seen M rootPath acc \/
    (unseen M (gvfsKey M rootPath) acc /\
     exists gvfsmp, In gvfsmp mounts /\ listedMount M w gvfsmp = Some rootPath) ->
    seen M rootPath (fold_left (mountStep M w) mounts acc).
Proof.
  intros Hex. induction mounts as [|m mounts IH]; intros acc H.
  - destruct H as [H | [_ (g & [] & _)]]. exact H.
  - cbn [fold_left]. apply IH.
    destruct H as [H | [Hun (g & Hin & Hlisted)]].
    + left. apply mountStep_seen. exact H.
    + destruct (mountStep_unseen rootPath acc m Hex Hun) as [Hhit Hstep].
      destruct Hin as [<- | Hin]; [left; apply Hhit; exact Hlisted|].
      destruct Hstep as [Hstep | Hstep]; [|left; exact Hstep].
      right. split; [exact Hstep|]. exists g. split; assumption.
Qed.

(** One round of the loop over the stashed mounts: nothing is added, or
    the record is added, and then it has a key that is not in [urllist]. *)
Lemma stashedStep_ret (keys : list string)
    (acc : list RootEntry * list Effect) (mount : QVariantMap) :
  fst (stashedStep M w keys acc mount) = fst acc \/
  (fst (stashedStep M w keys acc mount) = fst acc ++ [StashedRemoteEntry mount] /\
   map_contains mount (macro_REMOTE_KEY M) = true /\
   list_contains keys (stashedKey M mount) = false).
Proof.
  destruct acc as [ret log]. unfold stashedStep.
  destruct (map_contains mount (macro_REMOTE_KEY M)); [|left; reflexivity].
  cbn [negb].
  destruct (list_contains keys (stashedKey M mount)); [left; reflexivity|].
  break_if; cbn [fst]; auto.
Qed.

Lemma stashedLoop_keeps (keys : list string)
    (key : string) (mounts : list QVariantMap) :
  list_contains keys key = true ->
  forall acc : list RootEntry * list Effect,
    List.filter (representsKey M key)
      (fst (fold_left (stashedStep M w keys) mounts acc)) =
    List.filter (representsKey M key) (fst acc).
Proof.
  intros Hkey. induction mounts as [|mount mounts IH]; intros acc;
    [reflexivity|].
  cbn [fold_left]. rewrite IH.
  destruct (stashedStep_ret keys acc mount) as [-> | (-> & Hk & Hout)];
    [reflexivity|].
  apply filter_snoc_out. unfold representsKey. cbn [entryKey]. rewrite Hk.
  apply String.eqb_neq. intros E. rewrite E in Hout. congruence.
Qed.

End LiveMount.

(** C7, as stated, fails.  With offline connections always shown and the
    share both mounted and stashed, no entry at all stands for the share
    when the entry built for the mount does not exist (its key enters
    [urllist] all the same, so the stashed record is skipped), and none
    either when the request has [canconst] set (the call returns before the
    mounts are looked at). *)
Lemma mounted_share_without_entry :
  (GA_AlwaysShowOfflineRemoteConnections staleShareWorld = true /\
   In shareMount (getMounts staleShareWorld) /\
   listedMount upstream staleShareWorld shareMount = Some sharePath /\
   In shareRecord (remoteMounts staleShareWorld) /\
   stashedKey upstream shareRecord = gvfsKey upstream sharePath /\
   fst (getChildren upstream staleShareWorld
          (mkDFMGetChildrensEvent rootUrl false)) = []) /\
  (GA_AlwaysShowOfflineRemoteConnections shareWorld = true /\
   In shareMount (getMounts shareWorld) /\
   listedMount upstream shareWorld shareMount = Some sharePath /\
   exists_ shareWorld (GvfsMountEntry sharePath) = true /\
   In shareRecord (remoteMounts shareWorld) /\
   stashedKey upstream shareRecord = gvfsKey upstream sharePath /\
   fst (getChildren upstream shareWorld
          (mkDFMGetChildrensEvent rootUrl true)) = []).
Proof. repeat split; try (left; reflexivity); vm_compute; reflexivity. Qed.

(** C7, amended.  With offline connections always shown, for a request for
    the virtual root that is not a [canconst] request, a mount that the
    loop over the mounts does not skip, whose entry exists, and whose key is
    also the key of a stashed record gets exactly one entry, the live one,
    and the stashed record gets none.  A stashed record is skipped whenever
    its key is in [urllist], and also when the aggregation mode is on or its
    protocol or host is missing or empty. *)
Theorem getChildren_live_mount_once :
  forall (M : Macros) (w : World) (event : DFMGetChildrensEvent)
         (gvfsmp : DGioMount) (rootPath : string) (mount : QVariantMap),
    isVirtualRoot M (url event) = true ->
    canconst event = false ->
    GA_AlwaysShowOfflineRemoteConnections w = true ->
    In gvfsmp (getMounts w) ->
    listedMount M w gvfsmp = Some rootPath ->
    exists_ w (GvfsMountEntry rootPath) = true ->
    In mount (remoteMounts w) ->
    map_contains mount (macro_REMOTE_KEY M) = true ->
    stashedKey M mount = gvfsKey M rootPath ->
    List.filter (representsKey M (gvfsKey M rootPath)) (fst (getChildren M w event)) =
      [GvfsMountEntry rootPath] /\
    ~ In (StashedRemoteEntry mount) (fst (getChildren M w event)) /\
    forall (keys : list string) (acc : list RootEntry * list Effect)
           (mount' : QVariantMap),
      list_contains keys (stashedKey M mount') = true \/
      isIntegrationMode w = true \/
      value mount' (macro_REMOTE_PROTOCOL M) = "" \/
      value mount' (macro_REMOTE_HOST M) = "" ->
      fst (stashedStep M w keys acc mount') = fst acc.
Proof.
  intros M w event gvfsmp rootPath mount Hroot Hconst Halways Hin Hlisted
    Hex Hstash Hkey Hsame.
  assert (Hone :
    List.filter (representsKey M (gvfsKey M rootPath)) (fst (getChildren M w event)) =
      [GvfsMountEntry rootPath]).
  { unfold getChildren. unfold isVirtualRoot in Hroot.
    apply andb_prop in Hroot as [Hs Hp]. rewrite Hs, Hp, Hconst, Halways.
    cbn [negb orb].
    destruct (fold_left (userDirStep w) udir ([], [])) as [ret0 log0] eqn:Hdirs.
    match goal with
    | |- context [fold_left (mountStep M w) (getMounts w) ?acc] =>
        assert (Hseen : seen M rootPath (fold_left (mountStep M w) (getMounts w) acc))
    end.
    { apply mountLoop_seen; [exact Hex|]. right. split.
      - split; [reflexivity|]. cbn [mnt_ret].
        apply blockLoop_no_mount. cbn [blk_ret].
        change ret0 with (fst (ret0, log0)). rewrite <- Hdirs.
        apply userDirLoop_no_mount. reflexivity.
      - exists gvfsmp. split; assumption. }
    destruct Hseen as [Hurl Hret].
    match goal with
    | |- context [fold_left (stashedStep M w ?keys) (remoteMounts w) ?acc] =>
        pose proof (stashedLoop_keeps M w keys (gvfsKey M rootPath)
                      (remoteMounts w) Hurl acc) as Hkeep;
        destruct (fold_left (stashedStep M w keys) (remoteMounts w) acc)
          as [ret1 log1]
    end.
    cbn [fst] in *. rewrite Hkeep. exact Hret. }
  split; [exact Hone|]. split.
  - intros Habs.
    assert (Hf : In (StashedRemoteEntry mount)
                   (List.filter (representsKey M (gvfsKey M rootPath))
                      (fst (getChildren M w event)))).
    { apply List.filter_In. split; [exact Habs|].
      unfold representsKey. cbn [entryKey]. rewrite Hkey, Hsame.
      apply String.eqb_refl. }
    rewrite Hone in Hf. destruct Hf as [Hf | []]. discriminate Hf.
  - intros keys [ret log] mount' H. unfold stashedStep.
    destruct (map_contains mount' (macro_REMOTE_KEY M)); [|reflexivity].
    cbn [negb].
    destruct (list_contains keys (stashedKey M mount')) eqn:Hk; [reflexivity|].
    destruct (map_contains mount' (macro_REMOTE_PROTOCOL M) &&
              map_contains mount' (macro_REMOTE_HOST M)); [|reflexivity].
    cbn [negb].
    destruct (isEmpty (value mount' (macro_REMOTE_PROTOCOL M))) eqn:Hp;
      [reflexivity|].
    destruct (isEmpty (value mount' (macro_REMOTE_HOST M))) eqn:Hh;
      [reflexivity|].
    cbn [orb].
    destruct (isIntegrationMode w) eqn:Hi; [reflexivity|].
    apply isEmpty_false in Hp, Hh.
    destruct H as [H | [H | [H | H]]]; congruence.
Qed.

Lemma getChildren_live_mount_once_witness :
  List.filter (representsKey upstream (gvfsKey upstream sharePath))
    (fst (getChildren upstream shareWorld (mkDFMGetChildrensEvent rootUrl false))) =
    [GvfsMountEntry sharePath] /\
  fst (getChildren upstream shareWorld (mkDFMGetChildrensEvent rootUrl false)) =
    [GvfsMountEntry sharePath].
Proof.
  split; [|vm_compute; reflexivity].
  apply (getChildren_live_mount_once upstream shareWorld
           (mkDFMGetChildrensEvent rootUrl false) shareMount sharePath shareRecord);
    try reflexivity; try (left; reflexivity); vm_compute; reflexivity.
Defined.

(** * Further properties *)

(** ** The shape of an enumeration *)

Section Enumeration.

Variable M : Macros.
Variable w : World.

Lemma userDirLoop_ret (dirs : list string) :
  forall acc : list RootEntry * list Effect,
    fst (fold_left (userDirStep w) dirs acc) =
      fst acc ++ List.filter (exists_ w) (map UserDirEntry dirs).
Proof.
  induction dirs as [|d dirs IH]; intros [ret log].
  - cbn. rewrite app_nil_r. reflexivity.
  - cbn [fold_left]. rewrite IH. unfold userDirStep. cbn [fst map List.filter].
    destruct (exists_ w (UserDirEntry d)); [|reflexivity].
    rewrite <- app_assoc. reflexivity.
Qed.

Lemma blockStep_listed (acc : BlockAcc) (blks : string) :
  let hasSet := macro_DTK_POLICY_SUPPORT M && policy_containKey_DISK_HIDDEN w in
  let policy := if hasSet then policy_getValue_DISK_HIDDEN w else [] in
  blk_ret (blockStep M w hasSet policy acc blks) =
    if listedDevice M w blks then blk_ret acc ++ [diskEntry w blks] else blk_ret acc.
Proof.
  cbv zeta. unfold blockStep, listedDevice, hiddenSystemDisk, diskEntry.
  destruct (ignoreBlkDevice w blks _ _); [reflexivity|].
  destruct (macro_DTK_POLICY_SUPPORT M), (policy_containKey_DISK_HIDDEN w),
    (hintSystem (createBlockDevice w blks)),
    (GA_HiddenSystemPartition w); cbn [andb negb blk_ret];
    try reflexivity;
    destruct (list_contains (policy_getValue_DISK_HIDDEN w) _); reflexivity.
Qed.

Lemma blockLoop_ret (devices : list string) :
  let hasSet := macro_DTK_POLICY_SUPPORT M && policy_containKey_DISK_HIDDEN w in
  let policy := if hasSet then policy_getValue_DISK_HIDDEN w else [] in
  forall acc : BlockAcc,
    blk_ret (fold_left (blockStep M w hasSet policy) devices acc) =
      blk_ret acc ++ map (diskEntry w) (List.filter (listedDevice M w) devices).
Proof.
  cbv zeta. induction devices as [|blks devices IH]; intros acc.
  - cbn. rewrite app_nil_r. reflexivity.
  - cbn [fold_left]. rewrite IH.
    pose proof (blockStep_listed acc blks) as Hstep. cbv zeta in Hstep.
    rewrite Hstep. cbn [List.filter].
    destruct (listedDevice M w blks); [|reflexivity].
    cbn [map]. rewrite <- app_assoc. reflexivity.
Qed.

Lemma stashedStep_shown (keys : list string)
    (acc : list RootEntry * list Effect) (mount : QVariantMap) :
  fst (stashedStep M w keys acc mount) =
    if shownStashed M w keys mount
    then fst acc ++ [StashedRemoteEntry mount] else fst acc.
Proof.
  destruct acc as [ret log]. unfold stashedStep, shownStashed.
  destruct (map_contains mount (macro_REMOTE_KEY M)); [|reflexivity].
  destruct (list_contains keys (stashedKey M mount)); [reflexivity|].
  destruct (map_contains mount (macro_REMOTE_PROTOCOL M)); [|reflexivity].
  destruct (map_contains mount (macro_REMOTE_HOST M)); [|reflexivity].
  destruct (isEmpty (value mount (macro_REMOTE_PROTOCOL M))); [reflexivity|].
  destruct (isEmpty (value mount (macro_REMOTE_HOST M))); [reflexivity|].
  destruct (isIntegrationMode w); reflexivity.
Qed.

Lemma stashedLoop_ret (keys : list string) (mounts : list QVariantMap) :
  forall acc : list RootEntry * list Effect,
    fst (fold_left (stashedStep M w keys) mounts acc) =
      fst acc ++
      map StashedRemoteEntry (List.filter (shownStashed M w keys) mounts).
Proof.
  induction mounts as [|mount mounts IH]; intros acc.
  - cbn. rewrite app_nil_r. reflexivity.
  - cbn [fold_left]. rewrite IH, stashedStep_shown. cbn [List.filter].
    destruct (shownStashed M w keys mount); [|reflexivity].
    cbn [map]. rewrite <- app_assoc. reflexivity.
Qed.

Lemma mountLoop_live (ret0 : list RootEntry) (log0 : list Effect)
    (mounts : list DGioMount) :
  exists added : list RootEntry,
    mnt_ret (fold_left (mountStep M w) mounts (mkMountAcc ret0 [] log0)) =
      ret0 ++ added /\
    liveEntriesOf M w mounts added /\
    liveKeysOf M w mounts
      (urllist (fold_left (mountStep M w) mounts (mkMountAcc ret0 [] log0))).
Proof.
  induction mounts as [|m l IH] using rev_ind.
  - exists []. cbn [fold_left mnt_ret urllist]. split; [symmetry; apply app_nil_r|].
    split; [split; [constructor|]|].
    + intros e. split; [intros [] | intros (p & _ & _ & g & [] & _)].
    + intros k. split; [discriminate | intros (g & p & [] & _)].
  - destruct IH as (added & Hret & [Hnd Hin] & Hkeys).
    unfold liveKeysOf in Hkeys. rewrite fold_left_app. cbn [fold_left].
    set (a := fold_left (mountStep M w) l (mkMountAcc ret0 [] log0)) in *.
    pose proof (mountStep_ret_urllist M w a m) as Hstep.
    destruct (listedMount M w m) as [p|] eqn:Hm.
    2: { injection Hstep as -> ->. exists added. split; [exact Hret|].
         split; [split; [exact Hnd|]|].
         - intros e. rewrite Hin. split.
           + intros (q & He & Hex & g & Hg & Hl). exists q. repeat split; auto.
             exists g. split; [apply in_or_app; left; exact Hg | exact Hl].
           + intros (q & He & Hex & g & Hg & Hl). exists q. repeat split; auto.
             apply in_app_or in Hg as [Hg | [<- | []]]; [|congruence].
             exists g. split; assumption.
         - intros k. rewrite Hkeys. split.
           + intros (g & q & Hg & Hl & Hk). exists g, q.
             repeat split; auto. apply in_or_app. left. exact Hg.
           + intros (g & q & Hg & Hl & Hk).
             apply in_app_or in Hg as [Hg | [<- | []]]; [|congruence].
             exists g, q. repeat split; assumption. }
    destruct (list_contains (urllist a) (gvfsKey M p)) eqn:Hp.
    + injection Hstep as -> ->. exists added. split; [exact Hret|].
      pose proof (proj1 (Hkeys _) Hp) as (g1 & p1 & Hg1 & Hl1 & Hk1).
      apply gvfsKey_inj in Hk1. subst p1.
      split; [split; [exact Hnd|]|].
      * intros e. rewrite Hin. split.
        -- intros (q & He & Hex & g & Hg & Hl). exists q. repeat split; auto.
           exists g. split; [apply in_or_app; left; exact Hg | exact Hl].
        -- intros (q & He & Hex & g & Hg & Hl). exists q. repeat split; auto.
           apply in_app_or in Hg as [Hg | [<- | []]].
           ++ exists g. split; assumption.
           ++ assert (q = p) by congruence. subst q.
              exists g1. split; assumption.
      * intros k. rewrite Hkeys. split.
        -- intros (g & q & Hg & Hl & Hk). exists g, q.
           repeat split; auto. apply in_or_app. left. exact Hg.
        -- intros (g & q & Hg & Hl & Hk).
           apply in_app_or in Hg as [Hg | [<- | []]].
           ++ exists g, q. repeat split; assumption.
           ++ assert (q = p) by congruence. subst q.
              exists g1, p. repeat split; assumption.
    + injection Hstep as Hret' Hurl'. rewrite Hurl'.
      assert (Hkeys' : liveKeysOf M w (l ++ [m]) (urllist a ++ [gvfsKey M p])).
      { intros k. rewrite list_contains_snoc. split.
        - intros Hk. apply orb_prop in Hk as [Hk | Hk].
          + apply Hkeys in Hk as (g & q & Hg & Hl & Hq). exists g, q.
            repeat split; auto. apply in_or_app. left. exact Hg.
          + apply String.eqb_eq in Hk. exists m, p.
            repeat split; auto. apply in_or_app. right. left. reflexivity.
        - intros (g & q & Hg & Hl & Hk).
          apply in_app_or in Hg as [Hg | [<- | []]].
          + apply orb_true_intro. left. apply Hkeys. exists g, q.
            repeat split; assumption.
          + assert (q = p) by congruence. subst q. rewrite <- Hk.
            rewrite String.eqb_refl. apply orb_true_r. }
      assert (Hfresh : ~ In (GvfsMountEntry p) added).
      { intros Habs. apply Hin in Habs as (q & Hq & _ & g & Hg & Hl).
        injection Hq as <-.
        assert (list_contains (urllist a) (gvfsKey M p) = true)
          by (apply Hkeys; exists g, p; repeat split; assumption).
        congruence. }
      destruct (exists_ w (GvfsMountEntry p)) eqn:Hex.
      * exists (added ++ [GvfsMountEntry p]). rewrite Hret', Hret.
        split; [symmetry; apply app_assoc|].
        split; [split|exact Hkeys'].
        -- apply List.NoDup_app; [exact Hnd | repeat constructor; intros [] |].
           intros e He [<- | []]. exact (Hfresh He).
        -- intros e. split.
           ++ intros He. apply in_app_or in He as [He | [<- | []]].
              ** apply Hin in He as (q & Hq & Hqe & g & Hg & Hl). exists q.
                 repeat split; auto. exists g.
                 split; [apply in_or_app; left; exact Hg | exact Hl].
              ** exists p. repeat split; auto. exists m.
                 split; [apply in_or_app; right; left; reflexivity | exact Hm].
           ++ intros (q & -> & Hqe & g & Hg & Hl). apply in_or_app.
              apply in_app_or in Hg as [Hg | [<- | []]].
              ** left. apply Hin. exists q. repeat split; auto.
                 exists g. split; assumption.
              ** right. left. congruence.
      * exists added. rewrite Hret'. split; [exact Hret|].
        split; [split; [exact Hnd|]|exact Hkeys'].
        intros e. rewrite Hin. split.
        -- intros (q & He & Hqe & g & Hg & Hl). exists q. repeat split; auto.
           exists g. split; [apply in_or_app; left; exact Hg | exact Hl].
        -- intros (q & He & Hqe & g & Hg & Hl). exists q. repeat split; auto.
           apply in_app_or in Hg as [Hg | [<- | []]].
           ++ exists g. split; assumption.
           ++ assert (q = p) by congruence. subst q. congruence.
Qed.

Lemma filter_none {A : Type} (f : A -> bool) (l : list A) :
  (forall x, In x l -> f x = false) -> List.filter f l = [].
Proof.
  induction l as [|x l IH]; intros H; [reflexivity|].
  cbn [List.filter]. rewrite (H x) by (left; reflexivity).
  apply IH. intros y Hy. apply H. right. exact Hy.
Qed.

Lemma filter_all {A : Type} (f : A -> bool) (l : list A) :
  (forall x, In x l -> f x = true) -> List.filter f l = l.
Proof.
  intros H. apply forallb_filter_id. apply forallb_forall. exact H.
Qed.

Lemma liveKeys_mounted (keys : list string) :
  liveKeysOf M w (getMounts w) keys ->
  forall key : string, list_contains keys key = mountedKey M w key.
Proof.
  intros Hkeys key. unfold mountedKey.
  destruct (existsb _ (getMounts w)) eqn:Hex.
  - apply existsb_exists in Hex as (g & Hg & Hl). apply Hkeys.
    destruct (listedMount M w g) as [p|] eqn:Hp; [|discriminate].
    apply String.eqb_eq in Hl. exists g, p. repeat split; assumption.
  - destruct (list_contains keys key) eqn:Hk; [|reflexivity].
    apply Hkeys in Hk as (g & p & Hg & Hl & Hp).
    assert (existsb (fun gvfsmp =>
              match listedMount M w gvfsmp with
              | Some rootPath => String.eqb (gvfsKey M rootPath) key
              | None => false
              end) (getMounts w) = true).
    { apply existsb_exists. exists g. split; [exact Hg|].
      rewrite Hl. apply String.eqb_eq. exact Hp. }
    congruence.
Qed.

Lemma liveKeys_offline (keys : list string) :
  liveKeysOf M w (getMounts w) keys ->
  map StashedRemoteEntry (List.filter (shownStashed M w keys) (remoteMounts w)) =
    offlineEntries M w.
Proof.
  intros Hkeys. unfold offlineEntries. f_equal.
  apply List.filter_ext. intros mount. unfold shownStashed, offlineShown.
  rewrite (liveKeys_mounted keys Hkeys). reflexivity.
Qed.

(** The result of [getChildren] for the virtual root, group by group. *)
Lemma getChildren_parts (event : DFMGetChildrensEvent) :
  isVirtualRoot M (url event) = true ->
  exists live : list RootEntry,
    liveEntriesOf M w (getMounts w) live /\
    fst (getChildren M w event) =
      userDirEntries w ++ diskEntries M w ++
      (if canconst event then []
       else live ++
            (if GA_AlwaysShowOfflineRemoteConnections w
             then offlineEntries M w else [])).
Proof.
  intros Hroot. unfold getChildren. unfold isVirtualRoot in Hroot.
  apply andb_prop in Hroot as [Hs Hp]. rewrite Hs, Hp. cbn [negb orb].
  pose proof (userDirLoop_ret udir ([], [])) as Hdirs.
  destruct (fold_left (userDirStep w) udir ([], [])) as [ret0 log0].
  cbn [fst app] in Hdirs.
  match goal with
  | |- context [fold_left (blockStep M w ?h ?pl) (blockDevices w) ?acc] =>
      pose proof (blockLoop_ret (blockDevices w) acc) as Hdisks;
      cbv zeta in Hdisks;
      set (b := fold_left (blockStep M w h pl) (blockDevices w) acc) in *
  end.
  cbn [blk_ret] in Hdisks.
  match goal with
  | |- context [fold_left (mountStep M w) (getMounts w) (mkMountAcc ?r [] ?lg)] =>
      destruct (mountLoop_live r lg (getMounts w)) as (live & Hlive & Hent & Hkeys);
      set (m := fold_left (mountStep M w) (getMounts w) (mkMountAcc r [] lg)) in *
  end.
  exists live. split; [exact Hent|].
  destruct (canconst event).
  - cbn [fst]. rewrite Hdisks, Hdirs, app_nil_r. reflexivity.
  - destruct (GA_AlwaysShowOfflineRemoteConnections w).
    + match goal with
      | |- context [fold_left (stashedStep M w ?keys) (remoteMounts w) ?acc] =>
          pose proof (stashedLoop_ret keys (remoteMounts w) acc) as Hst;
          destruct (fold_left (stashedStep M w keys) (remoteMounts w) acc)
            as [ret1 log1]
      end.
      cbn [fst] in *. rewrite Hst, Hlive, Hdisks, Hdirs.
      rewrite (liveKeys_offline _ Hkeys), <- !app_assoc. reflexivity.
    + cbn [fst]. rewrite Hlive, Hdisks, Hdirs, app_nil_r, <- !app_assoc.
      reflexivity.
Qed.

End Enumeration.

Lemma userDirEntries_kind (w : World) (e : RootEntry) :
  In e (userDirEntries w) -> exists d, e = UserDirEntry d.
Proof.
  unfold userDirEntries. intros H. apply List.filter_In in H as [H _].
  apply in_map_iff in H as (d & <- & _). exists d. reflexivity.
Qed.

Lemma diskEntries_kind (M : Macros) (w : World) (e : RootEntry) :
  In e (diskEntries M w) -> exists dev, e = UDisksEntry dev.
Proof.
  unfold diskEntries. intros H. apply in_map_iff in H as (blks & <- & _).
  eexists. reflexivity.
Qed.

Lemma liveEntries_kind (M : Macros) (w : World) (mounts : list DGioMount)
    (live : list RootEntry) (e : RootEntry) :
  liveEntriesOf M w mounts live -> In e live -> exists p, e = GvfsMountEntry p.
Proof.
  intros [_ H] He. apply H in He as (p & -> & _). exists p. reflexivity.
Qed.

Lemma offlineEntries_kind (M : Macros) (w : World) (e : RootEntry) :
  In e (offlineEntries M w) -> exists mount, e = StashedRemoteEntry mount.
Proof.
  unfold offlineEntries. intros H. apply in_map_iff in H as (r & <- & _).
  exists r. reflexivity.
Qed.

(** Filters by kind over the groups of an enumeration. *)
Ltac by_kind :=
  intros ? ?;
  match goal with
  | H : In _ (userDirEntries _) |- _ => apply userDirEntries_kind in H as [? ->]
  | H : In _ (diskEntries _ _) |- _ => apply diskEntries_kind in H as [? ->]
  | H : In _ (offlineEntries _ _) |- _ => apply offlineEntries_kind in H as [? ->]
  | L : liveEntriesOf _ _ _ ?l, H : In _ ?l |- _ =>
      apply (liveEntries_kind _ _ _ _ _ L) in H as [? ->]
  end; reflexivity.

Ltac filter_kinds :=
  rewrite ?List.filter_app;
  repeat match goal with
         | |- context [List.filter ?f ?l] =>
             first [ rewrite (filter_all f l) by by_kind
                   | rewrite (filter_none f l) by by_kind ]
         end;
  cbn [List.filter app]; rewrite ?app_nil_r.

(** X1.  An enumeration of the virtual root lists its entries group by
    group: the user directories, then the block devices, then the live
    mounts, then the stashed mounts.  The user directories are the
    well-known ones that exist, in their fixed order, and a request with
    [canconst] set lists no mount of either kind. *)
Theorem getChildren_grouped :
  forall (M : Macros) (w : World) (event : DFMGetChildrensEvent),
    isVirtualRoot M (url event) = true ->
    let ret := fst (getChildren M w event) in
    ret = List.filter isUserDirEntry ret ++ List.filter isUDisksEntry ret ++
          List.filter isGvfsMountEntry ret ++ List.filter isStashedRemoteEntry ret /\
    List.filter isUserDirEntry ret =
      List.filter (exists_ w) (map UserDirEntry udir) /\
    (canconst event = true ->
       List.filter isGvfsMountEntry ret = [] /\
       List.filter isStashedRemoteEntry ret = []).
Proof.
  intros M w event Hroot ret. subst ret.
  destruct (getChildren_parts M w event Hroot) as (live & Hlive & ->).
  destruct (canconst event), (GA_AlwaysShowOfflineRemoteConnections w);
    filter_kinds; repeat split; try reflexivity; try discriminate;
    rewrite <- ?app_assoc; reflexivity.
Qed.

Lemma getChildren_grouped_witness :
  fst (getChildren upstream deskWorld rootRequest) =
    [UserDirEntry "desktop"; UserDirEntry "music"; UDisksEntry "sdb1";
     GvfsMountEntry sharePath; StashedRemoteEntry ftpRecord] /\
  List.filter isUserDirEntry (fst (getChildren upstream deskWorld rootRequest)) =
    [UserDirEntry "desktop"; UserDirEntry "music"].
Proof.
  split; [vm_compute; reflexivity|].
  destruct (getChildren_grouped upstream deskWorld rootRequest) as (_ & H & _);
    [reflexivity|].
  rewrite H. vm_compute. reflexivity.
Defined.

(** X2.  The block devices of an enumeration, in the order of the device
    list: one entry, named by the device node without its [/dev/] prefix,
    for each device that [ignoreBlkDevice] lets through and that is not a
    hidden system disk.  A system disk is hidden by the managed list when
    the group policy holds one (the boolean switch is then not looked at),
    and by the boolean switch otherwise. *)
Theorem getChildren_disks :
  forall (M : Macros) (w : World) (event : DFMGetChildrensEvent),
    isVirtualRoot M (url event) = true ->
    List.filter isUDisksEntry (fst (getChildren M w event)) =
      map (diskEntry w) (List.filter (listedDevice M w) (blockDevices w)).
Proof.
  intros M w event Hroot.
  destruct (getChildren_parts M w event Hroot) as (live & Hlive & ->).
  destruct (canconst event), (GA_AlwaysShowOfflineRemoteConnections w);
    filter_kinds; reflexivity.
Qed.

Lemma getChildren_disks_witness :
  List.filter isUDisksEntry (fst (getChildren upstream deskWorld rootRequest)) =
    [UDisksEntry "sdb1"].
Proof.
  rewrite (getChildren_disks upstream deskWorld rootRequest); [|reflexivity].
  vm_compute. reflexivity.
Defined.

(** X3.  The live mounts of an enumeration: no mount entry is listed
    twice, and a mount entry is listed exactly when the request is a full
    one, the entry exists, and its root path is the root path of a mount
    that the loop does not skip (not a UDisks2 volume, not a GUnixMount,
    with a root file, not a burn address, not a native block device under
    /media). *)
Theorem getChildren_mounts :
  forall (M : Macros) (w : World) (event : DFMGetChildrensEvent),
    isVirtualRoot M (url event) = true ->
    let ret := fst (getChildren M w event) in
    List.NoDup (List.filter isGvfsMountEntry ret) /\
    forall rootPath : string,
      In (GvfsMountEntry rootPath) ret <->
      canconst event = false /\
      exists_ w (GvfsMountEntry rootPath) = true /\
      exists gvfsmp : DGioMount,
        In gvfsmp (getMounts w) /\ listedMount M w gvfsmp = Some rootPath.
Proof.
  intros M w event Hroot ret. subst ret.
  destruct (getChildren_parts M w event Hroot) as (live & Hlive & ->).
  assert (Hin : forall p, In (GvfsMountEntry p) live <->
            exists_ w (GvfsMountEntry p) = true /\
            exists gvfsmp, In gvfsmp (getMounts w) /\
                           listedMount M w gvfsmp = Some p).
  { intros p. rewrite (proj2 Hlive). split.
    - intros (q & Hq & Hex & Hm). injection Hq as ->. split; assumption.
    - intros [Hex Hm]. exists p. repeat split; assumption. }
  assert (Hother : forall p l,
            (forall e, In e l -> isGvfsMountEntry e = false) ->
            ~ In (GvfsMountEntry p) l).
  { intros p l Hl Hp. apply Hl in Hp. discriminate. }
  assert (Hu : forall p, ~ In (GvfsMountEntry p) (userDirEntries w))
    by (intros p; apply Hother; by_kind).
  assert (Hd : forall p, ~ In (GvfsMountEntry p) (diskEntries M w))
    by (intros p; apply Hother; by_kind).
  assert (Ho : forall p, ~ In (GvfsMountEntry p) (offlineEntries M w))
    by (intros p; apply Hother; by_kind).
  split.
  - destruct (canconst event), (GA_AlwaysShowOfflineRemoteConnections w);
      filter_kinds; try constructor; exact (proj1 Hlive).
  - intros p. rewrite !in_app_iff. split.
    + intros [H | [H | H]]; [destruct (Hu _ H) | destruct (Hd _ H) |].
      destruct (canconst event); [destruct H|]. split; [reflexivity|].
      apply Hin. apply in_app_or in H as [H | H]; [exact H|].
      destruct (GA_AlwaysShowOfflineRemoteConnections w);
        [destruct (Ho _ H) | destruct H].
    + intros (-> & H). right. right. apply in_or_app. left. apply Hin. exact H.
Qed.

Lemma getChildren_mounts_witness :
  List.NoDup (List.filter isGvfsMountEntry
                (fst (getChildren upstream deskWorld rootRequest))) /\
  In (GvfsMountEntry sharePath) (fst (getChildren upstream deskWorld rootRequest)).
Proof.
  destruct (getChildren_mounts upstream deskWorld rootRequest) as [Hnd Hin];
    [reflexivity|].
  split; [exact Hnd|]. apply Hin. split; [reflexivity|]. split; [reflexivity|].
  exists shareMount. split; [left; reflexivity | vm_compute; reflexivity].
Defined.

(** X4.  The stashed mounts of an enumeration, in the order of the stash:
    none unless the request is a full one and the switch 'always show
    offline connections' is on; then one entry for each record that has a
    key, protocol and host, the last two not empty, and whose key is not
    the key of a mount that the loop over the mounts did not skip, and
    none at all in the aggregation mode. *)
Theorem getChildren_offline :
  forall (M : Macros) (w : World) (event : DFMGetChildrensEvent),
    isVirtualRoot M (url event) = true ->
    List.filter isStashedRemoteEntry (fst (getChildren M w event)) =
      if canconst event || negb (GA_AlwaysShowOfflineRemoteConnections w) then []
      else map StashedRemoteEntry
             (List.filter (offlineShown M w) (remoteMounts w)).
Proof.
  intros M w event Hroot.
  destruct (getChildren_parts M w event Hroot) as (live & Hlive & ->).
  destruct (canconst event), (GA_AlwaysShowOfflineRemoteConnections w);
    filter_kinds; reflexivity.
Qed.

Lemma getChildren_offline_witness :
  List.filter isStashedRemoteEntry
    (fst (getChildren upstream deskWorld rootRequest)) =
    [StashedRemoteEntry ftpRecord].
Proof.
  rewrite (getChildren_offline upstream deskWorld rootRequest); [|reflexivity].
  vm_compute. reflexivity.
Defined.

(** ** The system disks *)

Section SystemDisks.

Variable M : Macros.
Variable w : World.

Lemma systemDiskLoop (devices : list string) :
  forall tempList : list string,
    fold_left (systemDiskStep w) devices tempList =
      tempList ++ systemDisksOf w devices.
Proof.
  unfold systemDisksOf.
  induction devices as [|blks devices IH]; intros tempList.
  - cbn. symmetry. apply app_nil_r.
  - cbn [fold_left List.filter]. rewrite IH. unfold systemDiskStep.
    destruct (ignoreBlkDevice w blks _ _); cbn [negb andb]; [reflexivity|].
    destruct (hintSystem (createBlockDevice w blks)); [|reflexivity].
    cbn [map]. rewrite <- app_assoc. reflexivity.
Qed.

(** What the loop over the block devices collects in [hintSystemDisks]
    when the policy layer is compiled in: the system disks that the managed
    list does not hide. *)
Lemma blockLoop_disks (hasSet : bool) (policy : list string)
    (devices : list string) :
  macro_DTK_POLICY_SUPPORT M = true ->
  forall acc : BlockAcc,
    hintSystemDisks (fold_left (blockStep M w hasSet policy) devices acc) =
      hintSystemDisks acc ++
      List.filter (fun uuid => negb (hasSet && list_contains policy uuid))
        (systemDisksOf w devices).
Proof.
  intros Hdtk. unfold systemDisksOf.
  induction devices as [|blks devices IH]; intros acc.
  - cbn. symmetry. apply app_nil_r.
  - cbn [fold_left List.filter]. rewrite IH. unfold blockStep. rewrite Hdtk.
    destruct (ignoreBlkDevice w blks _ _); cbn [negb andb hintSystemDisks];
      [reflexivity|].
    destruct (hintSystem (createBlockDevice w blks)), hasSet;
      cbn [negb andb hintSystemDisks map List.filter];
      try reflexivity.
    + destruct (list_contains policy _); cbn [hintSystemDisks negb];
        [reflexivity|]. rewrite <- app_assoc. reflexivity.
    + destruct (GA_HiddenSystemPartition w); cbn [andb hintSystemDisks];
        rewrite <- app_assoc; reflexivity.
    + destruct (GA_HiddenSystemPartition w); reflexivity.
Qed.

Lemma blockLoop_no_disks (hasSet : bool) (policy : list string)
    (devices : list string) :
  macro_DTK_POLICY_SUPPORT M = false ->
  forall acc : BlockAcc,
    hintSystemDisks (fold_left (blockStep M w hasSet policy) devices acc) =
      hintSystemDisks acc.
Proof.
  intros Hdtk. induction devices as [|blks devices IH]; intros acc;
    [reflexivity|].
  cbn [fold_left]. rewrite IH. unfold blockStep. rewrite Hdtk.
  repeat match goal with
         | |- context [if ?b then _ else _] => destruct b
         end; reflexivity.
Qed.

Lemma forallb_unhidden (policy : list string) (disks : list string) :
  forallb (list_contains policy)
    (List.filter (fun uuid => negb (true && list_contains policy uuid)) disks) =
    forallb (list_contains policy) disks.
Proof.
  induction disks as [|u disks IH]; [reflexivity|].
  cbn [List.filter forallb andb].
  destruct (list_contains policy u) eqn:Hu; cbn [negb andb]; [exact IH|].
  cbn [forallb]. rewrite Hu. reflexivity.
Qed.

End SystemDisks.

(** ** What an enumeration does beside reading *)

Section Actions.

Variable M : Macros.
Variable w : World.

(** A kind of effects that are not queries. *)
Variable kind : Effect -> bool.
Hypothesis kind_not_query : forall e : Effect, isQuery e = true -> kind e = false.

Lemma filter_snoc_query (log : list Effect) (e : Effect) :
  isQuery e = true ->
  List.filter kind (log ++ [e]) = List.filter kind log.
Proof.
  intros H. rewrite List.filter_app. cbn [List.filter].
  rewrite (kind_not_query e H). apply app_nil_r.
Qed.

Lemma userDirLoop_actions (dirs : list string) :
  forall acc : list RootEntry * list Effect,
    List.filter kind (snd (fold_left (userDirStep w) dirs acc)) =
      List.filter kind (snd acc).
Proof.
  induction dirs as [|d dirs IH]; intros [ret log]; [reflexivity|].
  cbn [fold_left]. rewrite IH. unfold userDirStep. cbn [snd].
  apply filter_snoc_query. reflexivity.
Qed.

Lemma blockStep_actions (hasSet : bool) (policy : list string) (acc : BlockAcc)
    (blks : string) :
  List.filter kind (blk_log (blockStep M w hasSet policy acc blks)) =
    List.filter kind (blk_log acc).
Proof.
  unfold blockStep.
  repeat match goal with
         | |- context [if ?b then _ else _] => destruct b
         end;
    cbn [blk_log]; rewrite ?filter_snoc_query by reflexivity; reflexivity.
Qed.

Lemma blockLoop_actions (hasSet : bool) (policy : list string)
    (devices : list string) :
  forall acc : BlockAcc,
    List.filter kind
      (blk_log (fold_left (blockStep M w hasSet policy) devices acc)) =
      List.filter kind (blk_log acc).
Proof.
  induction devices as [|blks devices IH]; intros acc; [reflexivity|].
  cbn [fold_left]. rewrite IH. apply blockStep_actions.
Qed.

Lemma volumeLoop_actions (volumes : list DGioVolume) :
  forall log : list Effect,
    List.filter kind (fold_left volumeStep volumes log) =
      List.filter kind log ++
      List.filter kind (map MountVolume (List.filter autoMounted volumes)).
Proof.
  induction volumes as [|v volumes IH]; intros log.
  - cbn. symmetry. apply app_nil_r.
  - cbn [fold_left List.filter]. rewrite IH. unfold volumeStep.
    fold (autoMounted v). destruct (autoMounted v); [|reflexivity].
    rewrite List.filter_app. cbn [map List.filter].
    destruct (kind (MountVolume v)); rewrite <- app_assoc; reflexivity.
Qed.

Lemma mountStep_actions (acc : MountAcc) (gvfsmp : DGioMount) :
  List.filter kind (mnt_log (mountStep M w acc gvfsmp)) =
    List.filter kind (mnt_log acc).
Proof.
  unfold mountStep.
  destruct (match getVolume gvfsmp with Some _ => _ | None => _ end);
    [reflexivity|].
  destruct (String.eqb (mountClass gvfsmp) _); [reflexivity|].
  destruct (getRootFile gvfsmp) as [rootFile|]; [|reflexivity].
  destruct (String.eqb _ (macro_BURN_SCHEME M)); [reflexivity|].
  destruct (startsWith (uri rootFile) _); cbn [andb];
    repeat match goal with
           | |- context [if ?b then _ else _] => destruct b
           end;
    cbn [mnt_log]; rewrite ?filter_snoc_query by reflexivity; reflexivity.
Qed.

Lemma mountLoop_actions (mounts : list DGioMount) :
  forall acc : MountAcc,
    List.filter kind (mnt_log (fold_left (mountStep M w) mounts acc)) =
      List.filter kind (mnt_log acc).
Proof.
  induction mounts as [|m mounts IH]; intros acc; [reflexivity|].
  cbn [fold_left]. rewrite IH. apply mountStep_actions.
Qed.

Lemma stashedStep_actions (keys : list string)
    (acc : list RootEntry * list Effect) (mount : QVariantMap) :
  List.filter kind (snd (stashedStep M w keys acc mount)) =
    List.filter kind (snd acc).
Proof.
  destruct acc as [ret log]. unfold stashedStep.
  repeat match goal with
         | |- context [if ?b then _ else _] => destruct b
         end;
    cbn [snd]; rewrite ?filter_snoc_query by reflexivity; reflexivity.
Qed.

Lemma stashedLoop_actions (keys : list string) (mounts : list QVariantMap) :
  forall acc : list RootEntry * list Effect,
    List.filter kind (snd (fold_left (stashedStep M w keys) mounts acc)) =
      List.filter kind (snd acc).
Proof.
  induction mounts as [|m mounts IH]; intros acc; [reflexivity|].
  cbn [fold_left]. rewrite IH. apply stashedStep_actions.
Qed.

(** The effects of an enumeration that are not queries: the volumes
    mounted, then, for a full enumeration, the write-back of the policy. *)
Lemma getChildren_actions (event : DFMGetChildrensEvent) :
  let hasSet := macro_DTK_POLICY_SUPPORT M && policy_containKey_DISK_HIDDEN w in
  let policy := if hasSet then policy_getValue_DISK_HIDDEN w else [] in
  List.filter kind (snd (getChildren M w event)) =
    if isVirtualRoot M (url event) then
      List.filter kind
        (map MountVolume (List.filter autoMounted (getVolumes w))) ++
      (if canconst event then []
       else List.filter kind
              (syncPolicy M hasSet policy
                 (List.filter
                    (fun uuid => negb (hasSet && list_contains policy uuid))
                    (if macro_DTK_POLICY_SUPPORT M
                     then systemDisksOf w (blockDevices w) else []))))
    else [].
Proof.
  cbv zeta. unfold getChildren, isVirtualRoot.
  destruct (String.eqb (scheme (url event)) _); cbn [negb orb andb];
    [|reflexivity].
  destruct (String.eqb (path (url event)) "/"); cbn [negb orb andb];
    [|reflexivity].
  pose proof (userDirLoop_actions udir ([], [])) as Hu.
  destruct (fold_left (userDirStep w) udir ([], [])) as [ret0 log0].
  cbn [snd List.filter] in Hu.
  set (hasSet := macro_DTK_POLICY_SUPPORT M && policy_containKey_DISK_HIDDEN w).
  set (policy := if hasSet then policy_getValue_DISK_HIDDEN w else []).
  set (log1 := (if macro_DTK_POLICY_SUPPORT M then log0 ++ [QueryGroupPolicy]
                else log0) ++ [QueryBlockDevices]).
  assert (H1 : List.filter kind log1 = []).
  { subst log1. rewrite filter_snoc_query by reflexivity.
    destruct (macro_DTK_POLICY_SUPPORT M);
      rewrite ?filter_snoc_query by reflexivity; exact Hu. }
  pose proof (blockLoop_actions hasSet policy (blockDevices w)
                (mkBlockAcc ret0 [] log1)) as Hb.
  assert (Hd : hintSystemDisks
                 (fold_left (blockStep M w hasSet policy) (blockDevices w)
                    (mkBlockAcc ret0 [] log1)) =
               List.filter
                 (fun uuid => negb (hasSet && list_contains policy uuid))
                 (if macro_DTK_POLICY_SUPPORT M
                  then systemDisksOf w (blockDevices w) else [])).
  { destruct (macro_DTK_POLICY_SUPPORT M) eqn:Hdtk.
    - apply (blockLoop_disks M w hasSet policy (blockDevices w) Hdtk
               (mkBlockAcc ret0 [] log1)).
    - apply (blockLoop_no_disks M w hasSet policy (blockDevices w) Hdtk
               (mkBlockAcc ret0 [] log1)). }
  set (b := fold_left (blockStep M w hasSet policy) (blockDevices w)
              (mkBlockAcc ret0 [] log1)) in *.
  cbn [blk_log] in Hb. rewrite H1 in Hb.
  pose proof (volumeLoop_actions (getVolumes w) (blk_log b ++ [QueryVolumes]))
    as Hv.
  rewrite filter_snoc_query in Hv by reflexivity. rewrite Hb in Hv.
  cbn [app] in Hv.
  set (log2 := fold_left volumeStep (getVolumes w) (blk_log b ++ [QueryVolumes]))
    in *.
  destruct (canconst event); cbn [snd];
    [rewrite Hv; symmetry; apply app_nil_r|].
  pose proof (mountLoop_actions (getMounts w)
                (mkMountAcc (blk_ret b) [] (log2 ++ [QueryMounts]))) as Hm.
  cbn [mnt_log] in Hm. rewrite filter_snoc_query in Hm by reflexivity.
  rewrite Hv in Hm.
  set (m := fold_left (mountStep M w) (getMounts w)
              (mkMountAcc (blk_ret b) [] (log2 ++ [QueryMounts]))) in *.
  assert (Hs : List.filter kind
                 (snd (if GA_AlwaysShowOfflineRemoteConnections w
                       then fold_left (stashedStep M w (urllist m)) (remoteMounts w)
                              (mnt_ret m,
                               (mnt_log m ++
                                [ReadAttribute AlwaysShowOfflineRemoteConnections])
                               ++ [QueryRemoteMounts])
                       else (mnt_ret m,
                             mnt_log m ++
                             [ReadAttribute AlwaysShowOfflineRemoteConnections])))
               = List.filter kind
                   (map MountVolume (List.filter autoMounted (getVolumes w)))).
  { destruct (GA_AlwaysShowOfflineRemoteConnections w).
    - rewrite stashedLoop_actions. cbn [snd].
      rewrite !filter_snoc_query by reflexivity. exact Hm.
    - cbn [snd]. rewrite filter_snoc_query by reflexivity. exact Hm. }
  destruct (if GA_AlwaysShowOfflineRemoteConnections w then _ else _)
    as [ret3 log3].
  cbn [snd] in Hs |- *. rewrite List.filter_app, Hs, Hd. reflexivity.
Qed.

End Actions.

Lemma not_query_write (e : Effect) : isQuery e = true -> isSettingsWrite e = false.
Proof. destruct e; cbn; congruence. Qed.

Lemma not_query_mount (e : Effect) : isQuery e = true -> isMountVolume e = false.
Proof. destruct e; cbn; congruence. Qed.

(** X5.  The settings writes of an enumeration.  [getChildren] writes to
    the settings store only at its end, once, and only for a full
    enumeration of the virtual root under a group policy that holds the
    managed list of hidden disks: the boolean switch 'hide system
    partitions' is then set to whether the list is not empty and holds
    every disk of [systemDiskList].  A request with [canconst] set, or
    without a managed list, writes nothing. *)
Theorem getChildren_policy_sync :
  forall (M : Macros) (w : World) (event : DFMGetChildrensEvent),
    List.filter isSettingsWrite (snd (getChildren M w event)) =
      if isVirtualRoot M (url event) && negb (canconst event) &&
         macro_DTK_POLICY_SUPPORT M && policy_containKey_DISK_HIDDEN w
      then [WriteAttribute HiddenSystemPartition
              (negb (isEmptyList (policy_getValue_DISK_HIDDEN w)) &&
               forallb (list_contains (policy_getValue_DISK_HIDDEN w))
                 (systemDiskList w))]
      else [].
Proof.
  intros M w event.
  rewrite (getChildren_actions M w isSettingsWrite not_query_write event).
  destruct (isVirtualRoot M (url event)); cbn [andb]; [|reflexivity].
  assert (Hvol : forall l, List.filter isSettingsWrite (map MountVolume l) = [])
    by (induction l; [reflexivity | assumption]).
  rewrite Hvol. cbn [app].
  destruct (canconst event); cbn [negb andb]; [reflexivity|].
  unfold syncPolicy.
  destruct (macro_DTK_POLICY_SUPPORT M); cbn [andb]; [|reflexivity].
  destruct (policy_containKey_DISK_HIDDEN w); [|reflexivity].
  unfold systemDiskList. rewrite systemDiskLoop, forallb_unhidden. cbn [app].
  destruct (policy_getValue_DISK_HIDDEN w); reflexivity.
Qed.

(** X6.  An enumeration of the virtual root mounts volumes: each volume
    of an MTP, GPhoto2 or Afc monitor that has no mount is mounted, in
    the order of the volume list, also for a request with [canconst] set;
    no other volume is mounted, and none for another address. *)
Theorem getChildren_mounts_volumes :
  forall (M : Macros) (w : World) (event : DFMGetChildrensEvent),
    List.filter isMountVolume (snd (getChildren M w event)) =
      if isVirtualRoot M (url event)
      then map MountVolume
             (List.filter
                (fun gvfsvol =>
                   isAutoMountMonitor (volumeMonitorName gvfsvol) &&
                   negb (getMount gvfsvol))
                (getVolumes w))
      else [].
Proof.
  intros M w event.
  rewrite (getChildren_actions M w isMountVolume not_query_mount event).
  destruct (isVirtualRoot M (url event)); [|reflexivity].
  assert (Hvol : forall l, List.filter isMountVolume (map MountVolume l) =
                           map MountVolume l)
    by (induction l as [|v l IH]; [reflexivity | cbn; f_equal; exact IH]).
  rewrite Hvol. fold autoMounted.
  destruct (canconst event); [apply app_nil_r|].
  unfold syncPolicy.
  repeat match goal with
         | |- context [if ?b then _ else _] => destruct b
         end; apply app_nil_r.
Qed.

(** X7.  A rename goes either to the alias store or to the device,
    never to both: for an entry that can take an alias no device is
    unmounted and no label is set, and for any other entry nothing is
    written to the settings and no ghost signal is raised; an entry that
    cannot be renamed is left alone altogether. *)
Theorem renameFile_separation :
  forall (M : Macros) (w : World) (event : DFMRenameEvent),
    let fi := rootFileInfo w (fromUrl event) in
    let log := snd (renameFile M w event) in
    (canSetAlias fi = true -> List.filter isDeviceCall log = []) /\
    (canSetAlias fi = false ->
     List.filter isSettingsWrite log = [] /\
     forall (t : DUrl) (sig : SignalType1) (u : DUrl),
       ~ In (GhostSignal t sig u) log) /\
    (canRename fi = false -> renameFile M w event = (false, [])).
Proof.
  intros M w event. cbv zeta. unfold renameFile.
  destruct (canRename (rootFileInfo w (fromUrl event))) eqn:Hren; cbn [negb].
  2: { repeat split; try reflexivity. intros t sig u []. }
  destruct (canSetAlias (rootFileInfo w (fromUrl event))) eqn:Halias.
  - split; [|split; discriminate]. intros _.
    unfold setLocalDiskAlias. rewrite Hren. cbn [negb orb].
    destruct (isEmpty (getUUID _)); [reflexivity|].
    destruct (aliasLoop M _ _ _ _) as [items found]. reflexivity.
  - split; [discriminate|]. split; [|discriminate]. intros _.
    repeat match goal with
           | |- context [if ?b then _ else _] => destruct b
           end; cbn [snd List.filter isSettingsWrite In];
      (split; [reflexivity|]); intros t sig u H;
      repeat (destruct H as [H|H]; [discriminate|]); exact H.
Qed.

Lemma renameFile_separation_witness :
  List.filter isDeviceCall (snd (renameFile upstream aliasWorld renameToMusic)) = [].
Proof.
  apply (renameFile_separation upstream aliasWorld renameToMusic). reflexivity.
Defined.

(** ** The alias store *)

Section AliasStore.

Variable M : Macros.

Local Abbreviation UUID := (macro_DISKALIAS_ITEM_UUID M).
Local Abbreviation NAME := (macro_DISKALIAS_ITEM_NAME M).
Local Abbreviation ALIAS := (macro_DISKALIAS_ITEM_ALIAS M).

(** The record as case [b] leaves it. *)
Local Abbreviation covered alias name m :=
  (<[ALIAS := alias]> (<[NAME := name]> m) : QVariantMap).

Lemma hasUuid_true (uuid : string) (m : QVariantMap) :
  hasUuid M uuid m = true <-> value m UUID = uuid.
Proof. unfold hasUuid. apply String.eqb_eq. Qed.

Lemma hasUuid_false (uuid : string) (m : QVariantMap) :
  hasUuid M uuid m = false <-> value m UUID <> uuid.
Proof. unfold hasUuid. apply String.eqb_neq. Qed.

Lemma value_insert_eq (m : QVariantMap) (k v : string) :
  value (<[k := v]> m) k = v.
Proof. unfold value. rewrite lookup_insert_eq. reflexivity. Qed.

Lemma value_insert_ne (m : QVariantMap) (k k' v : string) :
  k <> k' -> value (<[k := v]> m) k' = value m k'.
Proof. intros H. unfold value. rewrite lookup_insert_ne by exact H. reflexivity. Qed.

Lemma covered_uuid (alias name : string) (m : QVariantMap) :
  UUID <> NAME -> UUID <> ALIAS ->
  value (covered alias name m) UUID = value m UUID.
Proof.
  intros Hn Ha. rewrite !value_insert_ne by congruence. reflexivity.
Qed.

Lemma newAliasRecord_uuid (uuid alias name : string) :
  UUID <> NAME -> UUID <> ALIAS ->
  value (newAliasRecord M uuid alias name) UUID = uuid.
Proof.
  intros Hn Ha. unfold newAliasRecord.
  rewrite !value_insert_ne by congruence. apply value_insert_eq.
Qed.

Lemma covered_twice (alias name : string) (m : QVariantMap) :
  covered alias name (covered alias name m) = covered alias name m.
Proof.
  apply map_eq. intros k. rewrite !lookup_insert.
  repeat case_decide; reflexivity.
Qed.

(** The two ways the loop ends. *)
Lemma aliasLoop_cases (uuid alias name : string) (items : list QVariantMap) :
  (List.filter (hasUuid M uuid) items = [] /\
   aliasLoop M uuid alias name items = (items, false)) \/
  exists (before : list QVariantMap) (m : QVariantMap) (after : list QVariantMap),
    items = before ++ m :: after /\
    List.filter (hasUuid M uuid) before = [] /\
    value m UUID = uuid /\
    aliasLoop M uuid alias name items =
      (if isEmpty alias then before ++ after
       else before ++ covered alias name m :: after, true).
Proof.
  induction items as [|m items IH].
  - left. split; reflexivity.
  - cbn [aliasLoop List.filter]. unfold hasUuid at 1 3.
    destruct (String.eqb_spec (value m UUID) uuid) as [E|E].
    + right. exists [], m, items. cbn [app List.filter].
      repeat split; [exact E|]. destruct (isEmpty alias); reflexivity.
    + destruct IH as [[Hf ->] | (before & m' & after & -> & Hb & Hm & ->)].
      * left. split; [exact Hf | reflexivity].
      * right. exists (m :: before), m', after. cbn [app List.filter].
        unfold hasUuid at 1. rewrite (proj2 (String.eqb_neq _ _) E).
        repeat split; [exact Hb | exact Hm|].
        destruct (isEmpty alias); reflexivity.
Qed.

(** What a call that passes the first test writes. *)
Lemma setLocalDiskAlias_written (w : World) (fi : DFMRootFileInfo)
    (alias : string) :
  canRename fi = true -> getUUID fi <> "" ->
  exists items' : list QVariantMap,
    writtenDiskAlias (snd (setLocalDiskAlias M w (Some fi) alias)) = Some items' /\
    ((List.filter (hasUuid M (getUUID fi)) (diskAliasItems w) = [] /\
      items' =
        if isEmpty (trimmed alias) then diskAliasItems w
        else diskAliasItems w ++
             [newAliasRecord M (getUUID fi) (trimmed alias) (udisksDisplayName fi)]) \/
     exists (before : list QVariantMap) (m : QVariantMap)
            (after : list QVariantMap),
       diskAliasItems w = before ++ m :: after /\
       List.filter (hasUuid M (getUUID fi)) before = [] /\
       value m UUID = getUUID fi /\
       items' =
         if isEmpty (trimmed alias) then before ++ after
         else before ++
              covered (trimmed alias) (udisksDisplayName fi) m :: after).
Proof.
  intros Hren Huuid. unfold setLocalDiskAlias. rewrite Hren.
  apply isEmpty_false in Huuid. rewrite Huuid. cbn [negb orb andb].
  destruct (aliasLoop_cases (getUUID fi) (trimmed alias) (udisksDisplayName fi)
              (diskAliasItems w))
    as [[Hf ->] | (before & m & after & Hsplit & Hb & Hm & ->)].
  - cbn [negb andb]. rewrite andb_true_r. eexists. split; [reflexivity|].
    left. split; [exact Hf|]. destruct (isEmpty (trimmed alias)); reflexivity.
  - cbn [negb andb]. eexists. split; [reflexivity|].
    right. exists before, m, after. repeat split; assumption.
Qed.

Lemma filter_nil_absent (uuid : string) (items : list QVariantMap) :
  List.filter (hasUuid M uuid) items = [] ->
  forall m, In m items -> value m UUID <> uuid.
Proof.
  intros Hf m Hin E. apply hasUuid_true in E.
  assert (H : In m (List.filter (hasUuid M uuid) items))
    by (apply List.filter_In; split; assumption).
  rewrite Hf in H. destruct H.
Qed.

Lemma written_absent (w : World) (fi : DFMRootFileInfo) (alias : string) :
  canRename fi = true -> getUUID fi <> "" ->
  List.filter (hasUuid M (getUUID fi)) (diskAliasItems w) = [] ->
  writtenDiskAlias (snd (setLocalDiskAlias M w (Some fi) alias)) =
    Some (if isEmpty (trimmed alias) then diskAliasItems w
          else diskAliasItems w ++
               [newAliasRecord M (getUUID fi) (trimmed alias)
                  (udisksDisplayName fi)]).
Proof.
  intros Hren Huuid Hf. unfold setLocalDiskAlias. rewrite Hren.
  apply isEmpty_false in Huuid. rewrite Huuid. cbn [negb orb andb].
  rewrite aliasLoop_absent by (apply filter_nil_absent; exact Hf).
  cbn [negb andb]. rewrite andb_true_r.
  destruct (isEmpty (trimmed alias)); reflexivity.
Qed.

Lemma written_first (w : World) (fi : DFMRootFileInfo) (alias : string)
    (before after : list QVariantMap) (m : QVariantMap) :
  canRename fi = true -> getUUID fi <> "" ->
  diskAliasItems w = before ++ m :: after ->
  List.filter (hasUuid M (getUUID fi)) before = [] ->
  value m UUID = getUUID fi ->
  writtenDiskAlias (snd (setLocalDiskAlias M w (Some fi) alias)) =
    Some (if isEmpty (trimmed alias) then before ++ after
          else before ++
               covered (trimmed alias) (udisksDisplayName fi) m :: after).
Proof.
  intros Hren Huuid Hs Hb Hm. unfold setLocalDiskAlias. rewrite Hren.
  apply isEmpty_false in Huuid. rewrite Huuid. cbn [negb orb andb].
  rewrite Hs, aliasLoop_first
    by (try apply filter_nil_absent; assumption).
  reflexivity.
Qed.

End AliasStore.

(** X8.  A change of the alias of one disk leaves the records of the other
    disks alone: the records whose uuid is not the uuid of the entry are
    written back as they were read, in the same order.  (The three fields
    of a record have different names.) *)
Theorem setLocalDiskAlias_frame :
  forall (M : Macros) (w : World) (fi : DFMRootFileInfo) (alias : string),
    macro_DISKALIAS_ITEM_UUID M <> macro_DISKALIAS_ITEM_NAME M ->
    macro_DISKALIAS_ITEM_UUID M <> macro_DISKALIAS_ITEM_ALIAS M ->
    canRename fi = true -> getUUID fi <> "" ->
    exists items' : list QVariantMap,
      writtenDiskAlias (snd (setLocalDiskAlias M w (Some fi) alias)) =
        Some items' /\
      List.filter (fun m => negb (hasUuid M (getUUID fi) m)) items' =
        List.filter (fun m => negb (hasUuid M (getUUID fi) m)) (diskAliasItems w).
Proof.
  intros M w fi alias Hn Ha Hren Huuid.
  destruct (setLocalDiskAlias_written M w fi alias Hren Huuid)
    as (items' & Hw & [[Hf He] | (before & m & after & Hs & Hb & Hm & He)]);
    exists items'; (split; [exact Hw|]); rewrite He; clear He Hw.
  - destruct (isEmpty (trimmed alias)); [reflexivity|].
    rewrite List.filter_app. cbn [List.filter].
    rewrite (proj2 (hasUuid_true M _ _) (newAliasRecord_uuid M _ _ _ Hn Ha)).
    apply app_nil_r.
  - rewrite Hs, !List.filter_app. cbn [List.filter].
    rewrite (proj2 (hasUuid_true M _ _) Hm). cbn [negb].
    destruct (isEmpty (trimmed alias)).
    + rewrite List.filter_app. reflexivity.
    + rewrite List.filter_app. cbn [List.filter].
      assert (Hc : hasUuid M (getUUID fi)
                     (<[macro_DISKALIAS_ITEM_ALIAS M := trimmed alias]>
                        (<[macro_DISKALIAS_ITEM_NAME M := udisksDisplayName fi]> m))
                   = true).
      { apply hasUuid_true. rewrite covered_uuid by assumption. exact Hm. }
      rewrite Hc. reflexivity.
Qed.

Lemma setLocalDiskAlias_frame_witness :
  exists items' : list QVariantMap,
    writtenDiskAlias
      (snd (setLocalDiskAlias upstream twoAliasWorld (Some (aliasInfo sdb1Url))
              " Music ")) = Some items' /\
    List.filter (fun m => negb (hasUuid upstream "U1" m)) items' = [otherRecord].
Proof.
  destruct (setLocalDiskAlias_frame upstream twoAliasWorld (aliasInfo sdb1Url)
              " Music ") as (items' & Hw & Hf);
    [discriminate | discriminate | reflexivity | discriminate |].
  exists items'. split; [exact Hw|]. etransitivity; [exact Hf|].
  vm_compute. reflexivity.
Defined.

(** X9.  The records of the disk itself.  After a call with an alias that
    is not blank, the first record for the uuid of the entry carries the
    trimmed alias and the display name of the entry, and the number of
    records for that uuid is what it was, or one if there was none; after
    a call with a blank alias there is one record fewer for that uuid.  So
    a store with at most one record for a disk stays such a store. *)
Theorem setLocalDiskAlias_own_record :
  forall (M : Macros) (w : World) (fi : DFMRootFileInfo) (alias : string),
    macro_DISKALIAS_ITEM_UUID M <> macro_DISKALIAS_ITEM_NAME M ->
    macro_DISKALIAS_ITEM_UUID M <> macro_DISKALIAS_ITEM_ALIAS M ->
    macro_DISKALIAS_ITEM_NAME M <> macro_DISKALIAS_ITEM_ALIAS M ->
    canRename fi = true -> getUUID fi <> "" ->
    let uuid := getUUID fi in
    let count := length (List.filter (hasUuid M uuid) (diskAliasItems w)) in
    exists items' : list QVariantMap,
      writtenDiskAlias (snd (setLocalDiskAlias M w (Some fi) alias)) =
        Some items' /\
      length (List.filter (hasUuid M uuid) items') =
        (if isEmpty (trimmed alias) then Nat.pred count else Nat.max 1 count) /\
      (trimmed alias <> "" ->
       exists (before : list QVariantMap) (m : QVariantMap)
              (after : list QVariantMap),
         items' = before ++ m :: after /\
         List.filter (hasUuid M uuid) before = [] /\
         value m (macro_DISKALIAS_ITEM_UUID M) = uuid /\
         value m (macro_DISKALIAS_ITEM_ALIAS M) = trimmed alias /\
         value m (macro_DISKALIAS_ITEM_NAME M) = udisksDisplayName fi).
Proof.
  intros M w fi alias Hn Ha Hna Hren Huuid uuid count. subst uuid count.
  destruct (setLocalDiskAlias_written M w fi alias Hren Huuid)
    as (items' & Hw & [[Hf He] | (before & m & after & Hs & Hb & Hm & He)]);
    exists items'; (split; [exact Hw|]); rewrite He; clear He Hw.
  - rewrite Hf. destruct (isEmpty (trimmed alias)) eqn:Hal.
    + rewrite Hf. split; [reflexivity|]. intros H.
      apply isEmpty_false in H. congruence.
    + rewrite List.filter_app, Hf. cbn [List.filter app].
      rewrite (proj2 (hasUuid_true M _ _) (newAliasRecord_uuid M _ _ _ Hn Ha)).
      split; [reflexivity|]. intros _.
      exists (diskAliasItems w),
        (newAliasRecord M (getUUID fi) (trimmed alias) (udisksDisplayName fi)), [].
      repeat split; [exact Hf | apply newAliasRecord_uuid; assumption | |].
      * unfold newAliasRecord. apply value_insert_eq.
      * unfold newAliasRecord. rewrite value_insert_ne by congruence.
        apply value_insert_eq.
  - rewrite Hs, List.filter_app, Hb. cbn [List.filter app].
    rewrite (proj2 (hasUuid_true M _ _) Hm). cbn [length Nat.pred].
    destruct (isEmpty (trimmed alias)) eqn:Hal.
    + rewrite List.filter_app, Hb. split; [reflexivity|]. intros H.
      apply isEmpty_false in H. congruence.
    + rewrite List.filter_app, Hb. cbn [List.filter app].
      assert (Hc : value (<[macro_DISKALIAS_ITEM_ALIAS M := trimmed alias]>
                            (<[macro_DISKALIAS_ITEM_NAME M := udisksDisplayName fi]>
                               m))
                     (macro_DISKALIAS_ITEM_UUID M) = getUUID fi).
      { rewrite covered_uuid by assumption. exact Hm. }
      rewrite (proj2 (hasUuid_true M _ _) Hc). cbn [length].
      split; [lia|]. intros _.
      exists before, (<[macro_DISKALIAS_ITEM_ALIAS M := trimmed alias]>
                        (<[macro_DISKALIAS_ITEM_NAME M := udisksDisplayName fi]> m)),
        after.
      repeat split; [exact Hb | exact Hc | apply value_insert_eq |].
      rewrite value_insert_ne by congruence. apply value_insert_eq.
Qed.

Lemma setLocalDiskAlias_own_record_witness :
  exists items' : list QVariantMap,
    writtenDiskAlias
      (snd (setLocalDiskAlias upstream twoAliasWorld (Some (aliasInfo sdb1Url))
              " Music ")) = Some items' /\
    length (List.filter (hasUuid upstream "U1") items') = 1%nat.
Proof.
  destruct (setLocalDiskAlias_own_record upstream twoAliasWorld
              (aliasInfo sdb1Url) " Music ") as (items' & Hw & Hc & _);
    [discriminate | discriminate | discriminate | reflexivity | discriminate |].
  exists items'. split; [exact Hw|]. etransitivity; [exact Hc|]. reflexivity.
Defined.

(** X10.  Setting the same alias again changes nothing: when the store
    holds what a call has written, the same call writes the same list
    once more.  For a blank alias this needs a store with at most one
    record for the disk, since each call removes one record only. *)
Theorem setLocalDiskAlias_again :
  forall (M : Macros) (w w2 : World) (fi : DFMRootFileInfo) (alias : string),
    macro_DISKALIAS_ITEM_UUID M <> macro_DISKALIAS_ITEM_NAME M ->
    macro_DISKALIAS_ITEM_UUID M <> macro_DISKALIAS_ITEM_ALIAS M ->
    canRename fi = true -> getUUID fi <> "" ->
    trimmed alias <> "" \/
      (length (List.filter (hasUuid M (getUUID fi)) (diskAliasItems w)) <= 1)%nat ->
    writtenDiskAlias (snd (setLocalDiskAlias M w (Some fi) alias)) =
      Some (diskAliasItems w2) ->
    writtenDiskAlias (snd (setLocalDiskAlias M w2 (Some fi) alias)) =
      Some (diskAliasItems w2).
Proof.
  intros M w w2 fi alias Hn Ha Hren Huuid Hcase Hw.
  destruct (setLocalDiskAlias_written M w fi alias Hren Huuid)
    as (items' & Hw' & [[Hf He] | (before & m & after & Hs & Hb & Hm & He)]);
    rewrite Hw' in Hw; injection Hw as Hw; rewrite Hw in He; clear Hw Hw'.
  - destruct (isEmpty (trimmed alias)) eqn:Hal.
    + rewrite written_absent by (rewrite ?He; assumption).
      rewrite Hal. reflexivity.
    + rewrite (written_first M w2 fi alias (diskAliasItems w)
                 [] (newAliasRecord M (getUUID fi) (trimmed alias)
                       (udisksDisplayName fi)))
        by (try apply newAliasRecord_uuid; assumption).
      rewrite Hal, He. unfold newAliasRecord. rewrite covered_twice.
      reflexivity.
  - destruct (isEmpty (trimmed alias)) eqn:Hal.
    + destruct Hcase as [Hne | Hle];
        [apply isEmpty_false in Hne; congruence|].
      rewrite Hs, List.filter_app, Hb in Hle. cbn [List.filter app] in Hle.
      rewrite (proj2 (hasUuid_true M _ _) Hm) in Hle. cbn [length] in Hle.
      assert (Hafter : List.filter (hasUuid M (getUUID fi)) after = [])
        by (destruct (List.filter (hasUuid M (getUUID fi)) after);
            [reflexivity | cbn [length] in Hle; lia]).
      rewrite written_absent
        by (rewrite ?He, ?List.filter_app, ?Hb, ?Hafter; auto).
      rewrite Hal. reflexivity.
    + rewrite (written_first M w2 fi alias before after
                 (<[macro_DISKALIAS_ITEM_ALIAS M := trimmed alias]>
                    (<[macro_DISKALIAS_ITEM_NAME M := udisksDisplayName fi]> m)))
        by (rewrite ?covered_uuid; assumption).
      rewrite Hal, He, covered_twice. reflexivity.
Qed.

Lemma setLocalDiskAlias_again_witness :
  writtenDiskAlias
    (snd (setLocalDiskAlias upstream musicAliasWorld (Some (aliasInfo sdb1Url))
            " Music ")) = Some [otherRecord; musicRecord].
Proof.
  apply (setLocalDiskAlias_again upstream twoAliasWorld musicAliasWorld
           (aliasInfo sdb1Url) " Music ");
    [discriminate | discriminate | reflexivity | discriminate
    | left; vm_compute; discriminate | vm_compute; reflexivity].
Defined.

(** X11.  Giving a disk without a record an alias and then a blank alias
    restores the store: the second call writes the list that the first
    call has read. *)
Theorem setLocalDiskAlias_set_then_clear :
  forall (M : Macros) (w w2 : World) (fi : DFMRootFileInfo)
         (alias blank : string),
    macro_DISKALIAS_ITEM_UUID M <> macro_DISKALIAS_ITEM_NAME M ->
    macro_DISKALIAS_ITEM_UUID M <> macro_DISKALIAS_ITEM_ALIAS M ->
    canRename fi = true -> getUUID fi <> "" ->
    List.filter (hasUuid M (getUUID fi)) (diskAliasItems w) = [] ->
    trimmed alias <> "" -> trimmed blank = "" ->
    writtenDiskAlias (snd (setLocalDiskAlias M w (Some fi) alias)) =
      Some (diskAliasItems w2) ->
    writtenDiskAlias (snd (setLocalDiskAlias M w2 (Some fi) blank)) =
      Some (diskAliasItems w).
Proof.
  intros M w w2 fi alias blank Hn Ha Hren Huuid Hf Hal Hbl Hw.
  rewrite written_absent in Hw by assumption.
  apply isEmpty_false in Hal. rewrite Hal in Hw. injection Hw as Hw.
  rewrite (written_first M w2 fi blank (diskAliasItems w) []
             (newAliasRecord M (getUUID fi) (trimmed alias)
                (udisksDisplayName fi)))
    by (try apply newAliasRecord_uuid; auto).
  rewrite Hbl. cbn [isEmpty]. rewrite app_nil_r. reflexivity.
Qed.

Lemma setLocalDiskAlias_set_then_clear_witness :
  writtenDiskAlias
    (snd (setLocalDiskAlias upstream musicAliasWorld (Some (aliasInfo sdb1Url))
            " ")) = Some [otherRecord].
Proof.
  apply (setLocalDiskAlias_set_then_clear upstream otherAliasWorld
           musicAliasWorld (aliasInfo sdb1Url) " Music " " ");
    [discriminate | discriminate | reflexivity | discriminate
    | vm_compute; reflexivity | vm_compute; discriminate
    | vm_compute; reflexivity | vm_compute; reflexivity].
Defined.

(** ** Addresses *)












(** X15.  [DUrl::makeAbsolute] changes nothing but the path: the scheme,
    the authority section, the query and the fragment are kept.  It leaves
    the whole address alone when the scheme is not a recognized one, and
    when the scheme is recognized, not [file], and the path does not start
    with a separator. *)
Theorem makeAbsolute_keeps :
  forall (env : QtEnv) (u : DUrl),
    scheme (makeAbsolute env u) = scheme u /\
    authority (makeAbsolute env u) = authority u /\
    query (makeAbsolute env u) = query u /\
    fragment (makeAbsolute env u) = fragment u /\
    (schemeList_contains (scheme u) = false \/
     isLocalFile u = false /\ startsWith (path u) "/" = false ->
     makeAbsolute env u = u).
Proof.
  intros env u. unfold makeAbsolute.
  destruct (schemeList_contains (scheme u)), (isLocalFile u),
    (startsWith (path u) "~"), (startsWith (path u) "/");
    cbn [negb scheme authority query fragment QUrl_setPath];
    repeat split; try reflexivity;
    intros [H | [H1 H2]]; discriminate.
Qed.

Lemma makeAbsolute_keeps_witness :
  makeAbsolute quietEnv (mkQUrl "computer" None "a/b" None None) =
    mkQUrl "computer" None "a/b" None None.
Proof.
  apply (makeAbsolute_keeps quietEnv (mkQUrl "computer" None "a/b" None None)).
  right. split; reflexivity.
Defined.

(** X16.  The five constructors [fromTrashFile], [fromRecentFile],
    [fromBookMarkFile], [fromSearchFile] and [fromComputerFile] build an
    address that passes the test of its own kind and of no other kind, is
    not a local file, has no authority section, query or fragment, and
    whose path is the given one, made absolute by the file system only
    when it starts with a separator. *)
Theorem fromFile_constructors :
  forall (env : QtEnv) (filePath : string),
    let kinds := [isTrashFile; isRecentFile; isBookMarkFile; isSearchFile;
                  isComputerFile] in
    let built := [fromTrashFile env filePath; fromRecentFile env filePath;
                  fromBookMarkFile env filePath; fromSearchFile env filePath;
                  fromComputerFile env filePath] in
    forall (i : nat) (u : DUrl),
      built !! i = Some u ->
      (forall (j : nat) (test : DUrl -> bool),
         kinds !! j = Some test -> test u = Nat.eqb i j) /\
      isLocalFile u = false /\
      authority u = None /\ query u = None /\ fragment u = None /\
      path u = (if startsWith filePath "/" then absoluteFilePath env filePath
                else filePath).
Proof.
  intros env filePath kinds built i u Hi. subst kinds built.
  assert (Hpath : forall s,
            schemeList_contains s = true -> String.eqb s FILE_SCHEME = false ->
            DUrl_setPath env (QUrl_setScheme QUrl_empty s) filePath =
              mkQUrl s None
                (if startsWith filePath "/" then absoluteFilePath env filePath
                 else filePath) None None).
  { intros s Hs Hf. unfold DUrl_setPath, makeAbsolute, isLocalFile.
    cbn [QUrl_setPath QUrl_setScheme QUrl_empty scheme path authority query
         fragment].
    rewrite Hs, Hf. cbn [negb].
    destruct (startsWith filePath "/"); reflexivity. }
  destruct i as [|[|[|[|[|i]]]]]; try discriminate Hi;
    apply (inj Some) in Hi; subst u;
    [unfold fromTrashFile | unfold fromRecentFile | unfold fromBookMarkFile
    | unfold fromSearchFile | unfold fromComputerFile];
    rewrite Hpath by reflexivity;
    (split; [|repeat split; reflexivity]);
    intros j test Hj;
    destruct j as [|[|[|[|[|j]]]]]; try discriminate Hj;
    apply (inj Some) in Hj; subst test; reflexivity.
Qed.

Lemma fromFile_constructors_witness :
  isTrashFile (fromTrashFile quietEnv "/a") = true /\
  isComputerFile (fromTrashFile quietEnv "/a") = false.
Proof.
  destruct (fromFile_constructors quietEnv "/a" 0 (fromTrashFile quietEnv "/a"))
    as [H _]; [reflexivity|].
  split; [exact (H 0%nat isTrashFile eq_refl) | exact (H 4%nat isComputerFile eq_refl)].
Defined.

(** ** The listeners of a watch session *)

Section Listeners.

Variable M : Macros.
Variable w : World.

Lemma list_contains_In (l : list string) (s : string) :
  list_contains l s = true <-> In s l.
Proof.
  unfold list_contains. rewrite existsb_exists. split.
  - intros (x & Hx & E). apply String.eqb_eq in E. subst x. exact Hx.
  - intros H. exists s. split; [exact H | apply String.eqb_refl].
Qed.

Lemma connectsOf_app (a b : list Effect) :
  connectsOf (a ++ b) = connectsOf a ++ connectsOf b.
Proof. apply flat_map_app. Qed.

Lemma disconnectsOf_app (a b : list Effect) :
  disconnectsOf (a ++ b) = disconnectsOf a ++ disconnectsOf b.
Proof. apply flat_map_app. Qed.

Lemma connectsOf_Connect (cs : list Connection) :
  connectsOf (map Connect cs) = cs.
Proof. induction cs as [|c cs IH]; [reflexivity|]. cbn. f_equal. exact IH. Qed.

Lemma disconnectsOf_Connect (cs : list Connection) :
  disconnectsOf (map Connect cs) = [].
Proof. induction cs as [|c cs IH]; [reflexivity|]. exact IH. Qed.

Lemma disconnectsOf_Disconnect (cs : list Connection) :
  disconnectsOf (map Disconnect cs) = cs.
Proof. induction cs as [|c cs IH]; [reflexivity|]. cbn. f_equal. exact IH. Qed.

Lemma connectsOf_Disconnect (cs : list Connection) :
  connectsOf (map Disconnect cs) = [].
Proof. induction cs as [|c cs IH]; [reflexivity|]. exact IH. Qed.

(** What [initBlockDevConnections] does to the connections: it appends
    what it connects, and it remembers the key of the device once. *)
Lemma initBlockDevConnections_connects
    (d : DFMRootFileWatcherPrivate) (log : list Effect) (devs : string) :
  let blk := createBlockDevice w devs in
  let st := initBlockDevConnections M w (d, log) blk devs in
  exists added : list Effect,
    snd st = log ++ added /\
    connections (fst st) = connections d ++ connectsOf added /\
    disconnectsOf added = [] /\
    connectionsurl (fst st) =
      (if list_contains (connectionsurl d) (watchKey M w devs)
       then connectionsurl d
       else connectionsurl d ++ [watchKey M w devs]) /\
    (list_contains (connectionsurl d) (watchKey M w devs) = true ->
     connectsOf added = []).
Proof.
  cbv zeta. unfold initBlockDevConnections, watchKey, udisksAddress.
  destruct (isEncrypted (createBlockDevice w devs)).
  - destruct (list_contains (connectionsurl d) _) eqn:Hc.
    + eexists [_; _]. cbn [fst snd connections connectionsurl].
      rewrite <- app_assoc. repeat split; try reflexivity.
      symmetry. apply app_nil_r.
    + eexists (_ :: _ :: map Connect _). cbn [fst snd connections connectionsurl].
      rewrite <- !app_assoc. split; [reflexivity|].
      split; [reflexivity|]. split; [reflexivity|].
      split; [reflexivity | discriminate].
  - destruct (list_contains (connectionsurl d) _) eqn:Hc.
    + eexists [_]. cbn [fst snd connections connectionsurl].
      repeat split; try reflexivity. symmetry. apply app_nil_r.
    + eexists (_ :: map Connect _). cbn [fst snd connections connectionsurl].
      rewrite <- !app_assoc. split; [reflexivity|].
      split; [reflexivity|]. split; [reflexivity|].
      split; [reflexivity | discriminate].
Qed.

Lemma startStep_connects (st : DFMRootFileWatcherPrivate * list Effect)
    (devs : string) :
  let st' := startStep M w st devs in
  exists added : list Effect,
    snd st' = snd st ++ added /\
    connections (fst st') = connections (fst st) ++ connectsOf added /\
    disconnectsOf added = [] /\
    connectionsurl (fst st') =
      (if watchedDevice w devs &&
          negb (list_contains (connectionsurl (fst st)) (watchKey M w devs))
       then connectionsurl (fst st) ++ [watchKey M w devs]
       else connectionsurl (fst st)).
Proof.
  destruct st as [d log]. cbv zeta. unfold startStep, watchedDevice.
  match goal with
  | |- context [ignoreBlkDevice w devs ?b ?r] =>
      destruct (ignoreBlkDevice w devs b r) eqn:Hig
  end; cbn [negb andb fst snd].
  - destruct (mountPoints (createBlockDevice w devs)) as [|mp mps];
      [|destruct (removable _); cbn [negb]];
      eexists;
      (split; [try rewrite <- app_assoc; reflexivity|]);
      (split; [cbn; symmetry; apply app_nil_r|]);
      split; reflexivity.
  - match goal with
    | |- context [initBlockDevConnections M w (d, ?l) _ devs] =>
        assert (Hpre : exists pre, l = log ++ pre /\ connectsOf pre = [] /\
                                   disconnectsOf pre = []);
        [|destruct Hpre as (pre & Hl & Hc & Hd); rewrite Hl;
          destruct (initBlockDevConnections_connects d (log ++ pre) devs)
            as (added & Hs & Hconn & Hdis & Hurl & _)]
    end.
    { destruct (mountPoints (createBlockDevice w devs)) as [|mp mps];
        [eexists; repeat split; reflexivity|].
      destruct (removable _); cbn [negb];
        [eexists; repeat split; reflexivity|].
      eexists. rewrite <- app_assoc. repeat split; reflexivity. }
    cbv zeta in Hs, Hconn, Hurl. exists (pre ++ added).
    rewrite Hs, Hconn, Hurl, connectsOf_app, disconnectsOf_app, Hc, Hd, Hdis.
    rewrite <- app_assoc. repeat split.
    destruct (list_contains (connectionsurl d) (watchKey M w devs)); reflexivity.
Qed.

Lemma startLoop_connects (devices : list string) :
  forall st : DFMRootFileWatcherPrivate * list Effect,
    let st' := fold_left (startStep M w) devices st in
    exists added : list Effect,
      snd st' = snd st ++ added /\
      connections (fst st') = connections (fst st) ++ connectsOf added /\
      disconnectsOf added = [].
Proof.
  induction devices as [|devs devices IH]; intros st; cbv zeta.
  - exists []. cbn. rewrite !app_nil_r. repeat split.
  - cbn [fold_left].
    destruct (startStep_connects st devs) as (a1 & Hs1 & Hc1 & Hd1 & _).
    destruct (IH (startStep M w st devs)) as (a2 & Hs2 & Hc2 & Hd2).
    cbv zeta in *. exists (a1 ++ a2).
    rewrite Hs2, Hc2, Hs1, Hc1, connectsOf_app, disconnectsOf_app, Hd1, Hd2.
    rewrite <- !app_assoc. repeat split.
Qed.

Lemma startLoop_urls (devices : list string) :
  forall st : DFMRootFileWatcherPrivate * list Effect,
    let st' := fold_left (startStep M w) devices st in
    List.NoDup (connectionsurl (fst st)) ->
    List.NoDup (connectionsurl (fst st')) /\
    forall key : string,
      In key (connectionsurl (fst st')) <->
      In key (connectionsurl (fst st)) \/
      exists devs : string,
        In devs devices /\ watchedDevice w devs = true /\
        key = watchKey M w devs.
Proof.
  induction devices as [|devs devices IH]; intros st; cbv zeta; intros Hnd.
  - cbn [fold_left]. split; [exact Hnd|]. intros key. split; [auto|].
    intros [H | (x & [] & _)]. exact H.
  - cbn [fold_left].
    destruct (startStep_connects st devs) as (_ & _ & _ & _ & Hurl).
    cbv zeta in Hurl.
    assert (Hnd1 : List.NoDup (connectionsurl (fst (startStep M w st devs)))).
    { rewrite Hurl. destruct (watchedDevice w devs); cbn [andb]; [|exact Hnd].
      destruct (list_contains _ _) eqn:Hc; cbn [negb]; [exact Hnd|].
      apply List.NoDup_app; [exact Hnd | repeat constructor; intros [] |].
      intros x Hx [<- | []]. apply list_contains_In in Hx. congruence. }
    destruct (IH (startStep M w st devs) Hnd1) as [Hnd2 Hin].
    split; [exact Hnd2|]. intros key. rewrite Hin, Hurl. split.
    + intros [H | (x & Hx & Hw & Hk)].
      * destruct (watchedDevice w devs) eqn:Hwd; cbn [andb] in H; [|auto].
        destruct (list_contains _ _) eqn:Hc; cbn [negb] in H; [auto|].
        apply in_app_or in H as [H | [<- | []]]; [auto|].
        right. exists devs. repeat split; [left; reflexivity | exact Hwd].
      * right. exists x. repeat split; [right; exact Hx | exact Hw | exact Hk].
    + intros [H | (x & [<- | Hx] & Hw & Hk)].
      * left. destruct (_ && _); [apply in_or_app; left|]; exact H.
      * left. rewrite Hw. cbn [andb]. subst key.
        destruct (list_contains _ _) eqn:Hc; cbn [negb].
        -- apply list_contains_In. exact Hc.
        -- apply in_or_app. right. left. reflexivity.
      * right. exists x. repeat split; assumption.
Qed.

End Listeners.

Lemma initBlockDevConnections_state (M : Macros) (w : World)
    (d : DFMRootFileWatcherPrivate) (log log' : list Effect)
    (blk : DBlockDevice) (devs : string) :
  fst (initBlockDevConnections M w (d, log) blk devs) =
    fst (initBlockDevConnections M w (d, log') blk devs).
Proof. unfold initBlockDevConnections. break_if; reflexivity. Qed.

(** X17.  No connection leaks.  Starting a session appends to its
    connections exactly what it connects, first the five manager signals,
    and disconnects nothing; stopping it disconnects exactly the
    connections it holds and connects nothing.  So a session that held no
    connection before [start] has, after [stop], disconnected what [start]
    connected, in the same order. *)
Theorem start_stop_no_leak :
  forall (M : Macros) (w : World) (d : DFMRootFileWatcherPrivate),
    path (target d) = "/" -> started d = false ->
    let d1 := snd (fst (start M w d)) in
    let log1 := snd (start M w d) in
    let log2 := snd (stop d1) in
    connections d1 = connections d ++ connectsOf log1 /\
    firstn 5 (connectsOf log1) =
      [mountAdded; mountRemoved; volumeAdded; blockDeviceAdded;
       blockDeviceRemoved] /\
    disconnectsOf log1 = [] /\
    disconnectsOf log2 = connections d1 /\
    connectsOf log2 = [] /\
    (connections d = [] -> disconnectsOf log2 = connectsOf log1).
Proof.
  intros M w d Hp Hs. cbv zeta. unfold start. rewrite Hp, Hs.
  cbn [String.eqb Ascii.eqb Bool.eqb negb orb].
  set (cs := [mountAdded; mountRemoved; volumeAdded; blockDeviceAdded;
              blockDeviceRemoved]).
  set (log0 := [SetWatchChanges true] ++ map Connect cs ++ [QueryBlockDevices]).
  assert (Hc0 : connectsOf log0 = cs) by reflexivity.
  assert (Hd0 : disconnectsOf log0 = []) by reflexivity.
  match goal with
  | |- context [fold_left (startStep M w) ?l ?st] =>
      destruct (startLoop_connects M w l st) as (added & Hlog & Hconn & Hdis);
      destruct (fold_left (startStep M w) l st) as [d2 log] eqn:Hfold
  end.
  cbv zeta in Hlog, Hconn. cbn [fst snd connections] in Hlog, Hconn.
  cbn [fst snd connections]. unfold stop. cbn [started negb snd connections].
  rewrite Hlog, Hconn, !connectsOf_app, !disconnectsOf_app, Hc0, Hd0, Hdis.
  rewrite disconnectsOf_Disconnect, connectsOf_Disconnect.
  change (disconnectsOf [SetWatchChanges false]) with (@nil Connection).
  change (connectsOf [SetWatchChanges false]) with (@nil Connection).
  cbn [app]. rewrite <- !app_assoc.
  repeat split; try reflexivity. intros ->. reflexivity.
Qed.

Lemma start_stop_no_leak_witness :
  disconnectsOf (snd (stop (snd (fst (start upstream deskWorld (newWatcher rootUrl))))))
  = connectsOf (snd (start upstream deskWorld (newWatcher rootUrl))) /\
  length (connectsOf (snd (start upstream deskWorld (newWatcher rootUrl)))) = 15%nat.
Proof.
  split; [|vm_compute; reflexivity].
  apply (start_stop_no_leak upstream deskWorld (newWatcher rootUrl));
    reflexivity.
Defined.

(** X18.  [start] registers the listeners of a device once: after it,
    [connectionsurl] still has no duplicate, and it holds, beside what it
    held, exactly the keys of the block devices present that
    [ignoreBlkDevice] lets through (the key of an encrypted device ends in
    [_en]), however often the device list names a device. *)
Theorem start_registers_once :
  forall (M : Macros) (w : World) (d : DFMRootFileWatcherPrivate),
    path (target d) = "/" -> started d = false ->
    List.NoDup (connectionsurl d) ->
    let d1 := snd (fst (start M w d)) in
    List.NoDup (connectionsurl d1) /\
    forall key : string,
      In key (connectionsurl d1) <->
      In key (connectionsurl d) \/
      exists devs : string,
        In devs (blockDevices w) /\ watchedDevice w devs = true /\
        key = watchKey M w devs.
Proof.
  intros M w d Hp Hs Hnd. cbv zeta. unfold start. rewrite Hp, Hs.
  cbn [String.eqb Ascii.eqb Bool.eqb negb orb].
  match goal with
  | |- context [fold_left (startStep M w) ?l ?st] =>
      pose proof (startLoop_urls M w l st Hnd) as Hurls;
      destruct (fold_left (startStep M w) l st) as [d2 log] eqn:Hfold
  end.
  cbv zeta in Hurls. cbn [fst snd connectionsurl] in *. exact Hurls.
Qed.

Lemma start_registers_once_witness :
  connectionsurl (snd (fst (start upstream deskWorld (newWatcher rootUrl)))) =
    ["dfmroot:///sda1.localdisk"; "dfmroot:///sdb1.localdisk"] /\
  List.NoDup
    (connectionsurl (snd (fst (start upstream deskWorld (newWatcher rootUrl))))).
Proof.
  split; [vm_compute; reflexivity|].
  apply (start_registers_once upstream deskWorld (newWatcher rootUrl));
    [reflexivity | reflexivity | constructor].
Defined.

(** X19.  What is listed is watched: every block device that an
    enumeration of the virtual root lists has its listeners registered
    once a session has been started in the same state of the devices. *)
Theorem listed_devices_are_watched :
  forall (M : Macros) (w : World) (event : DFMGetChildrensEvent)
         (d : DFMRootFileWatcherPrivate) (e : RootEntry),
    isVirtualRoot M (url event) = true ->
    path (target d) = "/" -> started d = false ->
    In e (fst (getChildren M w event)) -> isUDisksEntry e = true ->
    exists devs : string,
      In devs (blockDevices w) /\ e = diskEntry w devs /\
      In (watchKey M w devs) (connectionsurl (snd (fst (start M w d)))).
Proof.
  intros M w event d e Hroot Hp Hs He Hk.
  assert (Hd : In e (diskEntries M w)).
  { assert (Hf : In e (List.filter isUDisksEntry (fst (getChildren M w event))))
      by (apply List.filter_In; split; assumption).
    destruct (getChildren_parts M w event Hroot) as (live & Hlive & Hret).
    rewrite Hret in Hf. revert Hf.
    destruct (canconst event), (GA_AlwaysShowOfflineRemoteConnections w);
      filter_kinds; auto. }
  unfold diskEntries in Hd. apply in_map_iff in Hd as (devs & <- & Hd).
  apply List.filter_In in Hd as [Hin Hl].
  exists devs. split; [exact Hin|]. split; [reflexivity|].
  unfold start. rewrite Hp, Hs. cbn [String.eqb Ascii.eqb Bool.eqb negb orb].
  match goal with
  | |- context [fold_left (startStep M w) ?l ?st] =>
      pose proof (startLoop_connects M w l st) as _;
      assert (Hurls : In (watchKey M w devs)
                        (connectionsurl (fst (fold_left (startStep M w) l st))));
      [|destruct (fold_left (startStep M w) l st) as [d2 log]; exact Hurls]
  end.
  clear Hs Hp. 
  assert (Hgen : forall devices st,
            In devs devices ->
            In (watchKey M w devs)
              (connectionsurl (fst (fold_left (startStep M w) devices st)))).
  { assert (Hkeep : forall devices st key,
              In key (connectionsurl (fst st)) ->
              In key (connectionsurl
                        (fst (fold_left (startStep M w) devices st)))).
    { induction devices as [|x devices IH]; intros st key Hkey; [exact Hkey|].
      cbn [fold_left]. apply IH.
      destruct (startStep_connects M w st x) as (_ & _ & _ & _ & Hurl).
      cbv zeta in Hurl. rewrite Hurl.
      destruct (_ && _); [apply in_or_app; left|]; exact Hkey. }
    induction devices as [|x devices IH]; intros st Hx; [destruct Hx|].
    destruct Hx as [<- | Hx].
    - cbn [fold_left]. apply Hkeep.
      destruct (startStep_connects M w st x) as (_ & _ & _ & _ & Hurl).
      cbv zeta in Hurl. rewrite Hurl.
      assert (Hw : watchedDevice w x = true).
      { unfold listedDevice in Hl. unfold watchedDevice.
        apply andb_prop in Hl as [Hl _]. exact Hl. }
      rewrite Hw. cbn [andb].
      destruct (list_contains _ _) eqn:Hc; cbn [negb].
      + apply list_contains_In. exact Hc.
      + apply in_or_app. right. left. reflexivity.
    - cbn [fold_left]. apply IH. exact Hx. }
  apply Hgen. exact Hin.
Qed.

Lemma listed_devices_are_watched_witness :
  exists devs : string,
    In devs (blockDevices deskWorld) /\
    UDisksEntry "sdb1" = diskEntry deskWorld devs /\
    In (watchKey upstream deskWorld devs)
      (connectionsurl (snd (fst (start upstream deskWorld (newWatcher rootUrl))))).
Proof.
  apply (listed_devices_are_watched upstream deskWorld rootRequest
           (newWatcher rootUrl) (UDisksEntry "sdb1"));
    try reflexivity.
  vm_compute. right. right. left. reflexivity.
Defined.

(** X20.  A device that is plugged in while the session runs gets the
    listeners that [start] gives a device that is present, and a second
    [blockDeviceAdded] for it connects nothing and leaves the connections
    as they are; the device is announced each time. *)
Theorem onBlockDeviceAdded_connects_once :
  forall (M : Macros) (w : World) (d : DFMRootFileWatcherPrivate)
         (log : list Effect) (blks : string),
    let d1 := fst (onBlockDeviceAdded M w d blks) in
    let again := onBlockDeviceAdded M w d1 blks in
    d1 = fst (startStep M w (d, log) blks) /\
    connections (fst again) = connections d1 /\
    connectionsurl (fst again) = connectionsurl d1 /\
    connectsOf (snd again) = [] /\
    List.filter (fun e => match e with Emit _ _ => true | _ => false end)
      (snd again) =
    List.filter (fun e => match e with Emit _ _ => true | _ => false end)
      (snd (onBlockDeviceAdded M w d blks)).
Proof.
  intros M w d log blks. cbv zeta.
  unfold onBlockDeviceAdded, startStep.
  destruct (ignoreBlkDevice w blks _ _) eqn:Hig.
  - cbn [fst snd]. repeat split; reflexivity.
  - split.
    { rewrite (initBlockDevConnections_state M w d _ [InspectBlockDevice blks]).
      destruct (initBlockDevConnections M w (d, [InspectBlockDevice blks]) _ blks);
        reflexivity. }
    destruct (initBlockDevConnections_connects M w d [InspectBlockDevice blks] blks)
      as (a1 & Hs1 & Hc1 & Hd1 & Hu1 & Hn1).
    cbv zeta in Hs1, Hc1, Hu1.
    destruct (initBlockDevConnections M w (d, [InspectBlockDevice blks]) _ blks)
      as [d1 log1] eqn:H1.
    cbn [fst snd] in *.
    assert (Hreg : list_contains (connectionsurl d1) (watchKey M w blks) = true).
    { rewrite Hu1. destruct (list_contains (connectionsurl d) _) eqn:Hc;
        [exact Hc|]. rewrite list_contains_snoc, String.eqb_refl.
      apply orb_true_r. }
    destruct (initBlockDevConnections_connects M w d1 [InspectBlockDevice blks] blks)
      as (a2 & Hs2 & Hc2 & Hd2 & Hu2 & Hn2).
    cbv zeta in Hs2, Hc2, Hu2. rewrite Hreg in Hu2. specialize (Hn2 Hreg).
    destruct (initBlockDevConnections M w (d1, [InspectBlockDevice blks]) _ blks)
      as [d2 log2] eqn:H2.
    cbn [fst snd] in *. rewrite Hn2, app_nil_r in Hc2.
    split; [exact Hc2|]. split; [exact Hu2|].
    rewrite Hs2, Hs1, !connectsOf_app, Hn2. split; [reflexivity|].
    rewrite !List.filter_app. cbn [List.filter app].
    assert (Hnone : forall (dd : DFMRootFileWatcherPrivate) (l : list Effect),
              List.filter (fun e => match e with Emit _ _ => true | _ => false end)
                (snd (initBlockDevConnections M w (dd, l)
                        (createBlockDevice w blks) blks)) =
              List.filter (fun e => match e with Emit _ _ => true | _ => false end) l).
    { intros dd l. unfold initBlockDevConnections.
      break_if; cbn [snd]; rewrite ?List.filter_app; cbn [List.filter map app];
        rewrite ?app_nil_r; reflexivity. }
    pose proof (Hnone d [InspectBlockDevice blks]) as E1.
    pose proof (Hnone d1 [InspectBlockDevice blks]) as E2.
    rewrite H1 in E1. rewrite H2 in E2. cbn [snd] in E1, E2.
    rewrite Hs1 in E1. rewrite Hs2 in E2.
    rewrite List.filter_app in E1, E2. cbn [List.filter app] in E1, E2.
    rewrite E1, E2. reflexivity.
Qed.

(** X21.  The addresses of the block-device signals agree: the slot of
    [blockDeviceAdded] announces a device that [ignoreBlkDevice] lets
    through, and no other, on the address on which the slot of
    [blockDeviceRemoved] reports the loss of it; and a ghost signal
    [fileDeleted] for the node of a loop device does what the slot of
    [blockDeviceRemoved] does for the object path of that device. *)
Theorem block_device_signal_addresses :
  forall (M : Macros) (w : World) (d : DFMRootFileWatcherPrivate)
         (target u : DUrl) (blks : string),
    (forall a : DUrl,
       In (Emit subfileCreated a) (snd (onBlockDeviceAdded M w d blks)) <->
       watchedDevice w blks = true /\
       onBlockDeviceRemoved M w blks = [Emit fileDeleted a]) /\
    (startsWith (path u) "/dev/loop" = true ->
     handleGhostSignal M w target fileDeleted u =
       (true, onBlockDeviceRemoved M w (udisksPrefix +:+ mid (path u) 5))).
Proof.
  intros M w d target u blks. split.
  - intros a. unfold onBlockDeviceAdded, onBlockDeviceRemoved, watchedDevice.
    destruct (ignoreBlkDevice w blks _ _); cbn [negb snd].
    + split; [intros [H | []]; discriminate | intros [H _]; discriminate].
    + assert (Hnone : forall l,
                ~ In (Emit subfileCreated a) l ->
                ~ In (Emit subfileCreated a)
                    (snd (initBlockDevConnections M w (d, l)
                            (createBlockDevice w blks) blks))).
      { intros l Hl. unfold initBlockDevConnections.
        break_if; cbn [snd]; rewrite ?in_app_iff; cbn [In map];
          intuition discriminate. }
      specialize (Hnone [InspectBlockDevice blks]).
      destruct (initBlockDevConnections M w (d, [InspectBlockDevice blks]) _ blks)
        as [d1 log1].
      cbn [snd] in *. rewrite in_app_iff. cbn [In]. split.
      * intros [H | [H | []]].
        -- exfalso. apply Hnone; [intros [E | []]; discriminate | exact H].
        -- injection H as <-. split; reflexivity.
      * intros [_ H]. injection H as <-. right. left. reflexivity.
  - intros Hloop. unfold handleGhostSignal, onBlockDeviceRemoved, udisksAddress.
    rewrite Hloop.
    change (mid (udisksPrefix +:+ mid (path u) 5) (String.length udisksPrefix))
      with (mid (udisksPrefix +:+ mid (path u) 5) (String.length udisksPrefix)).
    rewrite (mid_append udisksPrefix (mid (path u) 5)). reflexivity.
Qed.

Lemma block_device_signal_addresses_witness :
  handleGhostSignal upstream quietWorld rootUrl fileDeleted loop5 =
    (true, onBlockDeviceRemoved upstream quietWorld loop5Path).
Proof.
  apply (block_device_signal_addresses upstream quietWorld (newWatcher rootUrl)
           rootUrl loop5 loop5Path).
  reflexivity.
Defined.

(** ** The slots of the mount signals *)

Lemma no_emit_in_forgetNetworkNodes (w : World) (env : SlotEnv) (uri : string)
    (e : Effect) :
  ~ In (Controller e) (forgetNetworkNodes w env uri).
Proof.
  unfold forgetNetworkNodes. destruct (_ || _); [|intros []].
  rewrite in_app_iff. intros [H | H].
  - apply in_map_iff in H as (k & Hk & _). discriminate.
  - cbn [In] in H. intuition discriminate.
Qed.

Lemma onMountAdded_emits (M : Macros) (w : World) (env : SlotEnv)
    (mnt : DGioMount) (rootFile : DGioFile) (log : list SlotEffect) (a : DUrl) :
  getRootFile mnt = Some rootFile ->
  onMountAdded M w env mnt = Some log ->
  In (Controller (Emit subfileCreated a)) log ->
  listedMount M w mnt = Some (gio_path rootFile) /\
  gio_path rootFile <> "" /\
  a = gvfsUrl M w (gio_path rootFile).
Proof.
  intros Hroot. unfold onMountAdded, listedMount, isUDisks2Volume.
  rewrite Hroot.
  destruct (match getVolume mnt with Some _ => _ | None => _ end);
    [intros H; injection H as <-; intros []|].
  destruct (String.eqb (scheme _) (macro_BURN_SCHEME M));
    [intros H; injection H as <-; intros []|].
  destruct (String.eqb (mountClass mnt) "GUnixMount");
    [intros H; injection H as <-; intros []|].
  destruct (gio_path rootFile) as [|c p] eqn:Hpath;
    [intros H; injection H as <-; intros []|].
  cbn [String.length Nat.eqb].
  destruct (startsWith (uri rootFile) "file:///media/"),
    (isFromNativeBlockDev w (String c p)); cbn [andb app];
    intros H; injection H as <-; cbn [In]; rewrite ?in_app_iff; cbn [In];
    intros Hin;
    repeat match goal with
           | H : _ \/ _ |- _ => destruct H
           | H : False |- _ => destruct H
           | H : Controller _ = Controller _ |- _ => injection H as H
           | H : Emit _ _ = Emit _ _ |- _ => injection H as <-
           | H : In _ (if ?b then _ else _) |- _ => destruct b; cbn [In] in H
           end;
    try discriminate;
    repeat split; first [reflexivity | discriminate | symmetry; assumption].
Qed.

(** X22.  What is announced is what would be listed: for a mount with a
    root file, the slot of [mountAdded] emits [subfileCreated] exactly
    when the loop of [getChildren] over the mounts does not skip the mount
    and the path of the root is not empty, and then on the address that
    [getChildren] builds for its entry. *)
Theorem onMountAdded_announces_listed :
  forall (M : Macros) (w : World) (env : SlotEnv) (mnt : DGioMount)
         (rootFile : DGioFile),
    getRootFile mnt = Some rootFile ->
    exists log : list SlotEffect,
      onMountAdded M w env mnt = Some log /\
      forall a : DUrl,
        In (Controller (Emit subfileCreated a)) log <->
        listedMount M w mnt = Some (gio_path rootFile) /\
        gio_path rootFile <> "" /\
        a = gvfsUrl M w (gio_path rootFile).
Proof.
  intros M w env mnt rootFile Hroot.
  destruct (onMountAdded M w env mnt) as [log|] eqn:Hlog.
  2: { revert Hlog. unfold onMountAdded. rewrite Hroot.
       repeat match goal with
              | |- context [if ?b then _ else _] => destruct b
              end; discriminate. }
  exists log. split; [reflexivity|]. intros a. split.
  - apply (onMountAdded_emits M w env mnt rootFile log a Hroot Hlog).
  - intros (Hlisted & Hne & ->). revert Hlog Hlisted.
    unfold onMountAdded, listedMount, isUDisks2Volume. rewrite Hroot.
    destruct (match getVolume mnt with Some _ => _ | None => _ end);
      [discriminate 2|].
    destruct (String.eqb (mountClass mnt) "GUnixMount");
      [discriminate 2|].
    destruct (String.eqb (scheme _) (macro_BURN_SCHEME M));
      [discriminate 2|].
    destruct (gio_path rootFile) as [|c p] eqn:Hpath; [contradiction|].
    cbn [String.length Nat.eqb].
    destruct (startsWith (uri rootFile) "file:///media/" &&
              isFromNativeBlockDev w (String c p)); [discriminate 2|].
    intros H _. injection H as <-.
    apply in_or_app. right. left. reflexivity.
Qed.

Lemma onMountAdded_announces_listed_witness :
  exists log : list SlotEffect,
    onMountAdded upstream deskWorld deskSlots shareMount = Some log /\
    In (Controller (Emit subfileCreated (gvfsUrl upstream deskWorld sharePath)))
      log.
Proof.
  destruct (onMountAdded_announces_listed upstream deskWorld deskSlots
              shareMount (mkDGioFile "smb://nas/films/" sharePath) eq_refl)
    as (log & Hlog & Hin).
  exists log. split; [exact Hlog|]. apply Hin.
  split; [vm_compute; reflexivity|]. split; [discriminate | reflexivity].
Defined.

(** X23.  The loss of a mount is reported where the mount was announced:
    for a mount with a root file that is not a volume of UDisks2, the slot
    of [mountRemoved] emits [fileDeleted] on the address built from the
    path of the root (the path itself when it is not empty) and on no
    other, and asks for that path to be taken out of the recent files;
    when the slot of [mountAdded] emits [subfileCreated] for the mount,
    that is the same address.  The mounts that [mountAdded] passes over,
    other than the volumes of UDisks2, are reported lost all the same. *)
Theorem onMountRemoved_reports_announced :
  forall (M : Macros) (w : World) (env : SlotEnv) (mnt : DGioMount)
         (rootFile : DGioFile),
    getRootFile mnt = Some rootFile -> isUDisks2Volume mnt = false ->
    exists log' : list SlotEffect,
      onMountRemoved M w env mnt = Some log' /\
      (exists path : string,
         (gio_path rootFile <> "" -> path = gio_path rootFile) /\
         In (requestRemoveRecentFile path) log' /\
         forall b : DUrl,
           In (Controller (Emit fileDeleted b)) log' <-> b = gvfsUrl M w path) /\
      forall (log : list SlotEffect) (a : DUrl),
        onMountAdded M w env mnt = Some log ->
        In (Controller (Emit subfileCreated a)) log ->
        forall b : DUrl, In (Controller (Emit fileDeleted b)) log' <-> b = a.
Proof.
  intros M w env mnt rootFile Hroot Hvol.
  assert (Hrem : exists log' path,
            onMountRemoved M w env mnt = Some log' /\
            (gio_path rootFile <> "" -> path = gio_path rootFile) /\
            In (requestRemoveRecentFile path) log' /\
            forall b : DUrl,
              In (Controller (Emit fileDeleted b)) log' <->
              b = gvfsUrl M w path).
  { unfold onMountRemoved. rewrite Hvol, Hroot.
    eexists _, (if isEmpty (gio_path rootFile)
                then reconstructedPath env (uri rootFile)
                else gio_path rootFile).
    split; [reflexivity|]. split; [|split].
    - intros H. apply isEmpty_false in H. rewrite H. reflexivity.
    - apply in_or_app. right. right. left. reflexivity.
    - intros b. rewrite !in_app_iff. cbn [In]. split.
      + intros [[H | H] | [[H | [H | []]] | [H | H]]]; try discriminate.
        * destruct (isIntegrationMode w); cbn [In] in H; intuition discriminate.
        * injection H as <-. reflexivity.
        * destruct (isSmbPath env _); [|destruct H].
          destruct (negb _); cbn [In] in H; intuition discriminate.
        * destruct (no_emit_in_forgetNetworkNodes _ _ _ _ H).
      + intros ->. right. left. left. reflexivity. }
  destruct Hrem as (log' & path & Hlog' & Hpath & Hreq & Hdel).
  exists log'. split; [exact Hlog'|]. split.
  - exists path. split; [exact Hpath|]. split; [exact Hreq | exact Hdel].
  - intros log a Hlog Hin.
    destruct (onMountAdded_emits M w env mnt rootFile log a Hroot Hlog Hin)
      as (_ & Hne & ->).
    intros b. rewrite Hdel, (Hpath Hne). reflexivity.
Qed.

Lemma onMountRemoved_reports_announced_witness :
  exists log' : list SlotEffect,
    onMountRemoved upstream deskWorld deskSlots shareMount = Some log' /\
    In (Controller (Emit fileDeleted (gvfsUrl upstream deskWorld sharePath))) log'.
Proof.
  destruct (onMountRemoved_reports_announced upstream deskWorld deskSlots
              shareMount (mkDGioFile "smb://nas/films/" sharePath)
              eq_refl eq_refl)
    as (log' & Hlog' & (path & Hpath & _ & Hdel) & _).
  exists log'. split; [exact Hlog'|]. apply Hdel.
  rewrite (Hpath ltac:(discriminate)). reflexivity.
Defined.

(** *** The path put together from the URI *)

Lemma lacks_String (cs : string) (c : ascii) (s : string) :
  lacks cs (String c s) = negb (isOneOf cs c) && lacks cs s.
Proof. reflexivity. Qed.

Lemma lacks_append (cs a b : string) :
  lacks cs (a +:+ b) = lacks cs a && lacks cs b.
Proof.
  induction a as [|c a IH]; [reflexivity|].
  rewrite append_cons, !lacks_String, IH. apply andb_assoc.
Qed.

Lemma lacks_either (p q : ascii) (s : string) :
  lacks (String p (String q "")) s = true ->
  lacks (String p "") s = true /\ lacks (String q "") s = true.
Proof.
  induction s as [|c s IH]; [split; reflexivity|].
  rewrite !lacks_String. unfold isOneOf. cbn [list_ascii_of_string existsb].
  rewrite !orb_false_r. intros H. apply andb_prop in H as [Hc Hs].
  destruct (IH Hs) as [-> ->]. apply negb_true_iff, orb_false_elim in Hc as [-> ->].
  split; reflexivity.
Qed.

Lemma lacks_head (p c : ascii) (s : string) :
  lacks (String p "") (String c s) = true ->
  Ascii.eqb c p = false /\ lacks (String p "") s = true.
Proof.
  rewrite lacks_String. unfold isOneOf. cbn [list_ascii_of_string existsb].
  rewrite orb_false_r. intros H. apply andb_prop in H as [Hc Hs].
  apply negb_true_iff in Hc. split; assumption.
Qed.

Lemma prefix_head (p c : ascii) (pat s : string) :
  Ascii.eqb c p = false -> String.prefix (String p pat) (String c s) = false.
Proof.
  intros H. cbn [String.prefix]. destruct (ascii_dec p c) as [->|_];
    [rewrite Ascii.eqb_refl in H; discriminate | reflexivity].
Qed.

Lemma remove_from_clean (p : ascii) (pat a s : string) :
  lacks (String p "") a = true ->
  remove_from (String p pat) 0 (a +:+ s) = a +:+ remove_from (String p pat) 0 s.
Proof.
  induction a as [|c a IH]; intros H; [reflexivity|].
  apply lacks_head in H as [Hc Ha].
  rewrite !append_cons. cbn [remove_from].
  rewrite (prefix_head p c pat _ Hc), (IH Ha). reflexivity.
Qed.

Lemma remove_from_all_clean (p : ascii) (pat a : string) :
  lacks (String p "") a = true -> remove_from (String p pat) 0 a = a.
Proof.
  intros H. rewrite <- (append_nil_r a) at 1.
  rewrite (remove_from_clean p pat a "" H). apply append_nil_r.
Qed.

Lemma remove_from_miss (p c : ascii) (pat s : string) :
  Ascii.eqb c p = false ->
  remove_from (String p pat) 0 (String c s) =
    String c (remove_from (String p pat) 0 s).
Proof.
  intros H. cbn [remove_from]. rewrite (prefix_head p c pat _ H). reflexivity.
Qed.

Lemma remove_from_hit (p : ascii) (s : string) :
  remove_from (String p "") 0 (String p s) = remove_from (String p "") 0 s.
Proof.
  cbn [remove_from String.prefix String.length Nat.sub].
  destruct (ascii_dec p p) as [_|N]; [|contradiction].
  destruct s; reflexivity.
Qed.

Lemma remove_from_hit2 (p q : ascii) (s : string) :
  remove_from (String p (String q "")) 0 (String p (String q s)) =
    remove_from (String p (String q "")) 0 s.
Proof.
  cbn [remove_from String.prefix String.length Nat.sub].
  destruct (ascii_dec p p) as [_|N]; [|contradiction].
  destruct (ascii_dec q q) as [_|N]; [|contradiction].
  destruct s; reflexivity.
Qed.

Lemma split_clean (sep : ascii) (a s : string) :
  lacks (String sep "") a = true ->
  split sep (a +:+ String sep s) = a :: split sep s.
Proof.
  induction a as [|c a IH]; intros H.
  - rewrite append_nil. cbn [split]. rewrite Ascii.eqb_refl. reflexivity.
  - apply lacks_head in H as [Hc Ha].
    rewrite append_cons. cbn [split]. rewrite Hc, (IH Ha). reflexivity.
Qed.

Lemma split_last (sep : ascii) (a : string) :
  lacks (String sep "") a = true -> split sep a = [a].
Proof.
  induction a as [|c a IH]; intros H; [reflexivity|].
  apply lacks_head in H as [Hc Ha].
  cbn [split]. rewrite Hc, (IH Ha). reflexivity.
Qed.

(** X24.  The path that the slot of [mountRemoved] puts together when the
    root file has lost its path is the mount point of GVFS for the URI:
    for [scheme://host:port/] it is [/run/user/<uid>/gvfs/scheme:host=host,port=port],
    for [scheme://host/] with a scheme that does not start with [smb] it is
    [.../scheme:host=host], and for [smb://server/share/] it is
    [.../smb-share:server=server,share=share]; scheme, host, port and share
    being free of colons and separators. *)
Theorem reconstructedPath_mount_point :
  forall (env : SlotEnv) (sch host port share : string),
    lacks ":/" sch = true -> lacks ":/" host = true ->
    lacks ":/" port = true -> lacks ":/" share = true ->
    reconstructedPath env (sch +:+ "://" +:+ host +:+ ":" +:+ port +:+ "/") =
      "/run/user/" +:+ uid env +:+ "/gvfs/" +:+ sch +:+
      ":host=" +:+ host +:+ ",port=" +:+ port /\
    (startsWith sch "smb" = false ->
     reconstructedPath env (sch +:+ "://" +:+ host +:+ "/") =
       "/run/user/" +:+ uid env +:+ "/gvfs/" +:+ sch +:+ ":host=" +:+ host) /\
    (startsWith sch "smb" = true ->
     reconstructedPath env (sch +:+ "://" +:+ host +:+ "/" +:+ share +:+ "/") =
       "/run/user/" +:+ uid env +:+ "/gvfs/" +:+ sch +:+
       "-share:server=" +:+ host +:+ ",share=" +:+ share).
Proof.
  intros env sch host port share Hsch Hhost Hport Hshare.
  apply lacks_either in Hsch as [Hsc Hss], Hhost as [Hhc Hhs],
    Hport as [Hpc Hps], Hshare as [Hrc Hrs].
  unfold reconstructedPath, remove.
  rewrite !append_cons, !append_nil.
  split; [|split].
  - rewrite (remove_from_clean "/" "" sch _ Hss),
      (remove_from_miss "/" ":" "" _ eq_refl), !remove_from_hit,
      (remove_from_clean "/" "" host _ Hhs),
      (remove_from_miss "/" ":" "" _ eq_refl),
      (remove_from_clean "/" "" port _ Hps), remove_from_hit.
    cbn [remove_from]. rewrite append_nil_r.
    rewrite (split_clean ":" sch _ Hsc), (split_clean ":" host _ Hhc),
      (split_last ":" port Hpc).
    cbn [length Nat.leb at_ nth]. rewrite ?append_assoc. reflexivity.
  - intros Hsmb.
    rewrite (remove_from_clean "/" "" sch _ Hss),
      (remove_from_miss "/" ":" "" _ eq_refl), !remove_from_hit,
      (remove_from_clean "/" "" host _ Hhs), remove_from_hit.
    cbn [remove_from]. rewrite append_nil_r.
    rewrite (split_clean ":" sch _ Hsc), (split_last ":" host Hhc).
    cbn [length Nat.leb Nat.eqb at_ nth]. rewrite Hsmb.
    rewrite ?append_assoc. reflexivity.
  - intros Hsmb.
    rewrite (remove_from_clean "/" "" sch _ Hss),
      (remove_from_miss "/" ":" "" _ eq_refl), !remove_from_hit,
      (remove_from_clean "/" "" host _ Hhs), remove_from_hit,
      (remove_from_clean "/" "" share _ Hrs), remove_from_hit.
    cbn [remove_from]. rewrite append_nil_r.
    assert (Hhr : lacks ":" (host +:+ share) = true)
      by (rewrite lacks_append, Hhc, Hrc; reflexivity).
    rewrite (split_clean ":" sch _ Hsc), (split_last ":" _ Hhr).
    cbn [length Nat.leb Nat.eqb at_ nth]. rewrite Hsmb.
    rewrite (remove_from_clean ":" "/" sch _ Hsc), remove_from_hit2,
      (remove_from_miss ":" "/" "/" _ eq_refl).
    assert (Hrest : lacks ":" (host +:+ String "/" (share +:+ "/")) = true)
      by (rewrite lacks_append, lacks_String, lacks_append, Hhc, Hrc;
          reflexivity).
    rewrite (remove_from_all_clean ":" "/" _ Hrest).
    rewrite (split_clean "/" sch _ Hss), (split_clean "/" host _ Hhs).
    change (share +:+ "/") with (share +:+ String "/" "").
    rewrite (split_clean "/" share _ Hrs).
    cbn [split length Nat.leb at_ nth]. rewrite ?append_assoc. reflexivity.
Qed.

Lemma reconstructedPath_mount_point_witness :
  reconstructedPath deskSlots ("smb" +:+ "://" +:+ "nas" +:+ "/" +:+ "films" +:+ "/")
  = sharePath.
Proof.
  etransitivity;
    [apply (reconstructedPath_mount_point deskSlots "smb" "nas" "22" "films");
     reflexivity
    | reflexivity].
Defined.

(** ** The disk-info file *)

Lemma loadDiskInfoStep_lookup (map : DiskInfoMap) (item : QJsonValue)
    (uuid : string) :
  loadDiskInfoStep map item !! uuid =
    match item with
    | JObject jsonObjectInfo =>
        if String.eqb (disk_uuid (diskInfoOf jsonObjectInfo)) uuid
        then Some (diskInfoOf jsonObjectInfo) else map !! uuid
    | _ => map !! uuid
    end.
Proof.
  destruct item; try reflexivity. cbn [loadDiskInfoStep].
  destruct (String.eqb_spec (disk_uuid (diskInfoOf jsonObject)) uuid) as [E|E].
  - rewrite E. apply lookup_insert_eq.
  - apply lookup_insert_ne. exact E.
Qed.

Lemma loadDiskInfoLoop_lookup (jsonArray : list QJsonValue) (uuid : string) :
  forall map : DiskInfoMap,
    fold_left loadDiskInfoStep jsonArray map !! uuid =
      match lastRecord uuid jsonArray with
      | Some str => Some str
      | None => map !! uuid
      end.
Proof.
  induction jsonArray as [|item rest IH]; intros map; [reflexivity|].
  cbn [fold_left lastRecord]. rewrite IH.
  destruct (lastRecord uuid rest); [reflexivity|].
  rewrite loadDiskInfoStep_lookup.
  destruct item; try reflexivity.
  destruct (String.eqb _ uuid); reflexivity.
Qed.

Lemma lastRecord_uuid (uuid : string) (jsonArray : list QJsonValue)
    (str : DiskInfoStr) :
  lastRecord uuid jsonArray = Some str -> disk_uuid str = uuid.
Proof.
  induction jsonArray as [|item rest IH]; [discriminate|].
  cbn [lastRecord]. destruct (lastRecord uuid rest).
  - intros H. injection H as <-. apply IH. reflexivity.
  - destruct item; try discriminate.
    destruct (String.eqb_spec (disk_uuid (diskInfoOf jsonObject)) uuid);
      [|discriminate].
    intros H. injection H as <-. assumption.
Qed.

(** X25.  What [loadDiskInfo] leaves in [DiskInfoMap] when the file holds
    an object whose member DISKINFO is an array: under each uuid the
    record of the last element of the array that is an object with this
    uuid (an object without a uuid member, or whose uuid is not a string,
    counting for the empty uuid), filed under its own uuid, and what was
    there before under every other uuid. *)
Theorem loadDiskInfo_last_record :
  forall (fs : FileSystem) (jsonPath : string) (map : DiskInfoMap)
         (jsonObject : gmap string QJsonValue) (jsonArray : list QJsonValue),
    jsonPath <> "" ->
    readJson fs (jsonPath +:+ "/diskinfo.json") = Some (JObject jsonObject) ->
    jsonObject !! "DISKINFO" = Some (JArray jsonArray) ->
    forall uuid : string,
      loadDiskInfo fs jsonPath map !! uuid =
        match lastRecord uuid jsonArray with
        | Some str => Some str
        | None => map !! uuid
        end /\
      (forall str, lastRecord uuid jsonArray = Some str -> disk_uuid str = uuid).
Proof.
  intros fs jsonPath map jsonObject jsonArray Hpath Hread Harr uuid.
  unfold loadDiskInfo. apply isEmpty_false in Hpath.
  rewrite Hpath, Hread, Harr. split.
  - apply loadDiskInfoLoop_lookup.
  - apply lastRecord_uuid.
Qed.

Lemma loadDiskInfo_last_record_witness :
  loadDiskInfo diskInfoFiles "/media/usb/UOSICON" knownDisks !! "U1" =
    Some (mkDiskInfoStr "U1" "sdb" "new") /\
  loadDiskInfo diskInfoFiles "/media/usb/UOSICON" knownDisks !! "" =
    Some (mkDiskInfoStr "" "" "anonymous") /\
  loadDiskInfo diskInfoFiles "/media/usb/UOSICON" knownDisks !! "U9" =
    Some (mkDiskInfoStr "U9" "sdz" "kept").
Proof.
  pose proof (fun uuid =>
    proj1 (loadDiskInfo_last_record diskInfoFiles "/media/usb/UOSICON" knownDisks
             _ _ ltac:(discriminate) eq_refl eq_refl uuid)) as H.
  repeat split; (etransitivity; [apply H|]); vm_compute; reflexivity.
Defined.

(** X26.  [loadDiskInfo] never takes a record out of [DiskInfoMap], and
    loading the same file again changes nothing; this holds whatever the
    file holds, also when nothing is loaded because the path is empty, the
    file cannot be read, or the document has no array DISKINFO. *)
Theorem loadDiskInfo_again :
  forall (fs : FileSystem) (jsonPath : string) (map : DiskInfoMap),
    (forall uuid : string,
       is_Some (map !! uuid) ->
       is_Some (loadDiskInfo fs jsonPath map !! uuid)) /\
    loadDiskInfo fs jsonPath (loadDiskInfo fs jsonPath map) =
      loadDiskInfo fs jsonPath map.
Proof.
  intros fs jsonPath map. unfold loadDiskInfo.
  destruct (isEmpty jsonPath); [split; auto|].
  destruct (readJson fs _) as [[| | | | |jsonObject]|]; try (split; auto; fail).
  destruct (jsonObject !! "DISKINFO") as [[| | | |jsonArray|]|];
    try (split; auto; fail).
  split.
  - intros uuid Hsome. rewrite loadDiskInfoLoop_lookup.
    destruct (lastRecord uuid jsonArray); [eexists; reflexivity | exact Hsome].
  - apply map_eq. intros uuid. rewrite !loadDiskInfoLoop_lookup.
    destruct (lastRecord uuid jsonArray); reflexivity.
Qed.

Lemma loadDiskInfo_again_witness :
  is_Some (loadDiskInfo diskInfoFiles "/media/usb/UOSICON" knownDisks !! "U9").
Proof.
  apply (loadDiskInfo_again diskInfoFiles "/media/usb/UOSICON" knownDisks).
  eexists. reflexivity.
Defined.

Lemma lastIndexOf_last (c : ascii) (s : string) :
  lastIndexOf c (s +:+ String c "") = size s.
Proof.
  induction s as [|x s IH].
  - rewrite append_nil. cbn [lastIndexOf]. rewrite Ascii.eqb_refl. reflexivity.
  - rewrite append_cons. cbn [lastIndexOf size]. rewrite IH.
    pose proof (size_nonneg s).
    destruct (Z.eqb_spec (size s) (-1)); lia.
Qed.

(** X27.  [reloadBlkName] looks for the disk-info file in the directory
    UOSICON under the first mount point, with one separator between the
    two whether or not the mount point ends in one: a device mounted on
    [q/] and a device mounted on [q] are treated alike, for a [q] that is
    not empty and does not end in a separator; and nothing is loaded for a
    device that is not mounted. *)
Theorem reloadBlkName_separator :
  forall (fs : FileSystem) (blk blk' : DBlockDevice) (map : DiskInfoMap)
         (q : string) (rest rest' : list string),
    (mountPoints blk = [] -> reloadBlkName fs blk map = map) /\
    (q <> "" -> lastIndexOf "/" q <> size q - 1 ->
     mountPoints blk = q :: rest ->
     mountPoints blk' = (q +:+ "/") :: rest' ->
     reloadBlkName fs blk map = reloadBlkName fs blk' map /\
     reloadBlkName fs blk map =
       if dirExists fs (q +:+ "/UOSICON")
       then loadDiskInfo fs (dirAbsolutePath fs (q +:+ "/UOSICON")) map
       else map).
Proof.
  intros fs blk blk' map q rest rest'. split.
  - intros H. unfold reloadBlkName. rewrite H. reflexivity.
  - intros Hq Hlast Hmp Hmp'. unfold reloadBlkName. rewrite Hmp, Hmp'.
    rewrite (lastIndexOf_last "/" q), size_append.
    change (size "/") with 1.
    replace (size q + 1 - 1) with (size q) by lia.
    rewrite Z.eqb_refl. cbn [negb].
    apply Z.eqb_neq in Hlast. rewrite Hlast. cbn [negb].
    rewrite !append_assoc. split; reflexivity.
Qed.

Lemma reloadBlkName_separator_witness :
  reloadBlkName diskInfoFiles usbBlock knownDisks =
    reloadBlkName diskInfoFiles usbBlockSlash knownDisks /\
  reloadBlkName diskInfoFiles usbBlock knownDisks !! "U1" =
    Some (mkDiskInfoStr "U1" "sdb" "new").
Proof.
  split; [|vm_compute; reflexivity].
  apply (reloadBlkName_separator diskInfoFiles usbBlock usbBlockSlash knownDisks
           "/media/usb" [] []);
    [discriminate | vm_compute; discriminate | reflexivity | reflexivity].
Defined.
